(* ===== verification/_CoqProject ===== *)
-Q . S2P
Prelude.v
Fhe.v
Verifier.v
Coin.v
Staking.v
Format.v
FormatSpec.v
JsNumber.v
Deploy.v
Invariants.v
Client.v
View.v
System.v
Protocol.v
Tests.v
