(* ===== verification/Prelude.v ===== *)
(** * SecureAPR: a verification development of confidential ETH staking

    The repository (yumiasaka/SecureAPR) lets an account stake native
    currency confidentially and earn an encrypted reward token (cCoin).
    Two contracts, ConfidentialCoin and SecureAPRStaking, hold the state;
    their Solidity source is not under [src/], so they are modelled from
    the specification (spec.md §3-§8) and marked [spec_modelled] in the
    manifest.  The code under [src/] is their client: the deploy script,
    the hardhat tasks, the test suite and the React staking page.  These
    are modelled from their source, as programs over the contract model.

    ** Files, leaves first

    - [Prelude.v] (this file): units and [uint64] arithmetic
      ([MICRO_UNIT], [wrap64]), the failure kinds of spec §7
      ([apr_error]), the [result] type of contract calls with its [let!]
      notation, [find_or] (a Solidity mapping's default read), and the
      hint databases and tactics the other files share.
    - [Fhe.v], [Module Fhe]: the encrypted-integer backend (fhEVM's
      [euint64] handles) as the typeclass interface [FheBackend] with its
      laws [FheLaws] (fresh handles are new and non-zero, plaintexts are
      [uint64], existing handles keep their plaintexts), the operations
      [asEuint64], [add], [mul], [div], and a concrete store [Store] (a
      [gmap] from handles to plaintexts) that satisfies the laws.  Every
      other file is proved against the interface, for every backend.
    - [Verifier.v], [Module Verifier]: decryption proofs, [verify]
      (fails closed on signer, handle and value) and the coordinator's
      [publicDecrypt]; [proof_sound] is the trust assumption that the
      coordinator signs only true plaintexts.
    - [Coin.v], [Module Coin]: the ledger ([confidentialBalanceOf],
      [mint]) and the one-shot minter gate ([setMinter]).
    - [Staking.v], [Module Staking]: the per-account record, the
      accrual on ciphertexts ([accrue_cipher], the product kept at 64 bits),
      [stake], [claimInterest], [requestWithdrawAll],
      [finalizeWithdrawAll], the getters, and [receive], which dispatches a
      transaction and moves its native value first.  A [world] holds the
      backend store, the coin, the accounts, native balances, the block
      time, the coordinator's key and the accounts refusing payments.
    - [Format.v], [Module Format]: [formatCcoinUnits] of
      [StakingApp.tsx] on strings (BigInt [toString] as a digit loop with
      fuel, [padStart], the trailing-zero regex), with a reader
      [parseCcoinUnits].
    - [FormatSpec.v], [Module FormatSpec]: the reference numeral
      [to_decimal], defined with Equations by well-founded recursion, and
      the language of canonical displays ([display_ok]).
    - [JsNumber.v], [Module JsNumber]: [microEthToEthString] of
      [StakingApp.tsx], [(Number(microEth) / 1_000_000).toString()], on a
      model of JavaScript's doubles: a double is its rational value,
      [round53] is IEEE-754 rounding to nearest even with 53 bits, and
      [number_to_string] is ECMAScript's [Number::toString] (the
      shortest round-tripping digits, the closest of them, the fixed or
      exponential layout).
    - [Deploy.v], [Module Deploy]: [deploy_func] of
      [src/deploy/secureapr.ts] (with a rerun against the recorded
      deployment), its registration ([func.id], [func.tags]) and
      hardhat-deploy's run of it ([runDeploy]: the [--tags] filter and
      the migration record of ids), [deployFixture] of the test suite;
      an example chain on the concrete backend.
    - [Invariants.v], [Module Invariants]: the step relation of the
      system (any sender's transaction, time passing, native payments),
      reachability, and the invariant [inv]: handles valid, minter fixed,
      accrual times not in the future, and solvency (the staking contract
      holds at least the stakes and pending withdrawals it owes).
    - [Client.v], [Module Client]: the seven hardhat tasks of
      [src/tasks/SecureAPR.ts] (with hardhat-deploy's [deployments.get])
      and the page of [StakingApp.tsx]: its state [ui], the shared
      try/catch/finally skeleton [run], the six handlers, the buttons'
      [disabled] conditions.
    - [View.v], [Module View]: what the page renders, the JSX of
      [StakingApp.tsx] as a tree of elements ([render], one definition
      per card, the stake's Clear line printed by
      [JsNumber.microEthToEthString]), [Header.tsx], the constants of
      [config/contracts.ts] and the [createConfig] argument of
      [config/wagmi.ts].
    - [System.v], [Module System]: the page's clicks as transactions of
      the system model: each click is nothing or one transaction from the
      page's signer that [Invariants.step] admits.
    - [Protocol.v], [Module Protocol]: the specification's two-state
      withdrawal machine and the refinement of it by the tasks.
    - [Tests.v], [Module Tests]: the three tests of
      [src/test/SecureAPRStaking.ts] and its [describe] block run in
      order on one chain, and the
      specification's concrete scenario run through the page.

    ** What is proved

    - Deployment and invariants: a first run of the deploy script yields
      a world satisfying [inv], every step preserves it, so it holds in
      every reachable world; there [claimInterest] never fails.
      [npx hardhat deploy --tags SecureAPR] reruns the script, since it
      does not resolve to [true], and the rerun reverts with [AlreadySet].
    - The page in the system: a click, under any wallet state, changes
      the chain by at most one transaction, sent by the page's signer and
      admitted by the system model (a finalize carries the oracle's
      proof), so a browser session is a run of the system model.
    - Withdrawal: in every reachable world, after a successful request
      (task or page) the finalize step succeeds and pays the whole stake;
      the solvency invariant discharges the contract's balance.  Under a
      sound coordinator, a finalize pays exactly the plaintext whatever
      the oracle answers; a wrong value reverts with [InvalidProof], and a
      missing one stops the task before any transaction.
    - Functional behaviour through the clients: stake then decrypt (task
      and page), claim then decrypt (one day of accrual by the task, any
      elapsed time by the page), two claims at the same time, the
      [InvalidAmount], [NoStake] and [WithdrawalAlreadyPending] errors;
      the page's own amount check equals the contract's guard; every
      handler releases [busy].
    - The rendered page: while a handler runs, every button is disabled
      and the clicked one shows its progress label, and all labels are
      idle again afterwards; after the cCoin Decrypt button the section shows the hex of the decrypted
      handle and a Clear line that reads back to its plaintext; the
      Error card after a failed click is never empty; after
      the stake's Decrypt button, likewise for the stake below
      [2^33 * 10^6] microETH.
    - Refinement: every successful task run is a step of the abstract
      machine [Idle -> PendingWithdrawal -> Idle] for its signer and a
      stutter for every other account.
    - Formatting: a string is a canonical display of an amount and reads
      back to it exactly when it is [formatCcoinUnits] of it (an
      equivalence); the fuel-bounded digit loop equals the well-founded
      [to_decimal].  The page's floating-point [microEthToEthString]
      prints the same string as [formatCcoinUnits] for every amount
      below [2^33 * 10^6] microETH (the example
      [JsNumber.microEthToEthString_tight] shows the bound is sharp).
    - The tests pass for every backend, each from any chain that meets
      its needs and the whole suite in order on one chain (skipped off
      the mock); the accrual test passes exactly when the [euint64]
      product [10^6 * 10 * d] stays below [2^64], and fails from
      [2^64 / 10^7] seconds on.  What modelling found: the page shows a
      stale stake after a withdrawal request, the scenario of spec §8 is
      displayed as "10 cCoin" (example [Tests.scenario_ccoin_display]),
      the page's stake display is off by one microETH past 8.59 billion
      ETH, and the accrual test fails once the product wraps.

    ** Bounds and fuel

    [uint64] values wrap modulo [2^64] ([wrap64]); the accrual is exact
    when [stake * 10 * elapsed < 2^64], which the claim theorems assume
    and [Tests.test_accrual_passes_iff] shows to be needed.  The accrual
    test is proved for up to [10^12] seconds, below the [1.8 * 10^12]
    where the product wraps for one ether.  [Format.digits_fuel] is run
    with [log2 n + 1] steps, enough for every decimal digit of [n] since
    [10^(log2 n + 1) > 2^(log2 n + 1) > n];
    [FormatSpec.bigint_to_string_fuel_enough] proves that this and any
    larger fuel give [to_decimal n].  The hex text of a [bytes32] handle
    has 64 digits.  [JsNumber.shortest] searches digit counts from 1 to
    17, the count every double round-trips with; the exponent of
    [round53] is unbounded, since the page's values (below [2^64]
    microETH, at least [10^-6] ETH) are far from overflow and from
    subnormal doubles.  The display is exact below [2^33 * 10^6]
    microETH because the quotient's rounding error is then at most
    [2^-21] ETH, under half a microETH.

    ** Not modelled

    Gas and fees; the EIP-712 keypair and signature steps of the page's
    [userDecrypt] and the access control list of the backend (their result,
    the plaintext, is modelled); ciphertexts and cryptography (a handle's
    plaintext is what the backend maps it to); NaN, infinities and the
    sign of zero of JavaScript's doubles, which the page's non-negative
    finite amounts never produce; the messages of the errors ethers throws (parameters of
    the render; each handler's "Failed to ..." fallback is modelled); the
    effect of the empty placeholder ABIs of [contracts.ts] on ethers'
    [Contract] objects (a library behaviour, recorded as a finding);
    [ethers.parseEther], a library function that the definitions take as
    a parameter; the two console lines of the deploy script, which
    print and change nothing.  Within the page, a handler runs as one
    step: the transactions of others that land while it awaits are
    ordered before or after it, and a later query load reads them.  The
    encryption backend stays an interface with laws and one concrete
    store: its keys, ciphertexts and access list are cryptography and
    library internals that neither the sources nor the specification
    describe, so that component is modelled only in part.

    ** Conventions

    - [uint64] values are [Z] with their wrap-around written out;
      amounts of native currency are [Z] in wei;
    - addresses and handles are [N]; the handle [0] is the zero sentinel
      ([ethers.ZeroHash]) that stands for "no encrypted value";
    - a contract call returns a [result]: [Ok] with the new state, or
      [Err] with the failure kind; a failed call has no state to return,
      which is how the model reflects that every failure reverts;
    - the hint databases [apr] (validity of handles, [wrap64] bounds) and
      [apr_rw] (map lookups, [rbind] on values) and the tactic
      [simpl_u64] carry the routine steps of the proofs. *)

From Stdlib Require Import ZArith Lia.
From stdpp Require Import base gmap list.

Declare Scope apr_scope.
Delimit Scope apr_scope with apr.
Open Scope Z_scope.

(** ** Units and machine integers *)

(** [1 microETH = 1e12] wei: the staking precision and minimum increment. *)
Definition MICRO_UNIT : Z := 1000000000000.

(** Reward rate: 10 cCoin per staked ETH per day, i.e. with six decimals
    on both sides, [stake_micro * 10 * elapsed / 86400] reward units. *)
Definition RATE_PER_ETH_PER_DAY : Z := 10.
Definition SECONDS_PER_DAY : Z := 86400.

Definition UINT64_MODULUS : Z := 2 ^ 64.

(** The wrap-around of fhEVM's [euint64] arithmetic. *)
Definition wrap64 (z : Z) : Z := z mod UINT64_MODULUS.

Abbreviation address := N (only parsing).
Abbreviation handle := N (only parsing).

(** The zero handle, [ethers.ZeroHash]: "no encrypted value". *)
Definition ZERO_HANDLE : handle := 0%N.

(** ** Failure kinds (spec §7) *)

Inductive apr_error :=
| InvalidAmount
| Unauthorized
| AlreadySet
| NoStake
| NoPendingWithdrawal
| WithdrawalAlreadyPending
| InvalidProof
| TransferFailed.

#[export] Instance apr_error_eq_dec : EqDecision apr_error.
Proof. solve_decision. Defined.

(** ** Results of contract calls *)

Inductive result (A E : Type) :=
| Ok (a : A)
| Err (e : E).
Arguments Ok {A E} a.
Arguments Err {A E} e.

Definition rbind {A B E} (c : result A E) (k : A -> result B E) : result B E :=
  match c with
  | Ok a => k a
  | Err e => Err e
  end.

Notation "'let!' x := c 'in' k" := (rbind c (fun x => k))
  (at level 10, x name, c at level 100, k at level 200) : apr_scope.
Notation "'let!' ' p := c 'in' k" := (rbind c (fun x => match x with p => k end))
  (at level 10, p pattern, c at level 100, k at level 200) : apr_scope.

Definition is_ok {A E} (r : result A E) : bool :=
  match r with Ok _ => true | Err _ => false end.

Definition ok_or {A E} (r : result A E) (d : A) : A :=
  match r with Ok a => a | Err _ => d end.

Open Scope apr_scope.

(** ** Generic lemmas *)

Create HintDb apr.
Create Rewrite HintDb apr_rw.

Lemma rbind_ok_inv {A B E} (c : result A E) (k : A -> result B E) b :
  rbind c k = Ok b -> exists a, c = Ok a /\ k a = Ok b.
Proof. destruct c; simpl; [eauto | discriminate]. Qed.

Lemma rbind_err_inv {A B E} (c : result A E) (k : A -> result B E) e :
  rbind c k = Err e -> c = Err e \/ exists a, c = Ok a /\ k a = Err e.
Proof. destruct c; simpl; [eauto | intros [= ->]; auto]. Qed.

Lemma rbind_ok {A B E} (a : A) (k : A -> result B E) : rbind (Ok a) k = k a.
Proof. reflexivity. Qed.

Lemma rbind_err {A B E} (e : E) (k : A -> result B E) : rbind (Err e) k = Err e.
Proof. reflexivity. Qed.

#[export] Hint Rewrite @rbind_ok @rbind_err : apr_rw.

Lemma UINT64_MODULUS_pos : 0 < UINT64_MODULUS.
Proof. reflexivity. Qed.

Lemma wrap64_range z : 0 <= wrap64 z < UINT64_MODULUS.
Proof. unfold wrap64. apply Z.mod_pos_bound. reflexivity. Qed.

Lemma wrap64_small z : 0 <= z < UINT64_MODULUS -> wrap64 z = z.
Proof. apply Z.mod_small. Qed.

Lemma wrap64_idem z : wrap64 (wrap64 z) = wrap64 z.
Proof. apply wrap64_small, wrap64_range. Qed.

Lemma wrap64_add z1 z2 : wrap64 (wrap64 z1 + z2) = wrap64 (z1 + z2).
Proof. unfold wrap64. rewrite Zplus_mod_idemp_l. reflexivity. Qed.

Lemma wrap64_add_r z1 z2 : wrap64 (z1 + wrap64 z2) = wrap64 (z1 + z2).
Proof. unfold wrap64. rewrite Zplus_mod_idemp_r. reflexivity. Qed.

#[export] Hint Resolve wrap64_range wrap64_small : apr.
#[export] Hint Rewrite wrap64_idem : apr_rw.

(** Close goals about [wrap64] and the units by unfolding the constants. *)
Ltac simpl_u64 :=
  unfold wrap64, UINT64_MODULUS, MICRO_UNIT, RATE_PER_ETH_PER_DAY,
    SECONDS_PER_DAY in *.

(** The default value of a map lookup, as Solidity's mappings return it. *)
Definition find_or {V} (d : V) (m : gmap N V) (k : N) : V :=
  default d (m !! k).

Lemma find_or_insert_eq {V} (d v : V) (m : gmap N V) k :
  find_or d (<[k := v]> m) k = v.
Proof. unfold find_or. by rewrite lookup_insert_eq. Qed.

Lemma find_or_insert_ne {V} (d v : V) (m : gmap N V) k k' :
  k <> k' -> find_or d (<[k := v]> m) k' = find_or d m k'.
Proof. intros Hne. unfold find_or. by rewrite lookup_insert_ne. Qed.

#[export] Hint Rewrite @find_or_insert_eq : apr_rw.
