(* ===== verification/Fhe.v ===== *)
(** * The encrypted-integer backend ([euint64] handles)

    The contracts never read a plaintext: they hold handles to
    ciphertexts of a confidential-computation backend (fhEVM) and ask the
    backend to compute on them.  The backend is an external library, so
    it is stated here as an interface: [FheBackend] gives a handle's
    plaintext ([fhe_decrypt], the meaning the off-chain key holders give
    it), whether a handle has been produced ([fhe_allocated]) and the
    allocation of a new ciphertext ([fhe_fresh]); [FheLaws] states what
    the contracts rely on.  The homomorphic operations of [FHE.*]
    ([asEuint64], [add], [sub], [mul] and [div] by a plaintext scalar)
    are derived from [fhe_fresh], with [euint64]'s wrap-around.  A
    handle that was never produced (the zero handle in particular) reads
    as an encryption of 0, as fhEVM treats uninitialised operands.

    [Store] is a concrete backend, a [gmap] from handles to plaintexts
    whose fresh handle is one more than the largest handle in use; it
    satisfies the laws, and the executable examples of later files run
    on it. *)

From Stdlib Require Import ZArith Lia.
From stdpp Require Import base gmap list.
From S2P Require Import Prelude.

Open Scope Z_scope.

Module Fhe.

Class FheBackend (S : Type) := {
  fhe_decrypt : S -> handle -> Z;
  fhe_allocated : S -> handle -> bool;
  fhe_fresh : Z -> S -> handle * S
}.

Class FheLaws (S : Type) `{!FheBackend S} := {
  fhe_zero_unallocated s : fhe_allocated s 0%N = false;
  fhe_decrypt_unallocated s h : fhe_allocated s h = false -> fhe_decrypt s h = 0;
  fhe_decrypt_range s h : 0 <= fhe_decrypt s h < UINT64_MODULUS;
  fhe_fresh_allocated v s : fhe_allocated (fhe_fresh v s).2 (fhe_fresh v s).1 = true;
  fhe_fresh_new v s : fhe_allocated s (fhe_fresh v s).1 = false;
  fhe_fresh_decrypt v s : fhe_decrypt (fhe_fresh v s).2 (fhe_fresh v s).1 = wrap64 v;
  fhe_fresh_keep v s h :
    fhe_allocated s h = true ->
    fhe_allocated (fhe_fresh v s).2 h = true /\
    fhe_decrypt (fhe_fresh v s).2 h = fhe_decrypt s h
}.

Section Ops.
Context {S : Type} `{!FheBackend S}.

(** [FHE.asEuint64(v)]: a trivial encryption of a plaintext. *)
Definition asEuint64 (v : Z) (s : S) : handle * S := fhe_fresh v s.

(** [FHE.add(a, b)] and [FHE.sub(a, b)], wrapping modulo [2^64]. *)
Definition add (a b : handle) (s : S) : handle * S :=
  fhe_fresh (fhe_decrypt s a + fhe_decrypt s b) s.

Definition sub (a b : handle) (s : S) : handle * S :=
  fhe_fresh (fhe_decrypt s a - fhe_decrypt s b) s.

(** [FHE.mul(a, k)] and [FHE.div(a, k)] with a plaintext scalar [k]. *)
Definition mul (a : handle) (k : Z) (s : S) : handle * S :=
  fhe_fresh (fhe_decrypt s a * k) s.

Definition div (a : handle) (k : Z) (s : S) : handle * S :=
  fhe_fresh (fhe_decrypt s a / k) s.

(** A handle a contract may hold: the zero sentinel or a produced one. *)
Definition valid (s : S) (h : handle) : bool :=
  (h =? 0)%N || fhe_allocated s h.

End Ops.

Section Laws.
Context {S : Type} `{FheLaws S}.

Lemma decrypt_zero (s : S) : fhe_decrypt s 0%N = 0.
Proof. apply fhe_decrypt_unallocated, fhe_zero_unallocated. Qed.

Lemma fresh_nonzero v (s : S) : (fhe_fresh v s).1 <> 0%N.
Proof.
  intros Heq. pose proof (fhe_fresh_allocated v s) as Ha.
  rewrite Heq, fhe_zero_unallocated in Ha. discriminate.
Qed.

(** Allocating a ciphertext changes the plaintext of no valid handle. *)
Lemma fresh_keep_valid v (s : S) h :
  valid s h = true ->
  valid (fhe_fresh v s).2 h = true /\
  fhe_decrypt (fhe_fresh v s).2 h = fhe_decrypt s h.
Proof.
  unfold valid. intros [Hz | Ha]%orb_true_iff.
  - apply N.eqb_eq in Hz as ->. rewrite !decrypt_zero. auto.
  - destruct (fhe_fresh_keep v s h Ha) as [-> ->]. rewrite orb_true_r. auto.
Qed.

Lemma fresh_valid v (s : S) : valid (fhe_fresh v s).2 (fhe_fresh v s).1 = true.
Proof. unfold valid. by rewrite fhe_fresh_allocated, orb_true_r. Qed.

Lemma decrypt_wrap (s : S) h : wrap64 (fhe_decrypt s h) = fhe_decrypt s h.
Proof. apply wrap64_small, fhe_decrypt_range. Qed.

Lemma add_decrypt a b (s : S) :
  fhe_decrypt (add a b s).2 (add a b s).1 = wrap64 (fhe_decrypt s a + fhe_decrypt s b).
Proof. apply fhe_fresh_decrypt. Qed.

Lemma mul_decrypt a k (s : S) :
  fhe_decrypt (mul a k s).2 (mul a k s).1 = wrap64 (fhe_decrypt s a * k).
Proof. apply fhe_fresh_decrypt. Qed.

Lemma div_decrypt a k (s : S) :
  fhe_decrypt (div a k s).2 (div a k s).1 = wrap64 (fhe_decrypt s a / k).
Proof. apply fhe_fresh_decrypt. Qed.

Lemma asEuint64_decrypt v (s : S) :
  fhe_decrypt (asEuint64 v s).2 (asEuint64 v s).1 = wrap64 v.
Proof. apply fhe_fresh_decrypt. Qed.

(** [fhe_ext s s']: [s'] keeps every valid handle of [s], with its
    plaintext.  Every operation of the contracts moves the backend state
    along this preorder. *)
Definition fhe_ext (s s' : S) : Prop :=
  forall h, valid s h = true -> valid s' h = true /\ fhe_decrypt s' h = fhe_decrypt s h.

#[global] Instance fhe_ext_preorder : PreOrder fhe_ext.
Proof.
  split.
  - intros s h Hh. auto.
  - intros s1 s2 s3 H12 H23 h Hh.
    destruct (H12 h Hh) as [Hv2 Hd2]. destruct (H23 h Hv2) as [Hv3 Hd3].
    split; congruence.
Qed.

Lemma fhe_ext_fresh v (s : S) : fhe_ext s (fhe_fresh v s).2.
Proof. intros h. apply fresh_keep_valid. Qed.

Lemma fhe_ext_valid (s s' : S) h : fhe_ext s s' -> valid s h = true -> valid s' h = true.
Proof. intros Hx Hh. exact (proj1 (Hx h Hh)). Qed.

Lemma fhe_ext_decrypt (s s' : S) h :
  fhe_ext s s' -> valid s h = true -> fhe_decrypt s' h = fhe_decrypt s h.
Proof. intros Hx Hh. exact (proj2 (Hx h Hh)). Qed.

End Laws.

#[global] Hint Resolve fhe_ext_fresh fresh_valid fhe_ext_valid : apr.

(** ** A concrete backend: a store of plaintexts indexed by handle *)

Record Store := mkStore { store_vals : gmap N Z }.

Definition max_handle (m : gmap N Z) : N :=
  foldr N.max 0%N (fst <$> map_to_list m).

(** Handle 0 is never a ciphertext, whatever the map holds under it. *)
Definition store_lookup (s : Store) (h : handle) : option Z :=
  if (h =? 0)%N then None else store_vals s !! h.

Definition store_decrypt (s : Store) (h : handle) : Z :=
  match store_lookup s h with Some v => wrap64 v | None => 0 end.

Definition store_allocated (s : Store) (h : handle) : bool :=
  match store_lookup s h with Some _ => true | None => false end.

Definition store_fresh (v : Z) (s : Store) : handle * Store :=
  let h := (max_handle (store_vals s) + 1)%N in
  (h, mkStore (<[h := wrap64 v]> (store_vals s))).

#[global] Instance store_backend : FheBackend Store :=
  {| fhe_decrypt := store_decrypt;
     fhe_allocated := store_allocated;
     fhe_fresh := store_fresh |}.

Lemma foldr_max_ge (l : list N) k : k ∈ l -> (k <= foldr N.max 0 l)%N.
Proof.
  induction l as [|x l IH]; simpl; [by intros ?%elem_of_nil|].
  intros [-> | Hk]%elem_of_cons; [lia|]. specialize (IH Hk). lia.
Qed.

Lemma max_handle_ge (m : gmap N Z) k v : m !! k = Some v -> (k <= max_handle m)%N.
Proof.
  intros Hk. apply foldr_max_ge.
  apply (list_elem_of_fmap_2' fst _ (k, v)); [|done]. by apply elem_of_map_to_list.
Qed.

Lemma store_fresh_unused (m : gmap N Z) : m !! (max_handle m + 1)%N = None.
Proof.
  destruct (m !! _) as [v|] eqn:Hv; [|done].
  apply max_handle_ge in Hv. lia.
Qed.

Lemma store_lookup_fresh v (s : Store) h :
  store_lookup (store_fresh v s).2 h =
  if (h =? max_handle (store_vals s) + 1)%N then Some (wrap64 v) else store_lookup s h.
Proof.
  unfold store_lookup, store_fresh; simpl.
  destruct (N.eqb_spec h (max_handle (store_vals s) + 1)) as [->|Hne].
  - replace (max_handle (store_vals s) + 1 =? 0)%N with false
      by (symmetry; apply N.eqb_neq; lia).
    by rewrite lookup_insert_eq.
  - by rewrite lookup_insert_ne by congruence.
Qed.

Lemma store_lookup_fresh_unused (s : Store) :
  store_lookup s (max_handle (store_vals s) + 1)%N = None.
Proof. unfold store_lookup. rewrite store_fresh_unused. by destruct (_ =? 0)%N. Qed.

#[global] Instance store_laws : FheLaws Store.
Proof.
  split; intros *; change fhe_decrypt with store_decrypt;
    change fhe_allocated with store_allocated; change fhe_fresh with store_fresh;
    unfold store_decrypt, store_allocated.
  - reflexivity.
  - destruct (store_lookup s h); [discriminate | reflexivity].
  - destruct (store_lookup s h); [apply wrap64_range | split; [lia | reflexivity]].
  - rewrite store_lookup_fresh. by rewrite N.eqb_refl.
  - unfold store_fresh; simpl. by rewrite store_lookup_fresh_unused.
  - rewrite store_lookup_fresh, N.eqb_refl. by rewrite wrap64_idem.
  - intros Hh. rewrite store_lookup_fresh.
    destruct (N.eqb_spec h (max_handle (store_vals s) + 1)) as [->|]; [|done].
    by rewrite store_lookup_fresh_unused in Hh.
Qed.

End Fhe.

(** Name the result of every allocation in the goal and record its three
    facts: the store grows ([Hx]), the handle is valid ([Hv]) and holds
    the wrapped plaintext ([Hd]). *)
Ltac fresh_steps :=
  repeat match goal with
  | |- context [Fhe.fhe_fresh ?v ?s] =>
      let Hx := fresh "Hx" in let Hv := fresh "Hv" in let Hd := fresh "Hd" in
      let h := fresh "h" in let s' := fresh "s" in
      pose proof (Fhe.fhe_ext_fresh v s) as Hx;
      pose proof (Fhe.fresh_valid v s) as Hv;
      pose proof (Fhe.fhe_fresh_decrypt v s) as Hd;
      destruct (Fhe.fhe_fresh v s) as [h s']; simpl in Hx, Hv, Hd |- *
  | H : context [Fhe.fhe_fresh ?v ?s] |- _ =>
      let Hx := fresh "Hx" in let Hv := fresh "Hv" in let Hd := fresh "Hd" in
      let h := fresh "h" in let s' := fresh "s" in
      pose proof (Fhe.fhe_ext_fresh v s) as Hx;
      pose proof (Fhe.fresh_valid v s) as Hv;
      pose proof (Fhe.fhe_fresh_decrypt v s) as Hd;
      destruct (Fhe.fhe_fresh v s) as [h s']; simpl in Hx, Hv, Hd, H
  end.

