(* ===== verification/Verifier.v ===== *)
(** * Decryption proofs: the verifier and the off-chain oracle

    A withdrawal is released only against a proof that a plaintext is the
    decryption of a handle.  A [proof] records the key of the
    coordinator that signed it and the handles and plaintexts it covers
    (the oracle signs the list it was asked about, spec §6).  [verify]
    is [DecryptionProofVerifier.verify] (spec §4.3): the proof must be
    signed with the trusted key and cover exactly the pair
    [(handle, clearValue)], which is how [FHE.checkSignatures] is called
    with one handle.  [publicDecrypt] is the oracle ([fhevm.publicDecrypt]
    in the tasks, [instance.publicDecrypt] in the front end): it returns
    the clear values and one proof covering them.  The oracle is external:
    [publicDecrypt] is the honest one, the finalize task of [Client.v]
    also takes any oracle as a parameter, and [proof_sound] is the trust
    assumption on any proof that carries the trusted key. *)

From Stdlib Require Import ZArith Lia.
From stdpp Require Import base list.
From S2P Require Import Prelude Fhe.

Open Scope Z_scope.

Module Verifier.

Record proof := mkProof {
  pf_signer : N;
  pf_handles : list handle;
  pf_clears : list Z
}.

(** [verify(handle, clearValue, proof)], failing closed. *)
Definition verify (kms : N) (h : handle) (clear : Z) (pf : proof) : bool :=
  (pf_signer pf =? kms)%N && bool_decide (pf_handles pf = [h])
  && bool_decide (pf_clears pf = [clear]).

(** The clear value the oracle returned for a handle
    ([decrypted.clearValues[handle]]): [undefined] when the answer has
    no entry for it. *)
Fixpoint clear_value (clears : list (handle * Z)) (h : handle) : option Z :=
  match clears with
  | [] => None
  | (h', v) :: rest => if (h' =? h)%N then Some v else clear_value rest h
  end.

Section Oracle.
Context {S : Type} `{!Fhe.FheBackend S}.

Definition publicDecrypt (kms : N) (s : S) (hs : list handle)
    : list (handle * Z) * proof :=
  let vs := map (Fhe.fhe_decrypt s) hs in
  (zip hs vs, mkProof kms hs vs).

(** Trust in the coordinator: what it signs is the decryption. *)
Definition proof_sound (kms : N) (s : S) (pf : proof) : Prop :=
  pf_signer pf = kms -> pf_clears pf = map (Fhe.fhe_decrypt s) (pf_handles pf).

End Oracle.

Lemma verify_true kms h clear pf :
  verify kms h clear pf = true <->
  pf_signer pf = kms /\ pf_handles pf = [h] /\ pf_clears pf = [clear].
Proof.
  unfold verify. rewrite !andb_true_iff, N.eqb_eq, !bool_decide_eq_true. tauto.
Qed.

Section Theorems.
Context {S : Type} `{Fhe.FheLaws S}.

(** a proof accepted under a sound coordinator gives the true plaintext. *)
Lemma verify_sound kms (s : S) h clear pf :
  proof_sound kms s pf -> verify kms h clear pf = true ->
  clear = Fhe.fhe_decrypt s h.
Proof.
  intros Hsound (Hk & Hh & Hc)%verify_true.
  specialize (Hsound Hk). rewrite Hh, Hc in Hsound. simpl in Hsound. congruence.
Qed.

Lemma publicDecrypt_sound kms (s : S) hs : proof_sound kms s (publicDecrypt kms s hs).2.
Proof. intros _. reflexivity. Qed.


(** A proof the oracle gave stays sound while its handles keep their
    plaintexts, as they do under every later allocation. *)
Lemma proof_sound_fresh kms (s : S) pf v :
  Forall (fun h => Fhe.valid s h = true) (pf_handles pf) ->
  proof_sound kms s pf -> proof_sound kms (Fhe.fhe_fresh v s).2 pf.
Proof.
  intros Hv Hs Hk. rewrite (Hs Hk). apply map_ext_Forall.
  eapply Forall_impl; [exact Hv|]. intros h Hh. symmetry.
  exact (proj2 (Fhe.fresh_keep_valid v s h Hh)).
Qed.

End Theorems.

End Verifier.
