(* ===== verification/Coin.v ===== *)
(** * ConfidentialCoin: the encrypted ledger and its minter gate

    The cCoin contract keeps one encrypted balance per account and lets a
    single minter, set once by the deployer, add an encrypted amount to a
    balance (spec §4.1 and §4.4).  The state is [coin]: the deployer
    ([coin_owner]), the minter once set ([coin_minter]) and the balance
    handles.  [mint] threads the backend state, since the homomorphic
    addition allocates a new ciphertext. *)

From Stdlib Require Import ZArith Lia.
From stdpp Require Import base gmap list.
From S2P Require Import Prelude Fhe.

Open Scope Z_scope.

Module Coin.

Record coin := mkCoin {
  coin_owner : address;
  coin_minter : option address;
  coin_balances : gmap address handle
}.

(** The constructor: the deploying account owns the gate, no minter yet. *)
Definition init (deployer : address) : coin := mkCoin deployer None ∅.

(** [confidentialBalanceOf(account)]: the zero handle if never minted to. *)
Definition confidentialBalanceOf (c : coin) (a : address) : handle :=
  find_or ZERO_HANDLE (coin_balances c) a.

(** [setMinter(address)]: by the deployer only, and only once. *)
Definition setMinter (caller m : address) (c : coin) : result coin apr_error :=
  if negb (caller =? coin_owner c)%N then Err Unauthorized
  else match coin_minter c with
       | Some _ => Err AlreadySet
       | None => Ok (mkCoin (coin_owner c) (Some m) (coin_balances c))
       end.

Section Mint.
Context {S : Type} `{!Fhe.FheBackend S}.

(** [mint(account, amountCiphertext)]: homomorphic addition to the
    balance, by the configured minter only. *)
Definition mint (caller to : address) (amount : handle) (c : coin) (s : S)
    : result (coin * S) apr_error :=
  if negb (bool_decide (coin_minter c = Some caller)) then Err Unauthorized
  else
    let '(h, s') := Fhe.add (confidentialBalanceOf c to) amount s in
    Ok (mkCoin (coin_owner c) (coin_minter c) (<[to := h]> (coin_balances c)), s').

(** Every balance handle is the zero sentinel or a produced ciphertext. *)
Definition coin_wf (s : S) (c : coin) : Prop :=
  map_Forall (fun _ h => Fhe.valid s h = true) (coin_balances c).

End Mint.

Section Theorems.
Context {S : Type} `{Fhe.FheLaws S}.

Lemma mint_ok_iff caller to amount c (s : S) :
  is_ok (mint caller to amount c s) = bool_decide (coin_minter c = Some caller).
Proof. unfold mint. case_bool_decide; simpl; [by destruct (Fhe.add _ _ _) | done]. Qed.

Lemma mint_unauthorized caller to amount c (s : S) :
  coin_minter c <> Some caller -> mint caller to amount c s = Err Unauthorized.
Proof. intros Hm. unfold mint. by rewrite bool_decide_eq_false_2. Qed.

Lemma mint_eq caller to amount c (s : S) :
  coin_minter c = Some caller ->
  mint caller to amount c s =
    Ok (mkCoin (coin_owner c) (coin_minter c)
          (<[to := (Fhe.add (confidentialBalanceOf c to) amount s).1]> (coin_balances c)),
        (Fhe.add (confidentialBalanceOf c to) amount s).2).
Proof.
  intros Hm. unfold mint. rewrite bool_decide_eq_true_2 by done. simpl.
  by destruct (Fhe.add _ _ _).
Qed.

Lemma balanceOf_insert_eq o m b a h :
  confidentialBalanceOf (mkCoin o m (<[a := h]> b)) a = h.
Proof. unfold confidentialBalanceOf. cbn. by autorewrite with apr_rw. Qed.

Lemma balanceOf_insert_ne o m b a a' h :
  a <> a' ->
  confidentialBalanceOf (mkCoin o m (<[a := h]> b)) a' = confidentialBalanceOf (mkCoin o m b) a'.
Proof. apply find_or_insert_ne. Qed.

Lemma balance_valid (s : S) c a : coin_wf s c -> Fhe.valid s (confidentialBalanceOf c a) = true.
Proof.
  intros Hwf. unfold confidentialBalanceOf, find_or.
  destruct (coin_balances c !! a) as [h|] eqn:Hh; simpl; [exact (Hwf a h Hh) | done].
Qed.

Lemma coin_wf_fresh (s : S) c v : coin_wf s c -> coin_wf (Fhe.fhe_fresh v s).2 c.
Proof.
  intros Hwf a h Hh. exact (proj1 (Fhe.fresh_keep_valid v s h (Hwf a h Hh))).
Qed.

(** [mint] adds the plaintext of the amount to the recipient's balance,
    modulo [2^64], and keeps the plaintext of every other handle. *)
Lemma mint_spec caller to amount c (s : S) c' s' :
  coin_wf s c -> Fhe.valid s amount = true ->
  mint caller to amount c s = Ok (c', s') ->
  coin_wf s' c' /\
  coin_owner c' = coin_owner c /\ coin_minter c' = coin_minter c /\
  Fhe.fhe_decrypt s' (confidentialBalanceOf c' to) =
    wrap64 (Fhe.fhe_decrypt s (confidentialBalanceOf c to) + Fhe.fhe_decrypt s amount) /\
  (forall a, a <> to -> confidentialBalanceOf c' a = confidentialBalanceOf c a) /\
  (forall h, Fhe.valid s h = true ->
     Fhe.valid s' h = true /\ Fhe.fhe_decrypt s' h = Fhe.fhe_decrypt s h).
Proof.
  intros Hwf Hva Hmint.
  destruct (decide (coin_minter c = Some caller)) as [Hm|Hm];
    [|by rewrite mint_unauthorized in Hmint].
  rewrite mint_eq in Hmint by done. injection Hmint as <- <-. unfold Fhe.add.
  split_and!; [| done | done | | |].
  - apply map_Forall_insert_2; [eauto with apr|]. by apply coin_wf_fresh.
  - rewrite balanceOf_insert_eq. apply Fhe.fhe_fresh_decrypt.
  - intros a Ha. by apply balanceOf_insert_ne.
  - intros h Hh. apply Fhe.fresh_keep_valid, Hh.
Qed.

Lemma setMinter_spec caller m c c' :
  setMinter caller m c = Ok c' ->
  caller = coin_owner c /\ coin_minter c = None /\
  c' = mkCoin (coin_owner c) (Some m) (coin_balances c).
Proof.
  unfold setMinter. destruct (N.eqb_spec caller (coin_owner c)); simpl; [|discriminate].
  destruct (coin_minter c); [discriminate|]. intros [= <-]. auto.
Qed.

End Theorems.

End Coin.
