(* ===== verification/Staking.v ===== *)
(** * SecureAPRStaking: the confidential staking engine

    The staking contract keeps, per account, the handle of its encrypted
    stake in microETH, the time of its last accrual and the handle of its
    pending withdrawal (spec §3, §4.2).  It calls the coin's [mint] to pay
    interest, the verifier to check a decryption proof, and the chain to
    pay native currency out.  The [world] record is what these calls
    touch: the backend store, the coin, the staking accounts, the native
    balances (wei), the block time, the staking contract's address, the
    verifier's trusted key, and the accounts whose receive function
    reverts (so that a payment to them fails).

    Each entry point is a function [world -> result world apr_error]: it
    returns the whole new world, or the failure kind with no world, which
    is how a revert discards every effect of the call ([receive] is the
    transaction: it moves [msg.value] first and reverts it with the rest).
    The handle [0] stands for "no stake" and "no pending withdrawal". *)

From Stdlib Require Import ZArith Lia.
From stdpp Require Import base gmap list.
From S2P Require Import Prelude Fhe Verifier Coin.

Open Scope Z_scope.

Module Staking.

Record account := mkAccount {
  acc_stake : handle;
  acc_last : Z;
  acc_pending : handle
}.

Definition empty_account : account := mkAccount ZERO_HANDLE 0 ZERO_HANDLE.

(** The spec's accrual formula on plaintexts:
    [floor(stake * ratePerEthPerDay * elapsed / secondsPerDay)]. *)
Definition accrual (stake_micro elapsed : Z) : Z :=
  stake_micro * RATE_PER_ETH_PER_DAY * elapsed / SECONDS_PER_DAY.

Section Engine.
Context {S : Type} `{!Fhe.FheBackend S}.

Record world := mkWorld {
  w_fhe : S;
  w_coin : Coin.coin;
  w_accounts : gmap address account;
  w_eth : gmap address Z;
  w_now : Z;
  w_staking : address;
  w_kms : N;
  w_rejects : list address
}.

Definition account_of (w : world) (a : address) : account :=
  find_or empty_account (w_accounts w) a.

Definition eth_of (w : world) (a : address) : Z := find_or 0 (w_eth w) a.

Definition set_account (w : world) (a : address) (acc : account) : world :=
  mkWorld (w_fhe w) (w_coin w) (<[a := acc]> (w_accounts w)) (w_eth w)
    (w_now w) (w_staking w) (w_kms w) (w_rejects w).

Definition set_ledger (w : world) (c : Coin.coin) (s : S) : world :=
  mkWorld s c (w_accounts w) (w_eth w) (w_now w) (w_staking w) (w_kms w) (w_rejects w).

Definition set_eth (w : world) (e : gmap address Z) : world :=
  mkWorld (w_fhe w) (w_coin w) (w_accounts w) e (w_now w) (w_staking w) (w_kms w)
    (w_rejects w).

(** A native transfer of [v] wei: the payer must hold it. *)
Definition move_eth (from to : address) (v : Z) (w : world) : option world :=
  if (v <? 0) || (eth_of w from <? v) then None
  else
    let e1 := <[from := eth_of w from - v]> (w_eth w) in
    Some (set_eth w (<[to := find_or 0 e1 to + v]> e1)).

(** The accrual algorithm on ciphertexts: [FHE.mul] of the stake by
    [rate * elapsed], then [FHE.div] by the seconds of a day. *)
Definition accrue_cipher (acc : account) (now : Z) (s : S) : handle * S :=
  let elapsed := now - acc_last acc in
  let '(hm, s1) := Fhe.mul (acc_stake acc) (RATE_PER_ETH_PER_DAY * elapsed) s in
  Fhe.div hm SECONDS_PER_DAY s1.

(** Accrue since the last accrual, mint the result to the account, and
    reset the accrual time to now. *)
Definition accrue (sender : address) (w : world) : result world apr_error :=
  let acc := account_of w sender in
  let '(amount, s1) := accrue_cipher acc (w_now w) (w_fhe w) in
  let! '(c, s2) := Coin.mint (w_staking w) sender amount (w_coin w) s1 in
  Ok (set_account (set_ledger w c s2) sender
        (mkAccount (acc_stake acc) (w_now w) (acc_pending acc))).

(** [stake()] with [msg.value = value], already credited to the contract. *)
Definition stake (sender : address) (value : Z) (w : world) : result world apr_error :=
  if (value =? 0) || negb (value mod MICRO_UNIT =? 0) then Err InvalidAmount
  else
    let micro := value / MICRO_UNIT in
    let! w1 := (if acc_last (account_of w sender) =? 0 then Ok w else accrue sender w) in
    let acc := account_of w1 sender in
    let '(hv, s1) := Fhe.asEuint64 micro (w_fhe w1) in
    let '(hs, s2) := Fhe.add (acc_stake acc) hv s1 in
    Ok (set_account (set_ledger w1 (w_coin w1) s2) sender
          (mkAccount hs (w_now w) (acc_pending acc))).

(** [claimInterest()]. *)
Definition claimInterest (sender : address) (w : world) : result world apr_error :=
  accrue sender w.

(** [requestWithdrawAll()]: accrue and mint first, then capture the stake
    handle as the pending withdrawal and zero the stake. *)
Definition requestWithdrawAll (sender : address) (w : world) : result world apr_error :=
  let! w1 := accrue sender w in
  let acc := account_of w1 sender in
  if negb (acc_pending acc =? 0)%N then Err WithdrawalAlreadyPending
  else if (acc_stake acc =? 0)%N then Err NoStake
  else Ok (set_account w1 sender (mkAccount ZERO_HANDLE (acc_last acc) (acc_stake acc))).

(** [finalizeWithdrawAll(handle, clearMicroEth, proof)]. *)
Definition finalizeWithdrawAll (sender : address) (h : handle) (clear : Z)
    (pf : Verifier.proof) (w : world) : result world apr_error :=
  let acc := account_of w sender in
  if (acc_pending acc =? 0)%N || negb (h =? acc_pending acc)%N then Err NoPendingWithdrawal
  else if negb (Verifier.verify (w_kms w) h clear pf) then Err InvalidProof
  else
    let w1 := set_account w sender (mkAccount (acc_stake acc) (acc_last acc) ZERO_HANDLE) in
    if bool_decide (sender ∈ w_rejects w) then Err TransferFailed
    else match move_eth (w_staking w) sender (clear * MICRO_UNIT) w1 with
         | Some w2 => Ok w2
         | None => Err TransferFailed
         end.

(** The read accessors. *)
Definition getEncryptedStakedMicroEth (w : world) (a : address) : handle :=
  acc_stake (account_of w a).
Definition getPendingWithdrawCipher (w : world) (a : address) : handle :=
  acc_pending (account_of w a).
Definition getLastAccrual (w : world) (a : address) : Z :=
  acc_last (account_of w a).

(** The transactions of the staking contract. *)
Inductive msg :=
| Stake (value : Z)
| ClaimInterest
| RequestWithdrawAll
| FinalizeWithdrawAll (h : handle) (clear : Z) (pf : Verifier.proof).

Inductive tx_error :=
| Revert (e : apr_error)
| InsufficientFunds.

Definition revert_on {A} (r : result A apr_error) : result A tx_error :=
  match r with Ok a => Ok a | Err e => Err (Revert e) end.

Definition receive (sender : address) (m : msg) (w : world) : result world tx_error :=
  match m with
  | Stake value =>
      match move_eth sender (w_staking w) value w with
      | None => Err InsufficientFunds
      | Some w0 => revert_on (stake sender value w0)
      end
  | ClaimInterest => revert_on (claimInterest sender w)
  | RequestWithdrawAll => revert_on (requestWithdrawAll sender w)
  | FinalizeWithdrawAll h clear pf => revert_on (finalizeWithdrawAll sender h clear pf w)
  end.

(** Well-formedness: every handle held is valid in the backend store. *)
Definition account_wf (s : S) (acc : account) : Prop :=
  Fhe.valid s (acc_stake acc) = true /\ Fhe.valid s (acc_pending acc) = true.

Definition world_wf (w : world) : Prop :=
  map_Forall (fun _ acc => account_wf (w_fhe w) acc) (w_accounts w) /\
  Coin.coin_wf (w_fhe w) (w_coin w).

(** The parts of the world a contract call leaves alone: the chain's
    configuration, the coin's gate, and the plaintext of every handle. *)
Definition env_kept (w w' : world) : Prop :=
  w_now w' = w_now w /\ w_staking w' = w_staking w /\ w_kms w' = w_kms w /\
  w_rejects w' = w_rejects w /\
  Coin.coin_owner (w_coin w') = Coin.coin_owner (w_coin w) /\
  Coin.coin_minter (w_coin w') = Coin.coin_minter (w_coin w) /\
  Fhe.fhe_ext (w_fhe w) (w_fhe w').

End Engine.

Arguments world S : clear implicits.

(** The plaintext [accrue_cipher] computes: the product wraps modulo
    [2^64] before the division, as [euint64] arithmetic does. *)
Definition accrual_u64 (stake_micro elapsed : Z) : Z :=
  wrap64 (stake_micro * (RATE_PER_ETH_PER_DAY * elapsed)) / SECONDS_PER_DAY.

Lemma accrual_u64_exact stake_micro elapsed :
  0 <= stake_micro * RATE_PER_ETH_PER_DAY * elapsed < UINT64_MODULUS ->
  accrual_u64 stake_micro elapsed = accrual stake_micro elapsed.
Proof.
  intros Hr. unfold accrual_u64, accrual. rewrite Z.mul_assoc, wrap64_small; lia.
Qed.

(** Once the [euint64] product reaches [2^64] it wraps, and the minted
    amount falls strictly below the exact floor. *)
Lemma accrual_u64_wraps stake_micro elapsed :
  UINT64_MODULUS <= stake_micro * RATE_PER_ETH_PER_DAY * elapsed ->
  accrual_u64 stake_micro elapsed < accrual stake_micro elapsed.
Proof.
  unfold accrual_u64, accrual, wrap64, RATE_PER_ETH_PER_DAY, SECONDS_PER_DAY, UINT64_MODULUS.
  rewrite Z.mul_assoc. intros Hx. Z.div_mod_to_equations. nia.
Qed.

Lemma accrual_u64_range stake_micro elapsed :
  0 <= accrual_u64 stake_micro elapsed < UINT64_MODULUS.
Proof.
  unfold accrual_u64. pose proof (wrap64_range (stake_micro * (RATE_PER_ETH_PER_DAY * elapsed))).
  unfold SECONDS_PER_DAY. split; [apply Z.div_pos; lia|].
  apply (Z.le_lt_trans _ (wrap64 (stake_micro * (RATE_PER_ETH_PER_DAY * elapsed)))); [|lia].
  apply Z.div_le_upper_bound; lia.
Qed.

Section Theorems.
Context {S : Type} `{Fhe.FheLaws S}.
Implicit Types (w : world S) (s : S).

#[local] Instance env_kept_preorder : PreOrder (env_kept (S:=S)).
Proof.
  split; [intros w; do 6 (split; [reflexivity|]); reflexivity|].
  intros w1 w2 w3 (?&?&?&?&?&?&H12) (?&?&?&?&?&?&H23).
  do 6 (split; [congruence|]). by transitivity (w_fhe w2).
Qed.

Lemma account_of_set_eq w a acc : account_of (set_account w a acc) a = acc.
Proof. apply find_or_insert_eq. Qed.

Lemma account_of_set_ne w a b acc :
  a <> b -> account_of (set_account w a acc) b = account_of w b.
Proof. apply find_or_insert_ne. Qed.

Lemma account_of_set_ledger w c s a : account_of (set_ledger w c s) a = account_of w a.
Proof. reflexivity. Qed.

Lemma empty_account_wf s : account_wf s empty_account.
Proof. split; reflexivity. Qed.

Lemma world_wf_account w a : world_wf w -> account_wf (w_fhe w) (account_of w a).
Proof.
  intros [Hacc _]. unfold account_of, find_or.
  destruct (w_accounts w !! a) as [acc|] eqn:Ha; simpl; [exact (Hacc a acc Ha)|].
  apply empty_account_wf.
Qed.

Lemma account_wf_ext s s' acc : Fhe.fhe_ext s s' -> account_wf s acc -> account_wf s' acc.
Proof. intros Hx [Hs Hp]. split; eauto using Fhe.fhe_ext_valid. Qed.

Lemma world_wf_set_account w a acc :
  world_wf w -> account_wf (w_fhe w) acc -> world_wf (set_account w a acc).
Proof. intros [Hacc Hc] Ha. split; [by apply map_Forall_insert_2 | exact Hc]. Qed.

Lemma world_wf_set_ledger w c s :
  world_wf w -> Fhe.fhe_ext (w_fhe w) s -> Coin.coin_wf s c -> world_wf (set_ledger w c s).
Proof.
  intros [Hacc _] Hx Hc. split; [|exact Hc].
  intros a acc Ha. eapply account_wf_ext; [exact Hx | exact (Hacc a acc Ha)].
Qed.

Lemma world_wf_set_eth w e : world_wf w -> world_wf (set_eth w e).
Proof. done. Qed.

Lemma coin_wf_ext s s' c : Fhe.fhe_ext s s' -> Coin.coin_wf s c -> Coin.coin_wf s' c.
Proof. intros Hx Hc a h Hh. exact (Fhe.fhe_ext_valid _ _ _ Hx (Hc a h Hh)). Qed.

Lemma accrue_cipher_spec acc now s :
  account_wf s acc ->
  let '(h, s') := accrue_cipher acc now s in
  Fhe.fhe_ext s s' /\ Fhe.valid s' h = true /\
  Fhe.fhe_decrypt s' h = accrual_u64 (Fhe.fhe_decrypt s (acc_stake acc)) (now - acc_last acc).
Proof.
  intros _. unfold accrue_cipher, Fhe.mul, Fhe.div. fresh_steps.
  split_and!; [by etransitivity | done |].
  rewrite Hd0, Hd. apply wrap64_small, accrual_u64_range.
Qed.

(** Balance of the coin ledger, and plaintext of a handle, in a world. *)
Definition balance_of w (a : address) : Z :=
  Fhe.fhe_decrypt (w_fhe w) (Coin.confidentialBalanceOf (w_coin w) a).

Definition stake_of w (a : address) : Z :=
  Fhe.fhe_decrypt (w_fhe w) (acc_stake (account_of w a)).

Lemma accrue_spec sender w w' :
  world_wf w -> accrue sender w = Ok w' ->
  world_wf w' /\ env_kept w w' /\ w_eth w' = w_eth w /\
  w_accounts w' = <[sender := mkAccount (acc_stake (account_of w sender)) (w_now w)
                                 (acc_pending (account_of w sender))]> (w_accounts w) /\
  balance_of w' sender =
    wrap64 (balance_of w sender +
            accrual_u64 (stake_of w sender) (w_now w - acc_last (account_of w sender))) /\
  (forall a, a <> sender ->
     Coin.confidentialBalanceOf (w_coin w') a = Coin.confidentialBalanceOf (w_coin w) a).
Proof.
  intros Hwf Hacc. unfold accrue in Hacc. set (acc := account_of w sender) in *.
  pose proof (accrue_cipher_spec acc (w_now w) (w_fhe w) (world_wf_account w sender Hwf)) as Hc.
  destruct (accrue_cipher acc (w_now w) (w_fhe w)) as [amt s1]. destruct Hc as (Hx1 & Hv1 & Hd1).
  destruct (Coin.mint _ _ _ _ _) as [[c s2]|e] eqn:Em; simpl in Hacc; [|discriminate].
  injection Hacc as <-. destruct Hwf as [Hacs Hcwf].
  pose proof (Coin.mint_spec _ _ _ _ _ _ _ (coin_wf_ext _ _ _ Hx1 Hcwf) Hv1 Em)
    as (Hcwf2 & Ho & Hm & Hbal & Hoth & Hx2).
  assert (Hx : Fhe.fhe_ext (w_fhe w) s2) by (etransitivity; [exact Hx1 | exact Hx2]).
  split; [|split; [|split; [done|split; [done|split]]]].
  - apply world_wf_set_account.
    + by apply world_wf_set_ledger.
    + apply (account_wf_ext (w_fhe w)); [done|].
      exact (world_wf_account w sender (conj Hacs Hcwf)).
  - unfold env_kept; simpl. do 4 (split; [done|]). done.
  - unfold balance_of at 1; simpl. rewrite Hbal, Hd1. f_equal. f_equal.
    apply Fhe.fhe_ext_decrypt; [done | by apply Coin.balance_valid].
  - exact Hoth.
Qed.

(** [accrue] fails exactly when the staking contract is not the coin's
    minter, and then with [Unauthorized]. *)
Lemma accrue_result sender w :
  match accrue sender w with
  | Ok _ => Coin.coin_minter (w_coin w) = Some (w_staking w)
  | Err e => e = Unauthorized /\ Coin.coin_minter (w_coin w) <> Some (w_staking w)
  end.
Proof.
  unfold accrue. destruct (accrue_cipher _ _ _) as [amt s1].
  destruct (decide (Coin.coin_minter (w_coin w) = Some (w_staking w))) as [Hm|Hm].
  - by rewrite Coin.mint_eq by done.
  - by rewrite Coin.mint_unauthorized by done.
Qed.

Lemma accrue_ok sender w :
  Coin.coin_minter (w_coin w) = Some (w_staking w) -> exists w', accrue sender w = Ok w'.
Proof.
  intros Hm. pose proof (accrue_result sender w) as Hr.
  destruct (accrue sender w) as [w'|e]; [eauto | by destruct Hr].
Qed.

Lemma accounts_insert w w' a acc :
  w_accounts w' = <[a := acc]> (w_accounts w) ->
  account_of w' a = acc /\ forall b, b <> a -> account_of w' b = account_of w b.
Proof.
  intros E. unfold account_of. rewrite E.
  split; [apply find_or_insert_eq | intros; by apply find_or_insert_ne].
Qed.

(** The accrual [stake] runs before adding the new principal leaves the
    stake and the pending withdrawal where they were. *)
Lemma stake_prefix sender w w1 :
  world_wf w ->
  (if acc_last (account_of w sender) =? 0 then Ok w else accrue sender w) = Ok w1 ->
  world_wf w1 /\ env_kept w w1 /\ w_eth w1 = w_eth w /\
  acc_stake (account_of w1 sender) = acc_stake (account_of w sender) /\
  acc_pending (account_of w1 sender) = acc_pending (account_of w sender) /\
  (forall a, a <> sender -> account_of w1 a = account_of w a).
Proof.
  intros Hwf. destruct (acc_last (account_of w sender) =? 0).
  - intros [= <-]. refine (conj Hwf (conj _ (conj eq_refl (conj eq_refl (conj eq_refl _))))).
    + reflexivity.
    + done.
  - intros Ha. destruct (accrue_spec sender w w1 Hwf Ha) as (Hwf1 & Hk & He & Hacc & _).
    destruct (accounts_insert _ _ _ _ Hacc) as [-> Ho].
    exact (conj Hwf1 (conj Hk (conj He (conj eq_refl (conj eq_refl Ho))))).
Qed.

(** Plaintexts of valid handles survive every [env_kept] step. *)
Lemma env_kept_decrypt w w' h :
  env_kept w w' -> Fhe.valid (w_fhe w) h = true ->
  Fhe.fhe_decrypt (w_fhe w') h = Fhe.fhe_decrypt (w_fhe w) h.
Proof. intros (_&_&_&_&_&_&Hx) Hv. by apply Fhe.fhe_ext_decrypt. Qed.

Lemma env_kept_valid w w' h :
  env_kept w w' -> Fhe.valid (w_fhe w) h = true -> Fhe.valid (w_fhe w') h = true.
Proof. intros (_&_&_&_&_&_&Hx) Hv. by eapply Fhe.fhe_ext_valid. Qed.

Lemma env_kept_set_account w w' a acc : env_kept w w' -> env_kept w (set_account w' a acc).
Proof. done. Qed.

Lemma env_kept_set_fhe w w' s :
  env_kept w w' -> Fhe.fhe_ext (w_fhe w') s -> env_kept w (set_ledger w' (w_coin w') s).
Proof.
  intros (?&?&?&?&?&?&Hx) Hx'. unfold env_kept; simpl.
  do 6 (split; [done|]). by etransitivity.
Qed.

Lemma stake_spec sender value w w' :
  world_wf w -> stake sender value w = Ok w' ->
  world_wf w' /\ env_kept w w' /\ w_eth w' = w_eth w /\
  stake_of w' sender = wrap64 (stake_of w sender + value / MICRO_UNIT) /\
  getLastAccrual w' sender = w_now w /\
  getPendingWithdrawCipher w' sender = getPendingWithdrawCipher w sender /\
  (forall a, a <> sender -> account_of w' a = account_of w a).
Proof.
  intros Hwf Hst. unfold stake in Hst.
  destruct (_ || _); [discriminate|].
  apply rbind_ok_inv in Hst as (w1 & Hw1 & Hk).
  destruct (stake_prefix sender w w1 Hwf Hw1) as (Hwf1 & Hk1 & He1 & Hs1 & Hp1 & Ho1).
  destruct (world_wf_account w1 sender Hwf1) as [Hvs Hvp].
  unfold Fhe.asEuint64, Fhe.add in Hk. fresh_steps. injection Hk as <-.
  assert (Hxs : Fhe.fhe_ext (w_fhe w1) s0) by (etransitivity; eauto).
  split; [|split; [|split; [done|split; [|split; [|split]]]]].
  - apply world_wf_set_account.
    + apply world_wf_set_ledger; [done..|]. apply (coin_wf_ext (w_fhe w1)); [done|apply Hwf1].
    + split; [done|]. by apply (Fhe.fhe_ext_valid (w_fhe w1)).
  - apply env_kept_set_account, env_kept_set_fhe; [done..].
  - unfold stake_of. rewrite account_of_set_eq. simpl.
    rewrite Hd0, Hd, wrap64_add_r, (Fhe.fhe_ext_decrypt _ _ _ Hx Hvs), Hs1.
    rewrite Hs1 in Hvs. rewrite (env_kept_decrypt w w1); [done..|].
    exact (proj1 (world_wf_account w sender Hwf)).
  - unfold getLastAccrual. by rewrite account_of_set_eq.
  - unfold getPendingWithdrawCipher. by rewrite account_of_set_eq.
  - intros a Ha. rewrite account_of_set_ne by congruence. exact (Ho1 a Ha).
Qed.

(** A successful [accrue], read through the accessors. *)
Lemma accrue_accessors sender w w' :
  world_wf w -> accrue sender w = Ok w' ->
  world_wf w' /\ env_kept w w' /\ w_eth w' = w_eth w /\
  balance_of w' sender =
    wrap64 (balance_of w sender +
            accrual_u64 (stake_of w sender) (w_now w - getLastAccrual w sender)) /\
  getLastAccrual w' sender = w_now w /\
  getEncryptedStakedMicroEth w' sender = getEncryptedStakedMicroEth w sender /\
  stake_of w' sender = stake_of w sender /\
  getPendingWithdrawCipher w' sender = getPendingWithdrawCipher w sender /\
  (forall a, a <> sender -> account_of w' a = account_of w a).
Proof.
  intros Hwf Ha. destruct (accrue_spec sender w w' Hwf Ha) as (Hwf' & Hk & He & Hacc & Hb & _).
  destruct (accounts_insert _ _ _ _ Hacc) as [Hs Ho].
  unfold getLastAccrual, getEncryptedStakedMicroEth, getPendingWithdrawCipher, stake_of.
  rewrite Hs. simpl. do 5 (split; [done|]). split; [done|]. split; [|done].
  apply (env_kept_decrypt w w'); [done|]. exact (proj1 (world_wf_account w sender Hwf)).
Qed.

Lemma claimInterest_spec sender w :
  world_wf w -> Coin.coin_minter (w_coin w) = Some (w_staking w) ->
  exists w', claimInterest sender w = Ok w' /\
    balance_of w' sender =
      wrap64 (balance_of w sender +
              accrual_u64 (stake_of w sender) (w_now w - getLastAccrual w sender)) /\
    getLastAccrual w' sender = w_now w /\
    stake_of w' sender = stake_of w sender /\
    getPendingWithdrawCipher w' sender = getPendingWithdrawCipher w sender.
Proof.
  intros Hwf Hm. destruct (accrue_ok sender w Hm) as [w' Ha]. exists w'.
  destruct (accrue_accessors sender w w' Hwf Ha) as (_&_&_&Hb&Hl&_&Hs&Hp&_). auto.
Qed.

Lemma accrual_one_day stake_micro :
  accrual stake_micro SECONDS_PER_DAY = stake_micro * RATE_PER_ETH_PER_DAY.
Proof. unfold accrual. apply Z.div_mul. discriminate. Qed.

Lemma accrual_u64_zero stake_micro : accrual_u64 stake_micro 0 = 0.
Proof. unfold accrual_u64. rewrite !Z.mul_0_r. reflexivity. Qed.

Lemma balance_range w a : 0 <= balance_of w a < UINT64_MODULUS.
Proof. apply Fhe.fhe_decrypt_range. Qed.

Lemma stake_guard_false value :
  0 < value -> value mod MICRO_UNIT = 0 ->
  (value =? 0) || negb (value mod MICRO_UNIT =? 0) = false.
Proof. intros Hv Hm. rewrite Hm. apply orb_false_iff. split; [apply Z.eqb_neq; lia | done]. Qed.

(** The homomorphic tail of [stake] (encrypt the amount, add it) never fails. *)
Lemma stake_tail_ok sender value now w1 :
  exists w',
    (let acc := account_of w1 sender in
     let '(hv, s1) := Fhe.asEuint64 (value / MICRO_UNIT) (w_fhe w1) in
     let '(hs, s2) := Fhe.add (acc_stake acc) hv s1 in
     Ok (set_account (set_ledger w1 (w_coin w1) s2) sender
           (mkAccount hs now (acc_pending acc)))) = Ok (E := apr_error) w'.
Proof. simpl. destruct (Fhe.asEuint64 _ _). destruct (Fhe.add _ _ _). eauto. Qed.

(** staking [k] microETH (a positive multiple of [10^12] wei) makes
    the decrypted stake the prior stake plus [k] (modulo [2^64], the
    [euint64] width), sets the last accrual time to now and leaves the
    pending withdrawal alone; the call succeeds whenever it is the
    account's first stake or the staking contract is the coin's minter. *)
Theorem stake_correct sender value w :
  world_wf w -> 0 < value -> value mod MICRO_UNIT = 0 ->
  (getLastAccrual w sender = 0 \/ Coin.coin_minter (w_coin w) = Some (w_staking w)) ->
  exists w', stake sender value w = Ok w' /\
    stake_of w' sender = wrap64 (stake_of w sender + value / MICRO_UNIT) /\
    getLastAccrual w' sender = w_now w /\
    getPendingWithdrawCipher w' sender = getPendingWithdrawCipher w sender.
Proof.
  intros Hwf Hv Hm Hpre.
  assert (Hw1 : exists w1,
    (if acc_last (account_of w sender) =? 0 then Ok w else accrue sender w) = Ok w1).
  { unfold getLastAccrual in Hpre. destruct (Z.eqb_spec (acc_last (account_of w sender)) 0).
    - eauto.
    - destruct Hpre as [H0 | Hmin]; [contradiction | by apply accrue_ok]. }
  destruct Hw1 as [w1 Hw1].
  destruct (stake_tail_ok sender value (w_now w) w1) as [w' Ht].
  assert (Hst : stake sender value w = Ok w').
  { unfold stake. by rewrite stake_guard_false, Hw1 by done. }
  exists w'. split; [done|].
  destruct (stake_spec sender value w w' Hwf Hst) as (_&_&_&Hs&Hl&Hp&_). auto.
Qed.

(** [stake] fails with [InvalidAmount] exactly when the value is zero
    or not a whole number of microETH; every other failure of [stake] is
    the coin's [Unauthorized]. *)
Theorem stake_invalid_amount sender value w :
  stake sender value w = Err InvalidAmount <-> value = 0 \/ value mod MICRO_UNIT <> 0.
Proof.
  unfold stake. split.
  - destruct ((value =? 0) || negb (value mod MICRO_UNIT =? 0)) eqn:Hg.
    + intros _. apply orb_true_iff in Hg as [H0 | Hm]; [left; lia | right].
      apply negb_true_iff, Z.eqb_neq in Hm. exact Hm.
    + destruct (acc_last (account_of w sender) =? 0).
      * simpl. destruct (Fhe.asEuint64 _ _). by destruct (Fhe.add _ _ _).
      * pose proof (accrue_result sender w) as Hr.
        destruct (accrue sender w) as [w1|e]; simpl.
        -- destruct (Fhe.asEuint64 _ _). by destruct (Fhe.add _ _ _).
        -- destruct Hr as [-> _]. discriminate.
  - intros Hv. replace ((value =? 0) || negb (value mod MICRO_UNIT =? 0)) with true; [done|].
    symmetry. apply orb_true_iff. destruct Hv as [-> | Hm]; [by left|right].
    by apply negb_true_iff, Z.eqb_neq.
Qed.

(** newly added principal earns nothing for the time before it was
    added: a later stake first mints the interest of the prior stake over
    the elapsed time, and a first stake mints nothing. *)
Theorem stake_interest_on_prior_stake sender value w w' :
  world_wf w -> stake sender value w = Ok w' ->
  balance_of w' sender =
    if getLastAccrual w sender =? 0 then balance_of w sender
    else wrap64 (balance_of w sender +
                 accrual_u64 (stake_of w sender) (w_now w - getLastAccrual w sender)).
Proof.
  intros Hwf Hst. pose proof Hst as Hst'. unfold stake in Hst.
  destruct (_ || _); [discriminate|]. apply rbind_ok_inv in Hst as (w1 & Hw1 & Hk).
  destruct (stake_prefix sender w w1 Hwf Hw1) as (Hwf1 & _).
  assert (Hb : balance_of w' sender = balance_of w1 sender).
  { unfold Fhe.asEuint64, Fhe.add in Hk. fresh_steps. injection Hk as <-.
    unfold balance_of; simpl. transitivity (Fhe.fhe_decrypt s (Coin.confidentialBalanceOf (w_coin w1) sender)).
    - apply Fhe.fhe_ext_decrypt; [done|]. apply (Fhe.fhe_ext_valid (w_fhe w1)); [done|].
      apply Coin.balance_valid, Hwf1.
    - apply Fhe.fhe_ext_decrypt; [done|]. apply Coin.balance_valid, Hwf1. }
  rewrite Hb. unfold getLastAccrual. destruct (acc_last (account_of w sender) =? 0).
  - by injection Hw1 as <-.
  - by destruct (accrue_accessors sender w w1 Hwf Hw1) as (_&_&_&-> &_).
Qed.

(** [claimInterest] mints exactly the spec's accrual
    [floor(stake * 10 * elapsed / 86400)] of the current stake since the
    last accrual, when the product fits in [uint64], and resets the last
    accrual time to now; it never fails once the staking contract is the
    coin's minter. *)
Theorem claim_mints_accrual sender w :
  world_wf w -> Coin.coin_minter (w_coin w) = Some (w_staking w) ->
  getLastAccrual w sender <= w_now w ->
  stake_of w sender * RATE_PER_ETH_PER_DAY * (w_now w - getLastAccrual w sender)
    < UINT64_MODULUS ->
  exists w', claimInterest sender w = Ok w' /\
    balance_of w' sender =
      wrap64 (balance_of w sender +
              accrual (stake_of w sender) (w_now w - getLastAccrual w sender)) /\
    getLastAccrual w' sender = w_now w /\ stake_of w' sender = stake_of w sender.
Proof.
  intros Hwf Hm Hle Hov.
  destruct (claimInterest_spec sender w Hwf Hm) as (w' & Hc & Hb & Hl & Hs & _).
  exists w'. rewrite <- accrual_u64_exact; [auto|].
  pose proof (Fhe.fhe_decrypt_range (w_fhe w) (acc_stake (account_of w sender))).
  unfold stake_of in *. split; [|done]. apply Z.mul_nonneg_nonneg; [|lia].
  apply Z.mul_nonneg_nonneg; [lia | discriminate].
Qed.

(** after exactly one day, [claimInterest] mints [S * 10] reward units
    for a stake of [S] microETH (10 cCoin per staked ETH per day). *)
Theorem claim_one_day sender w :
  world_wf w -> Coin.coin_minter (w_coin w) = Some (w_staking w) ->
  w_now w = getLastAccrual w sender + SECONDS_PER_DAY ->
  stake_of w sender * RATE_PER_ETH_PER_DAY * SECONDS_PER_DAY < UINT64_MODULUS ->
  exists w', claimInterest sender w = Ok w' /\
    balance_of w' sender = wrap64 (balance_of w sender + stake_of w sender * RATE_PER_ETH_PER_DAY) /\
    getLastAccrual w' sender = w_now w.
Proof.
  intros Hwf Hm Hnow Hov.
  destruct (claim_mints_accrual sender w Hwf Hm) as (w' & Hc & Hb & Hl & _);
    [unfold SECONDS_PER_DAY in *; lia | by replace (w_now w - getLastAccrual w sender)
       with SECONDS_PER_DAY by lia|].
  exists w'. replace (w_now w - getLastAccrual w sender) with SECONDS_PER_DAY in Hb by lia.
  by rewrite accrual_one_day in Hb.
Qed.

(** two [claimInterest] calls with no time elapsed between them (nor
    since the last accrual) both succeed and both mint zero. *)
Theorem claim_zero_elapsed sender w :
  world_wf w -> Coin.coin_minter (w_coin w) = Some (w_staking w) ->
  getLastAccrual w sender = w_now w ->
  exists w1 w2, claimInterest sender w = Ok w1 /\ claimInterest sender w1 = Ok w2 /\
    balance_of w1 sender = balance_of w sender /\ balance_of w2 sender = balance_of w sender.
Proof.
  intros Hwf Hm Hl.
  destruct (accrue_ok sender w Hm) as [w1 Ha1].
  destruct (accrue_accessors sender w w1 Hwf Ha1) as (Hwf1 & Hk1 & _ & Hb1 & Hl1 & _).
  destruct Hk1 as (Hn1 & Hst1 & _ & _ & _ & Hm1 & _).
  destruct (accrue_ok sender w1) as [w2 Ha2]; [congruence|].
  destruct (accrue_accessors sender w1 w2 Hwf1 Ha2) as (_ & _ & _ & Hb2 & _).
  exists w1, w2. rewrite Hl, Z.sub_diag, accrual_u64_zero, Z.add_0_r in Hb1.
  rewrite Hl1, Hn1, Z.sub_diag, accrual_u64_zero, Z.add_0_r in Hb2.
  unfold balance_of in *. rewrite Fhe.decrypt_wrap in Hb1, Hb2. unfold claimInterest. split_and!; congruence.
Qed.

(** ** Native transfers *)

Lemma move_eth_some_iff from to v w :
  is_Some (move_eth from to v w) <-> 0 <= v <= eth_of w from.
Proof.
  unfold move_eth. destruct ((v <? 0) || (eth_of w from <? v)) eqn:Hg.
  - split; [by intros []|]. apply orb_true_iff in Hg as [?%Z.ltb_lt | ?%Z.ltb_lt]; lia.
  - apply orb_false_iff in Hg as [?%Z.ltb_ge ?%Z.ltb_ge]. split; [lia | eauto].
Qed.

Lemma move_eth_spec from to v w w' :
  move_eth from to v w = Some w' ->
  (exists e, w' = set_eth w e) /\
  forall a, eth_of w' a = eth_of w a - (if decide (a = from) then v else 0)
                          + (if decide (a = to) then v else 0).
Proof.
  unfold move_eth. destruct (_ || _); [discriminate|]. intros [= <-].
  split; [eauto|]. intros a. unfold eth_of, find_or; simpl.
  rewrite !lookup_insert. repeat case_decide; subst; simpl; lia.
Qed.

Lemma account_of_set_eth w e a : account_of (set_eth w e) a = account_of w a.
Proof. reflexivity. Qed.

(** ** The two-phase withdrawal *)

Lemma requestWithdrawAll_spec sender w w' :
  world_wf w -> requestWithdrawAll sender w = Ok w' ->
  getPendingWithdrawCipher w sender = ZERO_HANDLE /\
  getEncryptedStakedMicroEth w sender <> ZERO_HANDLE /\
  getEncryptedStakedMicroEth w' sender = ZERO_HANDLE /\
  getPendingWithdrawCipher w' sender = getEncryptedStakedMicroEth w sender /\
  Fhe.fhe_decrypt (w_fhe w') (getPendingWithdrawCipher w' sender) = stake_of w sender /\
  getLastAccrual w' sender = w_now w /\
  balance_of w' sender =
    wrap64 (balance_of w sender +
            accrual_u64 (stake_of w sender) (w_now w - getLastAccrual w sender)) /\
  world_wf w' /\ env_kept w w' /\ w_eth w' = w_eth w /\
  (forall a, a <> sender -> account_of w' a = account_of w a).
Proof.
  intros Hwf Hr. unfold requestWithdrawAll in Hr. apply rbind_ok_inv in Hr as (w1 & Ha & Hr).
  destruct (accrue_accessors sender w w1 Hwf Ha)
    as (Hwf1 & Hk1 & He1 & Hb1 & Hl1 & Hh1 & Hs1 & Hp1 & Ho1).
  unfold getPendingWithdrawCipher, getEncryptedStakedMicroEth, getLastAccrual in *.
  destruct (acc_pending (account_of w1 sender) =? 0)%N eqn:Hp; simpl in Hr; [|discriminate].
  destruct (acc_stake (account_of w1 sender) =? 0)%N eqn:Hs; simpl in Hr; [discriminate|].
  injection Hr as <-. apply N.eqb_eq in Hp. apply N.eqb_neq in Hs.
  rewrite !account_of_set_eq. simpl.
  destruct (world_wf_account w1 sender Hwf1) as [Hvs _].
  unfold ZERO_HANDLE in *.
  split; [congruence|]. split; [congruence|]. split; [done|]. split; [congruence|].
  split; [exact Hs1|].
  split; [congruence|]. split; [exact Hb1|].
  split; [|split; [done|split; [done|]]].
  - apply world_wf_set_account; [done|]. split; [done | exact Hvs].
  - intros a Ha'. rewrite account_of_set_ne by congruence. auto.
Qed.

(** [requestWithdrawAll] fails with [WithdrawalAlreadyPending] while a
    request is pending, and with [NoStake] when there is neither a
    pending request nor a stake. *)
Theorem requestWithdrawAll_errors sender w :
  world_wf w -> Coin.coin_minter (w_coin w) = Some (w_staking w) ->
  (getPendingWithdrawCipher w sender <> ZERO_HANDLE ->
   requestWithdrawAll sender w = Err WithdrawalAlreadyPending) /\
  (getPendingWithdrawCipher w sender = ZERO_HANDLE ->
   getEncryptedStakedMicroEth w sender = ZERO_HANDLE ->
   requestWithdrawAll sender w = Err NoStake).
Proof.
  intros Hwf Hm. destruct (accrue_ok sender w Hm) as [w1 Ha].
  destruct (accrue_accessors sender w w1 Hwf Ha) as (_&_&_&_&_&Hh1&_&Hp1&_).
  unfold requestWithdrawAll, getPendingWithdrawCipher, getEncryptedStakedMicroEth in *.
  rewrite Ha. simpl. rewrite Hp1, Hh1. unfold ZERO_HANDLE. split.
  - intros Hp. apply N.eqb_neq in Hp. by rewrite Hp.
  - intros -> ->. reflexivity.
Qed.

Lemma requestWithdrawAll_ok sender w :
  world_wf w -> Coin.coin_minter (w_coin w) = Some (w_staking w) ->
  getPendingWithdrawCipher w sender = ZERO_HANDLE ->
  getEncryptedStakedMicroEth w sender <> ZERO_HANDLE ->
  exists w', requestWithdrawAll sender w = Ok w'.
Proof.
  intros Hwf Hm Hp Hs. destruct (accrue_ok sender w Hm) as [w1 Ha].
  destruct (accrue_accessors sender w w1 Hwf Ha) as (_&_&_&_&_&Hh1&_&Hp1&_).
  unfold requestWithdrawAll, getPendingWithdrawCipher, getEncryptedStakedMicroEth, ZERO_HANDLE in *.
  rewrite Ha. cbn [rbind]. rewrite Hp1, Hh1, Hp. apply N.eqb_neq in Hs. rewrite Hs. eauto.
Qed.

(** once [requestWithdrawAll] succeeds, a second request before the
    withdrawal is finalized fails with [WithdrawalAlreadyPending]. *)
Theorem request_twice_already_pending sender w w' :
  world_wf w -> requestWithdrawAll sender w = Ok w' ->
  requestWithdrawAll sender w' = Err WithdrawalAlreadyPending.
Proof.
  intros Hwf Hr.
  destruct (requestWithdrawAll_spec sender w w' Hwf Hr)
    as (_ & Hs & _ & Hp' & _ & _ & _ & Hwf' & Hk & _).
  assert (Hm : Coin.coin_minter (w_coin w) = Some (w_staking w)).
  { unfold requestWithdrawAll in Hr. pose proof (accrue_result sender w) as Hres.
    destruct (accrue sender w); [exact Hres | discriminate]. }
  destruct Hk as (_ & Hst & _ & _ & _ & Hmin & _).
  apply (requestWithdrawAll_errors sender w' Hwf'); [congruence|]. congruence.
Qed.

Lemma finalizeWithdrawAll_spec sender h clear pf w w' :
  finalizeWithdrawAll sender h clear pf w = Ok w' ->
  getPendingWithdrawCipher w sender = h /\ h <> ZERO_HANDLE /\
  Verifier.verify (w_kms w) h clear pf = true /\ (sender ∉ w_rejects w) /\
  getPendingWithdrawCipher w' sender = ZERO_HANDLE /\
  getEncryptedStakedMicroEth w' sender = getEncryptedStakedMicroEth w sender /\
  getLastAccrual w' sender = getLastAccrual w sender /\
  (forall a, eth_of w' a =
     eth_of w a - (if decide (a = w_staking w) then clear * MICRO_UNIT else 0)
                + (if decide (a = sender) then clear * MICRO_UNIT else 0)) /\
  w_fhe w' = w_fhe w /\ w_coin w' = w_coin w /\ w_now w' = w_now w /\
  w_staking w' = w_staking w /\ w_kms w' = w_kms w /\ w_rejects w' = w_rejects w /\
  (forall a, a <> sender -> account_of w' a = account_of w a).
Proof.
  unfold finalizeWithdrawAll, getPendingWithdrawCipher, getEncryptedStakedMicroEth,
    getLastAccrual.
  destruct ((acc_pending (account_of w sender) =? 0)%N || negb (h =? acc_pending (account_of w sender))%N)
    eqn:Hg; [discriminate|].
  apply orb_false_iff in Hg as [Hz%N.eqb_neq Hh%negb_false_iff%N.eqb_eq].
  destruct (Verifier.verify (w_kms w) h clear pf) eqn:Hv; simpl; [|discriminate].
  case_bool_decide as Hrej; [discriminate|].
  destruct (move_eth _ _ _ _) as [w2|] eqn:Hm; [|discriminate]. intros [= <-].
  destruct (move_eth_spec _ _ _ _ _ Hm) as [[e ->] He].
  simpl. rewrite !account_of_set_eth, account_of_set_eq. simpl.
  split; [done|]. split; [unfold ZERO_HANDLE; congruence|]. do 5 (split; [done|]).
  split; [exact He|]. do 6 (split; [done|]).
  intros a Ha. rewrite account_of_set_eth. by apply account_of_set_ne.
Qed.

(** [finalizeWithdrawAll] on the pending handle fails with
    [InvalidProof], and so pays nothing, when the proof is signed by the
    trusted coordinator but covers another handle, or the claimed value
    is not the decryption of the pending handle. *)
Theorem finalize_invalid_proof sender clear pf w :
  getPendingWithdrawCipher w sender <> ZERO_HANDLE ->
  Verifier.proof_sound (w_kms w) (w_fhe w) pf ->
  Verifier.pf_handles pf <> [getPendingWithdrawCipher w sender] \/
  clear <> Fhe.fhe_decrypt (w_fhe w) (getPendingWithdrawCipher w sender) ->
  finalizeWithdrawAll sender (getPendingWithdrawCipher w sender) clear pf w = Err InvalidProof.
Proof.
  intros Hz Hsound Hbad. unfold finalizeWithdrawAll.
  unfold getPendingWithdrawCipher in *. unfold ZERO_HANDLE in Hz.
  replace ((acc_pending (account_of w sender) =? 0)%N || _) with false
    by (symmetry; apply orb_false_iff; split; [by apply N.eqb_neq | by rewrite N.eqb_refl]).
  destruct (Verifier.verify _ _ _ _) eqn:Hv; [|done].
  exfalso. pose proof (Verifier.verify_sound _ _ _ _ _ Hsound Hv) as Hc.
  apply Verifier.verify_true in Hv as (_ & Hh & _). destruct Hbad; contradiction.
Qed.

(** [finalizeWithdrawAll] fails with [NoPendingWithdrawal] when the
    account has no pending request or the handle is not the one on file. *)
Theorem finalize_no_pending sender h clear pf w :
  getPendingWithdrawCipher w sender = ZERO_HANDLE \/ h <> getPendingWithdrawCipher w sender ->
  finalizeWithdrawAll sender h clear pf w = Err NoPendingWithdrawal.
Proof.
  unfold finalizeWithdrawAll, getPendingWithdrawCipher, ZERO_HANDLE. intros Hc.
  replace (_ || _) with true; [done|]. symmetry. apply orb_true_iff.
  destruct Hc as [-> | Hne]; [by left | right]. by apply negb_true_iff, N.eqb_neq.
Qed.

(** the two-phase withdrawal completes: after [requestWithdrawAll], the
    oracle's public decryption of the pending handle and its proof make
    [finalizeWithdrawAll] succeed; it pays the caller exactly the
    decrypted stake in wei, deletes the pending request and leaves the
    stake at the zero handle (the staking contract holding the funds and
    the caller accepting native currency). *)
Theorem withdraw_roundtrip sender w w1 :
  world_wf w -> requestWithdrawAll sender w = Ok w1 ->
  sender <> w_staking w -> (sender ∉ w_rejects w) ->
  stake_of w sender * MICRO_UNIT <= eth_of w (w_staking w) ->
  let h := getPendingWithdrawCipher w1 sender in
  let '(clears, pf) := Verifier.publicDecrypt (w_kms w1) (w_fhe w1) [h] in
  exists w2,
    Verifier.clear_value clears h = Some (Fhe.fhe_decrypt (w_fhe w1) h) /\
    finalizeWithdrawAll sender h (Fhe.fhe_decrypt (w_fhe w1) h) pf w1 = Ok w2 /\
    eth_of w2 sender = eth_of w sender + stake_of w sender * MICRO_UNIT /\
    eth_of w2 (w_staking w) = eth_of w (w_staking w) - stake_of w sender * MICRO_UNIT /\
    getPendingWithdrawCipher w2 sender = ZERO_HANDLE /\
    getEncryptedStakedMicroEth w2 sender = ZERO_HANDLE.
Proof.
  intros Hwf Hr Hns Hrej Hsolv.
  destruct (requestWithdrawAll_spec sender w w1 Hwf Hr)
    as (_ & Hs & Hs1 & Hp1 & Hd1 & _ & _ & _ & Hk & He & _).
  destruct Hk as (_ & Hst & Hkms & Hrj & _).
  simpl. rewrite N.eqb_refl. set (h := getPendingWithdrawCipher w1 sender).
  set (v := Fhe.fhe_decrypt (w_fhe w1) h).
  assert (Hv : v = stake_of w sender) by exact Hd1.
  assert (Hpos : 0 <= v) by apply Fhe.fhe_decrypt_range.
  assert (Heth : forall a, eth_of w1 a = eth_of w a) by (intros a; unfold eth_of; by rewrite He).
  assert (Hm : is_Some (move_eth (w_staking w1) sender (v * MICRO_UNIT)
                 (set_account w1 sender (mkAccount (acc_stake (account_of w1 sender))
                    (acc_last (account_of w1 sender)) ZERO_HANDLE)))).
  { apply move_eth_some_iff. unfold eth_of at 1; simpl. fold (eth_of w1 (w_staking w1)).
    rewrite Heth, Hst, Hv. simpl_u64. lia. }
  destruct Hm as [w2 Hm].
  assert (Hf : finalizeWithdrawAll sender h v (Verifier.mkProof (w_kms w1) [h] [v]) w1 = Ok w2).
  { unfold finalizeWithdrawAll. fold (getPendingWithdrawCipher w1 sender). fold h.
    replace ((h =? 0)%N || negb (h =? h)%N) with false
      by (rewrite N.eqb_refl; symmetry; apply orb_false_iff; split; [|done];
          apply N.eqb_neq; subst h; rewrite Hp1; exact Hs).
    replace (Verifier.verify _ _ _ _) with true by (symmetry; apply Verifier.verify_true; auto).
    simpl. rewrite bool_decide_eq_false_2 by congruence. by rewrite Hm. }
  exists w2. split; [reflexivity|]. split; [exact Hf|].
  destruct (finalizeWithdrawAll_spec _ _ _ _ _ _ Hf) as (_&_&_&_&Hp2&Hs2&_&He2&_).
  rewrite !He2, !Heth, Hst, <- Hv.
  repeat case_decide; try congruence. split; [lia|]. split; [lia|]. split; [done|].
  rewrite Hs2. exact Hs1.
Qed.

(** ** Independence of accounts and the accrual arithmetic *)

Lemma receive_inv sender m w w' :
  receive sender m w = Ok w' ->
  match m with
  | Stake value => exists w0, move_eth sender (w_staking w) value w = Some w0 /\
                              stake sender value w0 = Ok w'
  | ClaimInterest => claimInterest sender w = Ok w'
  | RequestWithdrawAll => requestWithdrawAll sender w = Ok w'
  | FinalizeWithdrawAll h clear pf => finalizeWithdrawAll sender h clear pf w = Ok w'
  end.
Proof.
  unfold receive, revert_on. destruct m.
  - destruct (move_eth _ _ _ _) as [w0|]; [|discriminate].
    destruct (stake _ _ _) eqn:E; [intros [= <-]; eauto | discriminate].
  - destruct (claimInterest _ _); [by intros [= <-] | discriminate].
  - destruct (requestWithdrawAll _ _); [by intros [= <-] | discriminate].
  - destruct (finalizeWithdrawAll _ _ _ _ _); [by intros [= <-] | discriminate].
Qed.

(** every transaction touches the staking record of its caller only:
    the stake, accrual time and pending withdrawal of any other account
    are left as they were (operations never span accounts, spec §5). *)
Theorem receive_isolation sender m w w' :
  world_wf w -> receive sender m w = Ok w' ->
  forall a, a <> sender -> account_of w' a = account_of w a.
Proof.
  intros Hwf Hr a Ha. apply receive_inv in Hr. destruct m as [value| | |h clear pf].
  - destruct Hr as (w0 & Hm & Hs). destruct (move_eth_spec _ _ _ _ _ Hm) as [[e ->] _].
    destruct (stake_spec sender value _ w' (world_wf_set_eth w e Hwf) Hs) as (_&_&_&_&_&_&Ho).
    rewrite (Ho a Ha). apply account_of_set_eth.
  - by destruct (accrue_accessors sender w w' Hwf Hr) as (_&_&_&_&_&_&_&_&Ho); apply Ho.
  - by destruct (requestWithdrawAll_spec sender w w' Hwf Hr) as (_&_&_&_&_&_&_&_&_&_&Ho); apply Ho.
  - by destruct (finalizeWithdrawAll_spec _ _ _ _ _ _ Hr) as (_&_&_&_&_&_&_&_&_&_&_&_&_&_&Ho); apply Ho.
Qed.

(** a transaction moves native currency only between its caller and the
    staking contract, and keeps the time, the contract's address and the
    accounts that refuse payments. *)
Lemma receive_eth_isolation sender m w w' :
  world_wf w -> receive sender m w = Ok w' ->
  w_staking w' = w_staking w /\ w_now w' = w_now w /\ w_rejects w' = w_rejects w /\
  forall a, a <> sender -> a <> w_staking w -> eth_of w' a = eth_of w a.
Proof.
  intros Hwf Hr. apply receive_inv in Hr. destruct m as [value| | |h clear pf].
  - destruct Hr as (w0 & Hm & Hs). destruct (move_eth_spec _ _ _ _ _ Hm) as [[e ->] He].
    destruct (stake_spec sender value _ w' (world_wf_set_eth w e Hwf) Hs) as (_ & (Hn & Hst & _ & Hrj & _) & Hw & _).
    split_and!; [done..|]. intros a Ha Has. unfold eth_of in *. rewrite Hw, He.
    repeat case_decide; simplify_eq; lia.
  - destruct (accrue_accessors sender w w' Hwf Hr) as (_ & (Hn & Hst & _ & Hrj & _) & Hw & _).
    split_and!; [done..|]. intros a _ _. unfold eth_of. by rewrite Hw.
  - destruct (requestWithdrawAll_spec sender w w' Hwf Hr) as (_&_&_&_&_&_&_&_& (Hn & Hst & _ & Hrj & _) & Hw & _).
    split_and!; [done..|]. intros a _ _. unfold eth_of. by rewrite Hw.
  - destruct (finalizeWithdrawAll_spec _ _ _ _ _ _ Hr) as (_&_&_&_&_&_&_& He & _ & _ & Hn & Hst & _ & Hrj & _).
    split_and!; [done..|]. intros a Ha Has. rewrite He. repeat case_decide; simplify_eq; lia.
Qed.

(** a transaction only allocates ciphertexts: every handle valid before
    stays valid with its plaintext. *)
Lemma receive_fhe_ext sender m w w' :
  world_wf w -> receive sender m w = Ok w' -> Fhe.fhe_ext (w_fhe w) (w_fhe w').
Proof.
  intros Hwf Hr. apply receive_inv in Hr. destruct m as [value| | |h clear pf].
  - destruct Hr as (w0 & Hm & Hs). destruct (move_eth_spec _ _ _ _ _ Hm) as [[e ->] _].
    by destruct (stake_spec sender value _ w' (world_wf_set_eth w e Hwf) Hs) as (_ & (_&_&_&_&_&_&Hx) & _).
  - by destruct (accrue_accessors sender w w' Hwf Hr) as (_ & (_&_&_&_&_&_&Hx) & _).
  - by destruct (requestWithdrawAll_spec sender w w' Hwf Hr) as (_&_&_&_&_&_&_&_& (_&_&_&_&_&_&Hx) & _).
  - destruct (finalizeWithdrawAll_spec _ _ _ _ _ _ Hr) as (_&_&_&_&_&_&_&_& -> & _). reflexivity.
Qed.

(** the accrual is floored, so splitting an interval into two claims
    never mints more than one claim over the whole interval. *)
Theorem accrual_split_le stake_micro e1 e2 :
  0 <= stake_micro -> 0 <= e1 -> 0 <= e2 ->
  accrual stake_micro e1 + accrual stake_micro e2 <= accrual stake_micro (e1 + e2).
Proof.
  intros Hs He1 He2. unfold accrual, RATE_PER_ETH_PER_DAY, SECONDS_PER_DAY.
  rewrite Z.mul_add_distr_l. apply Z.div_le_lower_bound; [lia|].
  pose proof (Z.mul_div_le (stake_micro * 10 * e1) 86400 ltac:(lia)).
  pose proof (Z.mul_div_le (stake_micro * 10 * e2) 86400 ltac:(lia)). lia.
Qed.

(** The inequality is strict for one microETH over two claims of 4321
    seconds each: each mints 0, one claim over 8642 seconds mints 1. *)
Lemma accrual_split_le_witness :
  accrual 1 4321 + accrual 1 4321 < accrual 1 8642 /\
  accrual 1 4321 + accrual 1 4321 <= accrual 1 (4321 + 4321).
Proof. split; [reflexivity | apply accrual_split_le; lia]. Defined.

(** the accrual product is computed in [euint64]: for a stake of
    21,350,398,233,461 microETH (about 21.35 million ETH) held for one
    day it wraps, and the minted amount is not the spec's formula. *)
Example accrual_u64_overflow :
  accrual_u64 21350398233461 SECONDS_PER_DAY <> accrual 21350398233461 SECONDS_PER_DAY.
Proof. vm_compute. discriminate. Qed.

(** ** The accounts map after each operation: only the caller's entry changes *)

Definition accounts_write w w' (a : address) : Prop :=
  forall b, b <> a -> w_accounts w' !! b = w_accounts w !! b.

Lemma accounts_write_refl w a : accounts_write w w a.
Proof. done. Qed.

Lemma accounts_write_set_account w a acc : accounts_write w (set_account w a acc) a.
Proof. intros b Hb. cbn. by rewrite lookup_insert_ne by congruence. Qed.

Lemma accounts_write_trans w1 w2 w3 a :
  accounts_write w1 w2 a -> accounts_write w2 w3 a -> accounts_write w1 w3 a.
Proof. intros H12 H23 b Hb. by rewrite H23, H12. Qed.

Lemma accrue_accounts sender w w' :
  world_wf w -> accrue sender w = Ok w' -> accounts_write w w' sender.
Proof.
  intros Hwf Ha b Hb. destruct (accrue_spec sender w w' Hwf Ha) as (_&_&_&Hacc&_).
  rewrite Hacc. by apply lookup_insert_ne.
Qed.

Lemma stake_accounts sender value w w' :
  world_wf w -> stake sender value w = Ok w' -> accounts_write w w' sender.
Proof.
  intros Hwf Hst. unfold stake in Hst. destruct (_ || _); [discriminate|].
  apply rbind_ok_inv in Hst as (w1 & Hw1 & Hk).
  apply (accounts_write_trans _ w1).
  - destruct (acc_last (account_of w sender) =? 0);
      [injection Hw1 as <-; apply accounts_write_refl | by apply accrue_accounts].
  - unfold Fhe.asEuint64, Fhe.add in Hk. fresh_steps. injection Hk as <-.
    intros b Hb. cbn. by rewrite lookup_insert_ne by congruence.
Qed.

Lemma requestWithdrawAll_accounts sender w w' :
  world_wf w -> requestWithdrawAll sender w = Ok w' -> accounts_write w w' sender.
Proof.
  intros Hwf Hr. unfold requestWithdrawAll in Hr. apply rbind_ok_inv in Hr as (w1 & Ha & Hr).
  apply (accounts_write_trans _ w1); [by apply accrue_accounts|].
  destruct (_ =? 0)%N; simpl in Hr; [|discriminate]. destruct (_ =? 0)%N; [discriminate|].
  injection Hr as <-. apply accounts_write_set_account.
Qed.

Lemma finalizeWithdrawAll_accounts sender h clear pf w w' :
  finalizeWithdrawAll sender h clear pf w = Ok w' -> accounts_write w w' sender.
Proof.
  intros Hf b Hb. destruct (finalizeWithdrawAll_spec _ _ _ _ _ _ Hf) as (_&_&_&_&_&_&_&_&_&_&_&_&_&_&Ho).
  (* [finalizeWithdrawAll] writes the caller's entry, then native balances only *)
  unfold finalizeWithdrawAll in Hf.
  destruct (_ || _); [discriminate|]. destruct (Verifier.verify _ _ _ _); [|discriminate].
  simpl in Hf. case_bool_decide; [discriminate|].
  destruct (move_eth _ _ _ _) as [w2|] eqn:Hm; [|discriminate]. injection Hf as <-.
  destruct (move_eth_spec _ _ _ _ _ Hm) as [[e ->] _]. cbn.
  by rewrite lookup_insert_ne by congruence.
Qed.

End Theorems.

End Staking.
