(* ===== verification/Format.v ===== *)
(** * The front end's cCoin formatter ([formatCcoinUnits])

    [StakingApp.tsx] shows a decrypted cCoin balance (an integer number
    of reward units, six decimals) with [formatCcoinUnits]: sign, whole
    part, then the six-digit fraction with its trailing zeros removed, and
    no point at all when the fraction is zero.  The string operations it
    uses are modelled here as the JavaScript built-ins behave on its
    inputs: [BigInt.prototype.toString] ([bigint_to_string]),
    [padStart] ([pad_start]) and [replace(/0+$/, '')]
    ([strip_trailing_zeros]); BigInt [/] and [%] truncate toward zero
    ([Z.quot], [Z.rem]).

    [parseCcoinUnits] reads such a string back; the round trip
    [parse_formatCcoinUnits] shows that the display loses nothing. *)

From Stdlib Require Import String Ascii ZArith Lia.
From S2P Require Import Prelude.

Open Scope Z_scope.
Local Open Scope bool_scope.
Local Open Scope string_scope.

(** stdpp makes [String.append] opaque to [simpl]; these proofs compute with it. *)
#[local] Arguments String.append : simpl nomatch.

Module Format.

Definition digit_char (d : Z) : ascii := ascii_of_nat (48 + Z.to_nat d).
Definition char_digit (c : ascii) : Z := Z.of_nat (nat_of_ascii c) - 48.
Definition is_digit (c : ascii) : bool :=
  (48 <=? nat_of_ascii c)%nat && (nat_of_ascii c <=? 57)%nat.

(** [BigInt.prototype.toString()] of a non-negative value: its decimal
    digits, most significant first.  The fuel is the number of binary
    digits, which bounds the number of decimal ones. *)
Fixpoint digits_fuel (fuel : nat) (n : Z) : string :=
  match fuel with
  | O => EmptyString
  | S f =>
      if (n <? 10)%Z then String (digit_char n) EmptyString
      else digits_fuel f (n / 10) ++ String (digit_char (n mod 10)) EmptyString
  end.

Definition bigint_to_string (n : Z) : string :=
  digits_fuel (S (Z.to_nat (Z.log2 n))) n.

Fixpoint repeat_char (k : nat) (c : ascii) : string :=
  match k with O => EmptyString | S k' => String c (repeat_char k' c) end.

(** [s.padStart(target, c)] with a one-character pad. *)
Definition pad_start (target : nat) (c : ascii) (s : string) : string :=
  repeat_char (target - String.length s) c ++ s.

(** [s.replace(/0+$/, '')]: drop the maximal run of trailing zeros. *)
Fixpoint strip_trailing_zeros (s : string) : string :=
  match s with
  | EmptyString => EmptyString
  | String c r =>
      match strip_trailing_zeros r with
      | EmptyString => if Ascii.eqb c "0"%char then EmptyString else String c EmptyString
      | r' => String c r'
      end
  end.

(** [formatCcoinUnits(units)], StakingApp.tsx lines 13-19. *)
Definition formatCcoinUnits (units : Z) : string :=
  let sign := if (units <? 0)%Z then "-" else "" in
  let abs := if (units <? 0)%Z then - units else units in
  let whole := Z.quot abs 1000000 in
  let frac := strip_trailing_zeros (pad_start 6 "0"%char (bigint_to_string (Z.rem abs 1000000))) in
  match frac with
  | EmptyString => sign ++ bigint_to_string whole
  | _ => sign ++ bigint_to_string whole ++ "." ++ frac
  end.

(** ** Reading a displayed amount back *)

Fixpoint all_digits (s : string) : bool :=
  match s with EmptyString => true | String c r => is_digit c && all_digits r end.

Fixpoint dval (s : string) : Z :=
  match s with
  | EmptyString => 0
  | String c r => char_digit c * 10 ^ Z.of_nat (String.length r) + dval r
  end.

Fixpoint split_dot (s : string) : string * option string :=
  match s with
  | EmptyString => (EmptyString, None)
  | String c r =>
      if Ascii.eqb c "."%char then (EmptyString, Some r)
      else let '(w, f) := split_dot r in (String c w, f)
  end.

Definition parse_unsigned (s : string) : option Z :=
  let '(w, f) := split_dot s in
  if negb (all_digits w) || String.eqb w EmptyString then None
  else match f with
       | None => Some (dval w * 1000000)
       | Some f =>
           if all_digits f && (1 <=? String.length f)%nat && (String.length f <=? 6)%nat
           then Some (dval w * 1000000 + dval f * 10 ^ (6 - Z.of_nat (String.length f)))
           else None
       end.

Definition parseCcoinUnits (s : string) : option Z :=
  match s with
  | String c r => if Ascii.eqb c "-"%char then option_map Z.opp (parse_unsigned r)
                  else parse_unsigned s
  | EmptyString => None
  end.

(** ** Digits and strings *)

Lemma digit_cases d : 0 <= d < 10 ->
  d = 0 \/ d = 1 \/ d = 2 \/ d = 3 \/ d = 4 \/ d = 5 \/ d = 6 \/ d = 7 \/ d = 8 \/ d = 9.
Proof. lia. Qed.

Lemma digit_char_spec d : 0 <= d < 10 ->
  char_digit (digit_char d) = d /\ is_digit (digit_char d) = true.
Proof.
  intros Hd. destruct (digit_cases d Hd) as [H|[H|[H|[H|[H|[H|[H|[H|[H|H]]]]]]]]]; subst; auto.
Qed.

Lemma is_digit_not_dot c : is_digit c = true -> Ascii.eqb c "."%char = false.
Proof. intros Hc. destruct (Ascii.eqb_spec c "."%char) as [->|]; [discriminate | easy]. Qed.

Lemma is_digit_not_minus c : is_digit c = true -> Ascii.eqb c "-"%char = false.
Proof. intros Hc. destruct (Ascii.eqb_spec c "-"%char) as [->|]; [discriminate | easy]. Qed.

Lemma length_app (a b : string) : String.length (a ++ b) = (String.length a + String.length b)%nat.
Proof. induction a as [|c a IH]; cbn; [easy | now rewrite IH]. Qed.

Lemma dval_app (a b : string) :
  dval (a ++ b) = dval a * 10 ^ Z.of_nat (String.length b) + dval b.
Proof.
  induction a as [|c a IH]; cbn; [lia|]. rewrite IH, length_app, Nat2Z.inj_add, Z.pow_add_r by lia.
  lia.
Qed.

Lemma all_digits_app (a b : string) : all_digits (a ++ b) = all_digits a && all_digits b.
Proof. induction a as [|c a IH]; cbn; [easy | now rewrite IH, Bool.andb_assoc]. Qed.

Lemma repeat_zero_spec k :
  all_digits (repeat_char k "0"%char) = true /\ dval (repeat_char k "0"%char) = 0 /\
  String.length (repeat_char k "0"%char) = k.
Proof. induction k as [|k (IHa & IHv & IHl)]; cbn; [easy|]. rewrite IHa, IHv, IHl. auto. Qed.

(** [digits_fuel] with enough fuel prints the number: digits only, at
    least one, no more than the decimal width of any bound. *)
Lemma digits_fuel_spec f n :
  0 <= n < 10 ^ Z.of_nat (S f) ->
  let s := digits_fuel (S f) n in
  all_digits s = true /\ dval s = n /\ (1 <= String.length s)%nat /\
  forall k, 0 < k -> n < 10 ^ k -> (String.length s <= Z.to_nat k)%nat.
Proof.
  revert n. induction f as [|f IH]; intros n Hn; cbv zeta; simpl digits_fuel.
  - replace (n <? 10)%Z with true by (symmetry; apply Z.ltb_lt; cbn in Hn; lia).
    destruct (digit_char_spec n) as [Hv Hd]; [cbn in Hn; lia|]. cbn.
    rewrite Hv, Hd. refine (conj eq_refl (conj _ (conj _ _))); [cbn; lia | cbn; lia | intros k Hk _; lia].
  - destruct (Z.ltb_spec n 10) as [Hlt | Hge].
    + destruct (digit_char_spec n) as [Hv Hd]; [lia|]. cbn.
      rewrite Hv, Hd. refine (conj eq_refl (conj _ (conj _ _))); [cbn; lia | cbn; lia | intros k Hk _; lia].
    + assert (Hq : 0 <= n / 10 < 10 ^ Z.of_nat (S f)).
      { split; [apply Z.div_pos; lia|]. apply Z.div_lt_upper_bound; [lia|].
        rewrite <- Z.pow_succ_r by lia. rewrite <- Nat2Z.inj_succ. lia. }
      destruct (IH (n / 10) Hq) as (Ha & Hv & Hl & Hk). simpl digits_fuel in *.
      pose proof (Z.mod_pos_bound n 10 ltac:(lia)) as Hm.
      destruct (digit_char_spec (n mod 10) Hm) as [Hcv Hcd].
      rewrite all_digits_app, dval_app, length_app, Ha, Hv. cbn. rewrite Hcd, Hcv.
      refine (conj eq_refl (conj _ (conj _ _))); [cbn; pose proof (Z.div_mod n 10); lia | lia |].
      intros k Hk0 Hnk.
      assert (Hk1 : 1 < k).
      { destruct (Z.eq_dec k 1) as [->|]; [lia|]. lia. }
      assert (n / 10 < 10 ^ (k - 1)).
      { apply Z.div_lt_upper_bound; [lia|]. rewrite <- Z.pow_succ_r by lia.
        now replace (Z.succ (k - 1)) with k by lia. }
      specialize (Hk (k - 1) ltac:(lia) ltac:(assumption)). lia.
Qed.

Lemma bigint_to_string_spec n :
  0 <= n ->
  let s := bigint_to_string n in
  all_digits s = true /\ dval s = n /\ (1 <= String.length s)%nat /\
  forall k, 0 < k -> n < 10 ^ k -> (String.length s <= Z.to_nat k)%nat.
Proof.
  intros Hn. apply digits_fuel_spec. split; [easy|].
  rewrite Nat2Z.inj_succ, Z2Nat.id by apply Z.log2_nonneg.
  destruct (Z.eq_dec n 0) as [->|Hn0]; [reflexivity|].
  destruct (Z.log2_spec n) as [_ Hlt]; [lia|].
  eapply Z.lt_le_trans; [exact Hlt|]. apply Z.pow_le_mono_l. lia.
Qed.

(** What [replace(/0+$/, '')] removed is a run of zeros. *)
Lemma strip_trailing_zeros_spec s :
  exists m, s = strip_trailing_zeros s ++ repeat_char m "0"%char.
Proof.
  induction s as [|c r [m Hm]]; [now exists O|]. cbn.
  destruct (strip_trailing_zeros r) as [|c' r'] eqn:E.
  - destruct (Ascii.eqb_spec c "0"%char) as [->|Hc].
    + exists (S m). cbn. now rewrite Hm at 1.
    + exists m. cbn. now rewrite Hm at 1.
  - exists m. cbn. now rewrite Hm at 1.
Qed.

Lemma split_dot_digits w rest :
  all_digits w = true ->
  split_dot (w ++ rest) = let '(w', f) := split_dot rest in (w ++ w', f).
Proof.
  induction w as [|c w IH]; cbn; [now destruct (split_dot rest)|].
  intros [Hc Hw]%Bool.andb_true_iff. rewrite is_digit_not_dot, IH by easy.
  now destruct (split_dot rest).
Qed.

Lemma append_nil (s : string) : s ++ "" = s.
Proof. induction s as [|c s IH]; cbn; [easy | now rewrite IH]. Qed.

(** What [formatCcoinUnits] prints after the sign. *)
Definition format_tail (abs : Z) : string :=
  let frac := strip_trailing_zeros (pad_start 6 "0"%char (bigint_to_string (Z.rem abs 1000000))) in
  match frac with
  | EmptyString => bigint_to_string (Z.quot abs 1000000)
  | _ => bigint_to_string (Z.quot abs 1000000) ++ "." ++ frac
  end.

Lemma formatCcoinUnits_tail units :
  formatCcoinUnits units =
  (if (units <? 0)%Z then "-" else "") ++ format_tail (if (units <? 0)%Z then - units else units).
Proof.
  unfold formatCcoinUnits, format_tail.
  destruct (units <? 0)%Z; destruct (strip_trailing_zeros _); reflexivity.
Qed.

(** The padded fraction: six digits worth the remainder. *)
Lemma pad_fraction_spec r :
  0 <= r < 1000000 ->
  let p := pad_start 6 "0"%char (bigint_to_string r) in
  all_digits p = true /\ dval p = r /\ String.length p = 6%nat.
Proof.
  intros Hr. destruct (bigint_to_string_spec r ltac:(lia)) as (Ta & Tv & _ & Tk).
  assert (Hl : (String.length (bigint_to_string r) <= 6)%nat).
  { change 6%nat with (Z.to_nat 6). apply Tk; [lia | change (10 ^ 6) with 1000000; lia]. }
  destruct (repeat_zero_spec (6 - String.length (bigint_to_string r))) as (Za & Zv & Zl).
  unfold pad_start. rewrite all_digits_app, dval_app, length_app, Za, Ta, Zv, Tv, Zl.
  refine (conj eq_refl (conj _ _)); lia.
Qed.

Lemma parse_unsigned_tail abs : 0 <= abs -> parse_unsigned (format_tail abs) = Some abs.
Proof.
  intros Habs. unfold format_tail.
  rewrite Z.quot_div_nonneg, Z.rem_mod_nonneg by lia.
  pose proof (Z.mod_pos_bound abs 1000000 ltac:(lia)) as Hr.
  pose proof (Z.div_mod abs 1000000 ltac:(lia)) as Hdm.
  destruct (bigint_to_string_spec (abs / 1000000) ltac:(apply Z.div_pos; lia)) as (Wa & Wv & Wl & _).
  destruct (pad_fraction_spec (abs mod 1000000) Hr) as (Pa & Pv & Pl).
  set (W := bigint_to_string (abs / 1000000)) in *.
  set (P := pad_start 6 "0"%char (bigint_to_string (abs mod 1000000))) in *.
  destruct (strip_trailing_zeros_spec P) as [m Hm].
  destruct (repeat_zero_spec m) as (Za & Zv & Zl).
  assert (HW : String.eqb W "" = false).
  { destruct W; [cbn in Wl; lia | reflexivity]. }
  set (F := strip_trailing_zeros P) in *.
  rewrite Hm, all_digits_app, Za, Bool.andb_true_r in Pa.
  rewrite Hm, dval_app, Zv, Zl, Z.add_0_r in Pv. rewrite Hm, length_app, Zl in Pl.
  unfold parse_unsigned. destruct F as [|c f] eqn:EF.
  - rewrite <- (append_nil W), split_dot_digits by exact Wa. cbn [split_dot].
    rewrite append_nil, Wa, HW. cbn [negb orb]. f_equal. rewrite Wv. cbn in Pv. lia.
  - rewrite split_dot_digits by exact Wa. cbn [split_dot append]. rewrite Ascii.eqb_refl.
    rewrite append_nil, Wa, HW. rewrite <- EF in *. rewrite Pa.
    cbn [negb orb andb].
    replace (1 <=? String.length F)%nat with true
      by (symmetry; apply Nat.leb_le; rewrite EF; cbn; lia).
    replace (String.length F <=? 6)%nat with true
      by (symmetry; apply Nat.leb_le; lia).
    cbn [andb]. f_equal. replace (6 - Z.of_nat (String.length F)) with (Z.of_nat m) by lia.
    rewrite Wv. lia.
Qed.

(** The display of every amount reads back to it. *)
Lemma parse_formatCcoinUnits units : parseCcoinUnits (formatCcoinUnits units) = Some units.
Proof.
  rewrite formatCcoinUnits_tail. destruct (Z.ltb_spec units 0) as [Hneg | Hpos].
  - cbn [append parseCcoinUnits]. rewrite Ascii.eqb_refl, parse_unsigned_tail by lia.
    cbn. f_equal. lia.
  - cbn [append]. rewrite <- (parse_unsigned_tail units Hpos). unfold parseCcoinUnits.
    destruct (format_tail units) as [|c t] eqn:E; [reflexivity|].
    replace (Ascii.eqb c "-"%char) with false; [reflexivity|].
    (* the display of a non-negative amount starts with a digit *)
    symmetry. apply is_digit_not_minus.
    unfold format_tail in E. rewrite Z.quot_div_nonneg in E by lia.
    destruct (bigint_to_string_spec (units / 1000000) ltac:(apply Z.div_pos; lia)) as (Wa & _ & Wl & _).
    destruct (bigint_to_string (units / 1000000)) as [|c' w] eqn:EW; [cbn in Wl; lia|].
    cbn in Wa. apply Bool.andb_true_iff in Wa as [Hc' _].
    destruct (strip_trailing_zeros _); cbn in E; congruence.
Qed.

(** The spec's example says ten cCoin display as [10.000000]; the front end
    drops the zero fraction and its point. *)
Example formatCcoinUnits_ten : formatCcoinUnits 10000000 = "10".
Proof. reflexivity. Qed.

End Format.
