(* ===== verification/FormatSpec.v ===== *)
(** * The cCoin display: termination, canonical form and uniqueness

    [Format.v] models [formatCcoinUnits] as the page computes it: a
    BigInt's [toString], [padStart(6, '0')] and [replace(/0+$/, '')].
    This file holds the specification side.

    - [to_decimal] is the decimal numeral of a non-negative integer,
      defined by well-founded recursion on its value (Equations); the
      fuel-bounded [Format.bigint_to_string] computes it, and any larger
      fuel gives the same string, so the fuel chosen is enough.
    - [display_ok] is the language of displays: an optional minus sign on
      a non-zero amount, a whole part without leading zeros, and an
      optional fraction of one to six digits without trailing zero.
    - Every display lies in that language, and it is the only string of
      the language that reads back to its amount. *)

From Equations Require Import Equations.
From Stdlib Require Import String Ascii ZArith Lia.
From S2P Require Import Format.

Open Scope Z_scope.
Local Open Scope bool_scope.
Local Open Scope string_scope.

#[local] Arguments String.append : simpl nomatch.

Module FormatSpec.
Import Format.

(** ** The reference numeral *)

Equations? to_decimal (n : Z) : string by wf (Z.to_nat n) lt :=
  to_decimal n with Z_lt_dec n 10 => {
    | left _ := String (digit_char n) EmptyString;
    | right _ := to_decimal (n / 10) ++ String (digit_char (n mod 10)) EmptyString }.
Proof. apply Z2Nat.inj_lt; [apply Z.div_pos; lia | lia | apply Z.div_lt; lia]. Qed.

(** The fuel-bounded loop agrees with the reference whenever its fuel
    exceeds the number of decimal digits. *)
Lemma digits_fuel_to_decimal f n :
  0 <= n < 10 ^ Z.of_nat (S f) -> digits_fuel (S f) n = to_decimal n.
Proof.
  revert f. funelim (to_decimal n); intros f Hn.
  - cbn. destruct (Z.ltb_spec n 10); [reflexivity | lia].
  - destruct f as [|f]; [cbn in Hn; lia|].
    cbn [digits_fuel]. destruct (Z.ltb_spec n 10); [lia|].
    match goal with IH : forall f, _ -> digits_fuel (S f) (n / 10) = _ |- _ => rewrite <- (IH f) end;
      [reflexivity|].
    split; [apply Z.div_pos; lia|]. apply Z.div_lt_upper_bound; [lia|].
    rewrite <- Z.pow_succ_r by lia. rewrite <- Nat2Z.inj_succ. lia.
Qed.

Lemma log2_fuel_bound n : 0 <= n -> n < 10 ^ Z.of_nat (S (Z.to_nat (Z.log2 n))).
Proof.
  intros Hn. rewrite Nat2Z.inj_succ, Z2Nat.id by apply Z.log2_nonneg.
  destruct (Z.eq_dec n 0) as [->|Hn0]; [reflexivity|].
  destruct (Z.log2_spec n) as [_ Hlt]; [lia|].
  eapply Z.lt_le_trans; [exact Hlt|]. apply Z.pow_le_mono_l. lia.
Qed.

(** The digit loop of [BigInt.prototype.toString] finishes within its
    fuel: for every non-negative [n], [bigint_to_string n] is the
    well-founded reference numeral [to_decimal n], and every fuel from
    [log2 n + 1] on gives that same string, so running out of fuel never
    cuts a number short. *)
Theorem bigint_to_string_fuel_enough n k :
  0 <= n -> (S (Z.to_nat (Z.log2 n)) <= k)%nat ->
  bigint_to_string n = to_decimal n /\ digits_fuel k n = to_decimal n.
Proof.
  intros Hn Hk. pose proof (log2_fuel_bound n Hn) as Hb.
  split; [apply digits_fuel_to_decimal; lia|].
  destruct k as [|k]; [lia|]. apply digits_fuel_to_decimal. split; [lia|].
  eapply Z.lt_le_trans; [exact Hb|]. apply Z.pow_le_mono_r; lia.
Qed.

(** ** Digit strings *)

Lemma is_digit_range c : is_digit c = true -> 0 <= char_digit c <= 9.
Proof.
  unfold is_digit, char_digit. intros [H1 H2]%Bool.andb_true_iff.
  apply Nat.leb_le in H1, H2. lia.
Qed.

Lemma char_digit_inj c c' :
  is_digit c = true -> is_digit c' = true -> char_digit c = char_digit c' -> c = c'.
Proof.
  intros H H' Heq. unfold char_digit in Heq.
  rewrite <- (ascii_nat_embedding c), <- (ascii_nat_embedding c'). f_equal. lia.
Qed.

Lemma dval_bound s : all_digits s = true -> 0 <= dval s < 10 ^ Z.of_nat (String.length s).
Proof.
  induction s as [|c r IH]; cbn; [lia|]. intros [Hc Hr]%Bool.andb_true_iff.
  specialize (IH Hr). pose proof (is_digit_range c Hc).
  rewrite Nat2Z.inj_succ, Z.pow_succ_r by lia. nia.
Qed.

(** Digit strings of the same length and value are equal. *)
Lemma digits_inj s t :
  all_digits s = true -> all_digits t = true ->
  String.length s = String.length t -> dval s = dval t -> s = t.
Proof.
  revert t. induction s as [|c r IH]; intros [|c' r']; cbn; try easy.
  intros [Hc Hr]%Bool.andb_true_iff [Hc' Hr']%Bool.andb_true_iff [= Hl] Hv.
  pose proof (dval_bound r Hr). pose proof (dval_bound r' Hr').
  pose proof (is_digit_range c Hc). pose proof (is_digit_range c' Hc').
  rewrite <- Hl in *. set (p := 10 ^ Z.of_nat (String.length r)) in *.
  assert (Hcd : char_digit c = char_digit c') by nia.
  rewrite (char_digit_inj c c' Hc Hc' Hcd), (IH r'); [easy | easy | easy | easy | lia].
Qed.

(** ** Canonical numerals *)

(** Digits only, at least one, and no leading zero unless the numeral is
    "0". *)
Definition canonical (s : string) : bool :=
  match s with
  | EmptyString => false
  | String c r => all_digits s && (negb (Ascii.eqb c "0"%char) || String.eqb r "")
  end.

Lemma canonical_lower c r :
  canonical (String c r) = true -> r <> "" -> 10 ^ Z.of_nat (String.length r) <= dval (String c r).
Proof.
  cbn. intros [[Hc Hr]%Bool.andb_true_iff Hz]%Bool.andb_true_iff Hne.
  apply Bool.orb_true_iff in Hz as [Hz | Hz]; [|apply String.eqb_eq in Hz; contradiction].
  pose proof (dval_bound r Hr). pose proof (is_digit_range c Hc).
  assert (char_digit c <> 0).
  { intros Hc0. apply Bool.negb_true_iff, Ascii.eqb_neq in Hz. apply Hz, char_digit_inj; [exact Hc | reflexivity | exact Hc0]. }
  nia.
Qed.

Lemma canonical_digits s : canonical s = true -> all_digits s = true.
Proof. destruct s; cbn; [easy|]. now intros [? _]%Bool.andb_true_iff. Qed.

(** Two canonical numerals of the same value are the same string. *)
Lemma canonical_inj s t : canonical s = true -> canonical t = true -> dval s = dval t -> s = t.
Proof.
  intros Hs Ht Hv. apply digits_inj; [now apply canonical_digits.. | | exact Hv].
  assert (Hlen : forall u v, canonical u = true -> canonical v = true -> dval u = dval v ->
            (String.length u <= String.length v)%nat).
  { intros [|c r] [|c' r'] Hu Hv' Huv; try easy. cbn [String.length].
    destruct (String.eqb_spec r' "") as [->|Hne'].
    - destruct (String.eqb_spec r "") as [->|Hne]; [easy|].
      pose proof (canonical_lower c r Hu Hne). pose proof (dval_bound _ (canonical_digits _ Hv')).
      cbn [String.length] in *. exfalso. assert (1 <= Z.of_nat (String.length r)).
      { destruct r; [easy | cbn; lia]. }
      assert (10 ^ 1 <= 10 ^ Z.of_nat (String.length r)) by (apply Z.pow_le_mono_r; lia). lia.
    - destruct (Nat.le_gt_cases (String.length r) (String.length r')) as [|Hgt]; [lia|].
      assert (Hne : r <> "") by (intros ->; cbn in Hgt; lia).
      pose proof (dval_bound _ (canonical_digits _ Hv')).
      pose proof (canonical_lower c r Hu Hne). cbn [String.length] in *.
      assert (10 ^ Z.of_nat (S (String.length r')) <= 10 ^ Z.of_nat (String.length r))
        by (apply Z.pow_le_mono_r; lia).
      lia. }
  apply Nat.le_antisymm; auto.
Qed.

(** The reference numeral is canonical and denotes its argument. *)
Lemma to_decimal_spec n : 0 <= n -> canonical (to_decimal n) = true /\ dval (to_decimal n) = n.
Proof.
  funelim (to_decimal n); intros Hn.
  - destruct (digit_char_spec n) as [Hv Hd]; [lia|]. cbn. rewrite Hd, Hv.
    split; [now rewrite Bool.orb_true_r | lia].
  - match goal with IH : 0 <= n / 10 -> _ |- _ => destruct IH as [Hc Hv]; [apply Z.div_pos; lia|] end.
    pose proof (Z.mod_pos_bound n 10 ltac:(lia)) as Hm.
    destruct (digit_char_spec (n mod 10) Hm) as [Hcv Hcd].
    destruct (to_decimal (n / 10)) as [|c r] eqn:E; [easy|].
    assert (Hc0 : Ascii.eqb c "0"%char = false).
    { destruct (Ascii.eqb_spec c "0"%char) as [Hz|]; [|easy]. exfalso. subst c.
      cbn in Hc. apply Bool.andb_true_iff in Hc as [_ Hr]. apply String.eqb_eq in Hr. subst r.
      assert (1 <= n / 10) by (apply Z.div_le_lower_bound; lia).
      assert (Hd0 : dval (String "0"%char EmptyString) = 0) by reflexivity. lia. }
    cbn [append canonical]. rewrite Hc0. cbn [negb orb]. rewrite Bool.andb_true_r.
    pose proof (canonical_digits _ Hc) as Ha.
    change (String c (r ++ String (digit_char (n mod 10)) ""))
      with (String c r ++ String (digit_char (n mod 10)) "").
    rewrite all_digits_app, dval_app, Ha, Hv. cbn. rewrite Hcd, Hcv.
    split; [easy|]. pose proof (Z.div_mod n 10). lia.
Qed.

(** ** Fractions *)

Lemma strip_repeat_zero m : strip_trailing_zeros (repeat_char m "0"%char) = "".
Proof. induction m as [|m IH]; cbn; [easy | now rewrite IH]. Qed.

Lemma strip_app_zeros f m :
  strip_trailing_zeros (f ++ repeat_char m "0"%char) = strip_trailing_zeros f.
Proof. induction f as [|c r IH]; cbn; [apply strip_repeat_zero | now rewrite IH]. Qed.

Lemma strip_idem s : strip_trailing_zeros (strip_trailing_zeros s) = strip_trailing_zeros s.
Proof.
  induction s as [|c r IH]; cbn; [easy|].
  destruct (strip_trailing_zeros r) as [|c' r'] eqn:E.
  - destruct (Ascii.eqb c "0"%char) eqn:Ec; cbn; [easy | now rewrite Ec].
  - change (strip_trailing_zeros (String c (String c' r')))
      with (match strip_trailing_zeros (String c' r') with
            | EmptyString => if Ascii.eqb c "0"%char then EmptyString else String c EmptyString
            | r'' => String c r'' end).
    now rewrite IH.
Qed.

(** A digit string worth zero is all zeros, which the regex removes. *)
Lemma strip_zero_value f : all_digits f = true -> dval f = 0 -> strip_trailing_zeros f = "".
Proof.
  induction f as [|c r IH]; cbn; [easy|]. intros [Hc Hr]%Bool.andb_true_iff Hv.
  pose proof (dval_bound r Hr). pose proof (is_digit_range c Hc).
  assert (Hp : 0 < 10 ^ Z.of_nat (String.length r)) by (apply Z.pow_pos_nonneg; lia).
  assert (Hc0 : char_digit c = 0) by nia.
  rewrite IH by (easy || nia).
  replace c with "0"%char by (symmetry; apply char_digit_inj; [exact Hc | reflexivity | exact Hc0]).
  reflexivity.
Qed.

(** The fraction of a display: one to six digits, the last not a zero. *)
Definition frac_ok (f : string) : bool :=
  all_digits f && negb (String.eqb f "") && (String.length f <=? 6)%nat &&
  String.eqb (strip_trailing_zeros f) f.

Lemma frac_ok_spec f :
  frac_ok f = true ->
  all_digits f = true /\ f <> "" /\ (String.length f <= 6)%nat /\ strip_trailing_zeros f = f.
Proof.
  unfold frac_ok. intros H. repeat (apply Bool.andb_true_iff in H as [H ?]).
  repeat split; try assumption.
  - intros ->. easy.
  - now apply Nat.leb_le.
  - now apply String.eqb_eq.
Qed.

(** What a fraction is worth in units: its digits padded to six. *)
Definition frac_units (f : string) : Z := dval f * 10 ^ (6 - Z.of_nat (String.length f)).

Lemma frac_units_pad f :
  (String.length f <= 6)%nat ->
  frac_units f = dval (f ++ repeat_char (6 - String.length f) "0"%char) /\
  String.length (f ++ repeat_char (6 - String.length f) "0"%char) = 6%nat.
Proof.
  intros Hl. destruct (repeat_zero_spec (6 - String.length f)) as (_ & Zv & Zl).
  unfold frac_units. rewrite dval_app, length_app, Zv, Zl, Nat2Z.inj_sub by lia.
  split; [lia | lia].
Qed.

Lemma frac_units_range f : frac_ok f = true -> 1 <= frac_units f < 1000000.
Proof.
  intros (Ha & Hne & Hl & Hs)%frac_ok_spec.
  destruct (frac_units_pad f Hl) as [Hp Hpl].
  pose proof (dval_bound _ (eq_trans (all_digits_app _ _)
    (f_equal2 andb Ha (proj1 (repeat_zero_spec (6 - String.length f)))))) as Hb.
  rewrite Hpl in Hb. rewrite Hp. split; [|exact (proj2 Hb)].
  destruct (Z.eq_dec (dval f) 0) as [H0|H0].
  - rewrite (strip_zero_value f Ha H0) in Hs. now subst f.
  - unfold frac_units in Hp. pose proof (dval_bound f Ha).
    assert (0 < 10 ^ (6 - Z.of_nat (String.length f))) by (apply Z.pow_pos_nonneg; lia). nia.
Qed.

(** Two fractions worth the same number of units are the same string. *)
Lemma frac_inj f g : frac_ok f = true -> frac_ok g = true -> frac_units f = frac_units g -> f = g.
Proof.
  intros Hf Hg Hv. pose proof (frac_ok_spec f Hf) as (Fa & _ & Fl & Fs).
  pose proof (frac_ok_spec g Hg) as (Ga & _ & Gl & Gs).
  destruct (frac_units_pad f Fl) as [Fv Fpl]. destruct (frac_units_pad g Gl) as [Gv Gpl].
  assert (Hpad : f ++ repeat_char (6 - String.length f) "0"%char =
                 g ++ repeat_char (6 - String.length g) "0"%char).
  { apply digits_inj; [rewrite all_digits_app, Fa; apply repeat_zero_spec
                      | rewrite all_digits_app, Ga; apply repeat_zero_spec | congruence | congruence]. }
  rewrite <- Fs, <- Gs, <- (strip_app_zeros f (6 - String.length f)),
    <- (strip_app_zeros g (6 - String.length g)). now rewrite Hpad.
Qed.

(** ** The language of displays *)

(** After the sign: a canonical whole part, then either nothing (a
    negative amount may not be "-0") or a dot and a fraction. *)
Definition body_ok (neg : bool) (s : string) : bool :=
  let '(w, f) := split_dot s in
  canonical w &&
  match f with
  | None => negb neg || negb (String.eqb w "0")
  | Some f => frac_ok f
  end.

Definition display_ok (s : string) : bool :=
  match s with
  | EmptyString => false
  | String c r => if Ascii.eqb c "-"%char then body_ok true r else body_ok false s
  end.

Lemma split_dot_spec s :
  let '(w, f) := split_dot s in
  s = w ++ match f with None => "" | Some f => "." ++ f end.
Proof.
  induction s as [|c r IH]; cbn; [easy|].
  destruct (Ascii.eqb_spec c "."%char) as [->|]; [easy|].
  destruct (split_dot r) as [w f]. cbn. now rewrite IH at 1.
Qed.

(** What [parse_unsigned] reads from a body of the language: the whole
    part times [10^6] plus the fraction's units. *)
Lemma parse_body neg s v :
  body_ok neg s = true -> parse_unsigned s = Some v ->
  let '(w, f) := split_dot s in
  v = dval w * 1000000 + match f with None => 0 | Some f => frac_units f end /\
  0 <= dval w /\ (neg = true -> 0 < v).
Proof.
  unfold body_ok, parse_unsigned. destruct (split_dot s) as [w f].
  intros [Hw Hf]%Bool.andb_true_iff. pose proof (canonical_digits w Hw) as Wa.
  pose proof (dval_bound w Wa) as Wb. rewrite Wa. cbn [negb orb].
  destruct (String.eqb w "") eqn:Hwe; [discriminate|]. cbn [orb].
  destruct f as [f|].
  - pose proof (frac_units_range f Hf) as Fr. pose proof (frac_ok_spec f Hf) as (Fa & _ & Fl & _).
    rewrite Fa. replace (1 <=? String.length f)%nat with true
      by (symmetry; apply Nat.leb_le; destruct f; [easy | cbn; lia]).
    replace (String.length f <=? 6)%nat with true by (symmetry; now apply Nat.leb_le).
    intros [= <-]. unfold frac_units in *. lia.
  - intros [= <-]. split; [lia|]. split; [lia|]. intros ->.
    apply Bool.negb_true_iff, String.eqb_neq in Hf.
    destruct w as [|c r]; [easy|].
    destruct (String.eqb_spec r "") as [->|Hr].
    + assert (c <> "0"%char) by (intros ->; apply Hf; reflexivity).
      cbn in Hw. apply Bool.andb_true_iff in Hw as [Hd Hz].
      rewrite Bool.andb_true_r in Hd. assert (char_digit c <> 0).
      { intros H0. apply H, char_digit_inj; [exact Hd | reflexivity | exact H0]. }
      pose proof (is_digit_range c Hd). cbn. lia.
    + pose proof (canonical_lower c r Hw Hr).
      assert (0 < 10 ^ Z.of_nat (String.length r)) by (apply Z.pow_pos_nonneg; lia). lia.
Qed.

(** Two bodies of the language that read to the same value are equal. *)
Lemma body_inj n1 n2 s t v :
  body_ok n1 s = true -> body_ok n2 t = true ->
  parse_unsigned s = Some v -> parse_unsigned t = Some v -> s = t.
Proof.
  intros Hs Ht Ps Pt.
  pose proof (parse_body n1 s v Hs Ps) as Bs. pose proof (parse_body n2 t v Ht Pt) as Bt.
  pose proof (split_dot_spec s) as Es. pose proof (split_dot_spec t) as Et.
  unfold body_ok in Hs, Ht.
  destruct (split_dot s) as [w f], (split_dot t) as [w' f'].
  apply Bool.andb_true_iff in Hs as [Hw Hf], Ht as [Hw' Hf'].
  destruct Bs as (Vs & _ & _), Bt as (Vt & _ & _). rewrite Es, Et.
  destruct f as [f|], f' as [f'|].
  - pose proof (frac_units_range f Hf). pose proof (frac_units_range f' Hf').
    assert (dval w = dval w') by lia.
    rewrite (canonical_inj w w' Hw Hw'), (frac_inj f f' Hf Hf'); [easy | lia | easy].
  - pose proof (frac_units_range f Hf). lia.
  - pose proof (frac_units_range f' Hf'). lia.
  - rewrite (canonical_inj w w' Hw Hw'); [easy | lia].
Qed.

Lemma parse_unsigned_nonneg s v : parse_unsigned s = Some v -> 0 <= v.
Proof.
  unfold parse_unsigned. destruct (split_dot s) as [w f].
  destruct (negb (all_digits w) || String.eqb w "") eqn:Hg; [discriminate|].
  apply Bool.orb_false_iff in Hg as [Ha _]. apply Bool.negb_false_iff in Ha.
  pose proof (dval_bound w Ha). destruct f as [f|].
  - destruct (all_digits f && _ && _) eqn:Hf; [|discriminate].
    apply Bool.andb_true_iff in Hf as [[Fa _]%Bool.andb_true_iff _].
    pose proof (dval_bound f Fa). intros [= <-].
    assert (0 <= 10 ^ (6 - Z.of_nat (String.length f))) by (apply Z.pow_nonneg; lia). nia.
  - intros [= <-]. lia.
Qed.

(** The reader is injective on the language of displays. *)
Lemma parse_display_inj s t u :
  display_ok s = true -> display_ok t = true ->
  parseCcoinUnits s = Some u -> parseCcoinUnits t = Some u -> s = t.
Proof.
  destruct s as [|c r], t as [|c' r']; cbn [display_ok parseCcoinUnits]; try easy.
  destruct (Ascii.eqb_spec c "-"%char) as [->|Hc], (Ascii.eqb_spec c' "-"%char) as [->|Hc'];
    intros Hs Ht Ps Pt.
  - destruct (parse_unsigned r) as [v|] eqn:Pr, (parse_unsigned r') as [v'|] eqn:Pr'; try easy.
    cbn in Ps, Pt. injection Ps as <-. injection Pt as Hv.
    f_equal. apply (body_inj true true r r' v); [easy | easy | easy | rewrite Pr'; f_equal; lia].
  - destruct (parse_unsigned r) as [v|] eqn:Pr; [|easy]. injection Ps as <-.
    pose proof (parse_body true r v Hs Pr) as Br. destruct (split_dot r).
    destruct Br as (_ & _ & Hpos). pose proof (parse_unsigned_nonneg _ _ Pt). specialize (Hpos eq_refl). lia.
  - destruct (parse_unsigned r') as [v|] eqn:Pr; [|easy]. injection Pt as <-.
    pose proof (parse_body true r' v Ht Pr) as Br. destruct (split_dot r').
    destruct Br as (_ & _ & Hpos). pose proof (parse_unsigned_nonneg _ _ Ps). specialize (Hpos eq_refl). lia.
  - exact (body_inj false false _ _ u Hs Ht Ps Pt).
Qed.

(** ** Every display is in the language *)

Lemma bigint_to_string_canonical n :
  0 <= n -> canonical (bigint_to_string n) = true /\ dval (bigint_to_string n) = n.
Proof.
  intros Hn. unfold bigint_to_string.
  rewrite digits_fuel_to_decimal by (split; [lia | apply log2_fuel_bound; lia]).
  now apply to_decimal_spec.
Qed.

Lemma body_ok_format_tail neg abs :
  0 <= abs -> (neg = true -> 0 < abs) -> body_ok neg (format_tail abs) = true.
Proof.
  intros Habs Hneg. unfold format_tail.
  rewrite Z.quot_div_nonneg, Z.rem_mod_nonneg by lia.
  pose proof (Z.mod_pos_bound abs 1000000 ltac:(lia)) as Hr.
  pose proof (Z.div_mod abs 1000000 ltac:(lia)) as Hdm.
  destruct (bigint_to_string_canonical (abs / 1000000) ltac:(apply Z.div_pos; lia)) as (Wc & Wv).
  pose proof (canonical_digits _ Wc) as Wa.
  destruct (pad_fraction_spec (abs mod 1000000) Hr) as (Pa & Pv & Pl).
  set (W := bigint_to_string (abs / 1000000)) in *.
  set (P := pad_start 6 "0"%char (bigint_to_string (abs mod 1000000))) in *.
  destruct (strip_trailing_zeros_spec P) as [m Hm].
  destruct (repeat_zero_spec m) as (Za & Zv & Zl).
  assert (Fa : all_digits (strip_trailing_zeros P) = true).
  { rewrite Hm, all_digits_app in Pa. now apply Bool.andb_true_iff in Pa as [? _]. }
  assert (Fl : (String.length (strip_trailing_zeros P) <= 6)%nat).
  { rewrite Hm, length_app in Pl. lia. }
  destruct (strip_trailing_zeros P) as [|c f] eqn:EF; cbv beta iota zeta.
  - unfold body_ok. replace (split_dot W) with (W, @None string)
      by (symmetry; transitivity (split_dot (W ++ "")); [now rewrite append_nil|];
          rewrite split_dot_digits by exact Wa; cbn [split_dot]; now rewrite append_nil).
    rewrite Wc. cbn [andb].
    destruct neg; [|easy]. cbn [negb orb]. apply Bool.negb_true_iff, String.eqb_neq. intros HW.
    rewrite HW in Wv. cbn in Wv. change (char_digit "0"%char) with 0 in Wv. rewrite Hm, dval_app, Zv, ?EF in Pv. cbn in Pv.
    specialize (Hneg eq_refl). lia.
  - unfold body_ok. rewrite split_dot_digits by exact Wa. cbn [split_dot append]. rewrite Ascii.eqb_refl.
    rewrite append_nil. rewrite Wc. cbn [andb].
    unfold frac_ok. rewrite Fa. cbn [String.eqb negb andb].
    replace (String.length (String c f) <=? 6)%nat with true by (symmetry; now apply Nat.leb_le).
    rewrite <- EF, strip_idem, EF. apply String.eqb_refl.
Qed.

(** A display without sign starts with a digit. *)
Lemma format_tail_head abs : 0 <= abs -> exists c r, format_tail abs = String c r /\ is_digit c = true.
Proof.
  intros Habs. unfold format_tail. rewrite Z.quot_div_nonneg by lia.
  destruct (bigint_to_string_canonical (abs / 1000000) ltac:(apply Z.div_pos; lia)) as (Wc & _).
  destruct (bigint_to_string (abs / 1000000)) as [|c w] eqn:EW; [easy|].
  apply canonical_digits in Wc. cbn in Wc. apply Bool.andb_true_iff in Wc as [Hc _].
  destruct (strip_trailing_zeros _); cbn; eauto.
Qed.

Lemma display_ok_formatCcoinUnits units : display_ok (formatCcoinUnits units) = true.
Proof.
  rewrite formatCcoinUnits_tail. destruct (Z.ltb_spec units 0) as [Hneg | Hpos].
  - cbn [append display_ok]. rewrite Ascii.eqb_refl. apply body_ok_format_tail; lia.
  - cbn [append]. pose proof (body_ok_format_tail false units Hpos ltac:(easy)) as Hb.
    destruct (format_tail_head units Hpos) as (c & r & Ht & Hc). rewrite Ht in *.
    cbn [display_ok]. now rewrite is_digit_not_minus.
Qed.

(** C22: [formatCcoinUnits] is exactly the canonical display of an amount:
    a string is in the language of displays (optional minus on a non-zero
    amount, no leading zeros, at most six fraction digits, no trailing
    zero) and reads back to [units] if and only if it is
    [formatCcoinUnits units]. *)
Theorem formatCcoinUnits_canonical units s :
  display_ok s = true /\ parseCcoinUnits s = Some units <-> s = formatCcoinUnits units.
Proof.
  split.
  - intros [Hd Hp]. apply (parse_display_inj s _ units Hd (display_ok_formatCcoinUnits units) Hp).
    apply parse_formatCcoinUnits.
  - intros ->. split; [apply display_ok_formatCcoinUnits | apply parse_formatCcoinUnits].
Qed.

End FormatSpec.
