(* ===== verification/JsNumber.v ===== *)
(** * JavaScript numbers: [Number(bigint)], division and [toString]

    [microEthToEthString] of [StakingApp.tsx] (lines 21-23) is
    [(Number(microEth) / 1_000_000).toString()]: a BigInt converted to
    an IEEE-754 double, a double division, and the ECMAScript
    [Number::toString].  This file models the three steps.

    A finite double is kept as its value, a rational [Q]: [round53]
    rounds a rational to the nearest double, ties to an even mantissa,
    with 53 bits of precision ([Number(bigint)] and [x / y] are this
    rounding of the exact result, ECMAScript §21.1.1.1 and IEEE-754
    §4.3.1).  The exponent range is not bounded: the values met here
    (below [2^64] and above [10^-7]) are far from overflow and from the
    subnormal range.

    [number_to_string] follows ECMAScript §6.1.6.1.20 with the
    closest-digits refinement engines implement (its note 2): the
    fewest digits [k] such that some [s] of [k] digits with
    [s * 10^(n-k)] rounding to [x], the closest such [s] (ties to the
    even one), then the fixed or exponential layout by [n].  For each
    [k] the candidates are the two multiples of [10^(n_x - k)] next to
    [x], where [n_x] is the decimal exponent of [x]: the nearest
    multiple on either side is in the rounding interval of [x] when any
    multiple is, and a candidate outside the decade of [x] is a power of
    ten, met at [k = 1].  The search stops at 17 digits, which every
    double round-trips with.

    The result [microEthToEthString_exact] shows the display exact below
    [2^33 * 10^6] microETH (8.59 billion ETH): there it is the string
    [formatCcoinUnits] prints and reads back to the amount.  The proof
    bounds the rounding error of the quotient by [2^-21] ETH, below half
    a microETH, so the microETH amount [s0 * 10^z] (trailing zeros
    split off) is the only candidate of its digit count in the rounding
    interval, and no shorter one is.  [microEthToEthString_tight] shows
    the bound is sharp, and that past [2^53] microETH [Number(bigint)]
    merges amounts. *)

From Equations Require Import Equations.
From Stdlib Require Import ZArith String Ascii QArith Qpower Qround Qabs Lia Lqa.
From S2P Require Import Format FormatSpec.

Open Scope Z_scope.

Module JsNumber.
Import Format FormatSpec.

(** ** Rounding to a double *)

(** [n / d] rounded to the nearest integer, ties to even ([d > 0]). *)
Definition round_half_even (n d : Z) : Z :=
  let q := n / d in
  let r := n mod d in
  match Z.compare (2 * r) d with
  | Lt => q
  | Gt => q + 1
  | Eq => if Z.even q then q else q + 1
  end.

(** The binade of a positive rational: [e] with [2^e <= a < 2^(e+1)]. *)
Definition binade (a : Q) : Z :=
  let t := Z.log2 (Qnum a) - Z.log2 (Zpos (Qden a)) in
  if Qle_bool (2 ^ t)%Q a then t else t - 1.

(** The double nearest to [y]: a 53-bit mantissa [m] times [2^e]. *)
Definition round53 (y0 : Q) : Q :=
  let y := Qred y0 in
  if Qeq_bool y 0%Q then 0%Q else
  let a := Qabs y in
  let e := binade a - 52 in
  let u := (a / 2 ^ e)%Q in
  let r := (inject_Z (round_half_even (Qnum u) (Zpos (Qden u))) * 2 ^ e)%Q in
  if Qnum y <? 0 then (- r)%Q else r.

(** [Number(b)] for a BigInt [b]. *)
Definition Number (b : Z) : Q := round53 (inject_Z b).

(** The double division [x / y]. *)
Definition js_div (x y : Q) : Q := round53 (x / y)%Q.

(** ** [Number::toString] *)

(** [s * 10^j]. *)
Definition dec (s j : Z) : Q := (inject_Z s * 10 ^ j)%Q.

(** The number of decimal digits of a positive integer. *)
Definition ndigits (s : Z) : Z := Z.of_nat (String.length (bigint_to_string s)).

(** The decimal exponent of a positive rational: [n] with
    [10^(n-1) <= x < 10^n]. *)
Definition dec_exp (x : Q) : Z :=
  let t := ndigits (Qnum x) - ndigits (Zpos (Qden x)) in
  if Qle_bool (10 ^ t)%Q x then t + 1 else t.

(** [s * 10^j] is a decimal that rounds to the double [x]. *)
Definition cand_ok (x : Q) (s j : Z) : bool := Qeq_bool (round53 (dec s j)) x.

(** Of the two multiples of [10^j] next to [x], the one rounding to [x]
    and closest to it (ties to the even one). *)
Definition pick (x : Q) (j : Z) : option Z :=
  let sf := Qfloor (x / 10 ^ j)%Q in
  match cand_ok x sf j, cand_ok x (sf + 1) j with
  | true, true =>
      match Qcompare (x - dec sf j)%Q (dec (sf + 1) j - x)%Q with
      | Lt => Some sf
      | Gt => Some (sf + 1)
      | Eq => if Z.even sf then Some sf else Some (sf + 1)
      end
  | true, false => Some sf
  | false, true => Some (sf + 1)
  | false, false => None
  end.

(** The digits [s], their number [k] and the exponent [n] of a positive
    double: the first [k] from [k0] with a candidate; [s = 10^k] (the
    power of ten above [x]) is written with [k] digits as [10^(k-1)]. *)
Fixpoint shortest_from (x : Q) (nx : Z) (k : Z) (fuel : nat) : Z * Z * Z :=
  match fuel with
  | O => (Qfloor (x / 10 ^ (nx - 17))%Q, 17, nx)
  | S fuel =>
      match pick x (nx - k) with
      | Some s => if s =? 10 ^ k then (10 ^ (k - 1), k, nx + 1) else (s, k, nx)
      | None => shortest_from x nx (k + 1) fuel
      end
  end.

Definition shortest (x : Q) : Z * Z * Z := shortest_from x (dec_exp x) 1 17.

(** Strings of digits. *)
Definition zeros (n : Z) : string := repeat_char (Z.to_nat n) "0"%char.

Definition take (n : Z) (s : string) : string := substring 0 (Z.to_nat n) s.
Definition drop (n : Z) (s : string) : string := substring (Z.to_nat n) (String.length s - Z.to_nat n) s.

(** Steps 6-10 of [Number::toString]: the layout of [s], [k], [n]. *)
Definition layout (s k n : Z) : string :=
  let D := bigint_to_string s in
  if (k <=? n) && (n <=? 21) then (D ++ zeros (n - k))%string
  else if (0 <? n) && (n <=? 21) then (take n D ++ "." ++ drop n D)%string
  else if (-6 <? n) && (n <=? 0) then ("0." ++ zeros (- n) ++ D)%string
  else
    let e := n - 1 in
    let sign := if e <? 0 then "-"%string else "+"%string in
    ((if (k =? 1)%Z then D else take 1 D ++ "." ++ drop 1 D) ++ "e" ++ sign ++ bigint_to_string (Z.abs e))%string.

Definition positive_to_string (x : Q) : string :=
  let '(s, k, n) := shortest x in layout s k n.

Definition number_to_string (x : Q) : string :=
  if Qeq_bool x 0%Q then "0"%string
  else if Qnum x <? 0 then ("-" ++ positive_to_string (- x)%Q)%string
  else positive_to_string x.

(** [microEthToEthString]. *)
Definition microEthToEthString (microEth : Z) : string :=
  number_to_string (js_div (Number microEth) (inject_Z 1000000)).


(** Rounding depends only on the value of the rational. *)
#[export] Instance round53_Proper : Proper (Qeq ==> eq) round53.
Proof. intros y z E. unfold round53. now rewrite (Qred_complete y z E). Qed.

(** ** Powers in [Q] *)

Section Powers.
Local Open Scope Q_scope.

(** [b^t] as a fraction of integers, by the sign of [t]. *)
Lemma Qpower_Z (b : positive) (t : Z) :
  inject_Z (Zpos b) ^ t == if (0 <=? t)%Z then inject_Z (Zpos b ^ t) else 1 # Z.to_pos (Zpos b ^ (- t)).
Proof.
  destruct (Z.leb_spec 0 t) as [Ht | Ht].
  - now rewrite Zpower_Qpower.
  - replace t with (- (- t))%Z at 1 by lia. rewrite Qpower_opp, <- Zpower_Qpower by lia.
    assert (Hp : (0 < Zpos b ^ (- t))%Z) by (apply Z.pow_pos_nonneg; lia).
    unfold Qinv, inject_Z. simpl Qnum. destruct (Zpos b ^ (- t))%Z eqn:E; [lia| |lia]. reflexivity.
Qed.

Lemma Qpower_pos (b : positive) (t : Z) : 0 < inject_Z (Zpos b) ^ t.
Proof. apply Qpower_0_lt. unfold Qlt. simpl. lia. Qed.

(** Comparisons of a power with a fraction, in [Z]. *)
Lemma Qpower_le_frac (b : positive) t p (q : positive) :
  inject_Z (Zpos b) ^ t <= p # q <->
  (if (0 <=? t)%Z then (Zpos q * Zpos b ^ t <= p)%Z else (Zpos q <= p * Zpos b ^ (- t))%Z).
Proof.
  rewrite Qpower_Z. destruct (Z.leb_spec 0 t); unfold Qle; simpl; [lia|].
  assert (Hp : (0 < Zpos b ^ (- t))%Z) by (apply Z.pow_pos_nonneg; lia).
  rewrite Z2Pos.id by exact Hp. lia.
Qed.

Lemma Qfrac_lt_power (b : positive) t p (q : positive) :
  p # q < inject_Z (Zpos b) ^ t <->
  (if (0 <=? t)%Z then (p < Zpos q * Zpos b ^ t)%Z else (p * Zpos b ^ (- t) < Zpos q)%Z).
Proof.
  rewrite Qpower_Z. destruct (Z.leb_spec 0 t); unfold Qlt; simpl; [lia|].
  assert (Hp : (0 < Zpos b ^ (- t))%Z) by (apply Z.pow_pos_nonneg; lia).
  rewrite Z2Pos.id by exact Hp. lia.
Qed.

Lemma pow_add (b x y : Z) : (0 <= x)%Z -> (0 <= y)%Z -> (b ^ (x + y) = b ^ x * b ^ y)%Z.
Proof. apply Z.pow_add_r. Qed.

Lemma pow10_ge (a : Z) : (1 <= a -> 10 <= 10 ^ a)%Z.
Proof. intros Ha. replace a with (1 + (a - 1))%Z by lia. rewrite Z.pow_add_r by lia. pose proof (Z.pow_pos_nonneg 10 (a - 1)). lia. Qed.

Lemma pow10_split (a b : Z) : (0 <= b <= a -> 10 ^ a = 10 ^ b * 10 ^ (a - b))%Z.
Proof. intros H. rewrite <- Z.pow_add_r by lia. f_equal. lia. Qed.

End Powers.

(** ** Rounding *)

Section Rounding.

Lemma round_half_even_spec n d :
  0 < d -> 2 * Z.abs (round_half_even n d * d - n) <= d.
Proof.
  intros Hd. unfold round_half_even.
  pose proof (Z.div_mod n d ltac:(lia)). pose proof (Z.mod_pos_bound n d Hd).
  destruct (Z.compare_spec (2 * (n mod d)) d); [destruct (Z.even (n / d))|..]; nia.
Qed.

Lemma round_half_even_lower n d k :
  0 < d -> k * d <= n -> k <= round_half_even n d.
Proof.
  intros Hd Hk. assert (k <= n / d) by (apply Z.div_le_lower_bound; lia).
  unfold round_half_even. destruct (Z.compare _ _); [destruct (Z.even _)|..]; lia.
Qed.

Lemma round_half_even_exact k d : 0 < d -> round_half_even (k * d) d = k.
Proof.
  intros Hd. unfold round_half_even. rewrite Z.div_mul, Z.mod_mul by lia.
  destruct (Z.compare_spec (2 * 0) d); [lia | reflexivity | lia].
Qed.

(** A fraction [p/q] whose numerator and denominator lie between powers
    [b^A <= p < b^(A+1)] and [b^B <= q < b^(B+1)] lies between
    [b^(A-B-1)] and [b^(A-B+1)]: one comparison with [b^(A-B)] finds its
    exponent. *)
Lemma power_bracket (b : positive) (p : Z) (q : positive) (A B : Z) :
  (1 < Zpos b)%Z -> (0 <= A)%Z -> (0 <= B)%Z ->
  (Zpos b ^ A <= p < Zpos b ^ (A + 1))%Z -> (Zpos b ^ B <= Zpos q < Zpos b ^ (B + 1))%Z ->
  (p # q < inject_Z (Zpos b) ^ (A - B + 1))%Q /\ (inject_Z (Zpos b) ^ (A - B - 1) <= p # q)%Q.
Proof.
  intros Hb HA HB [HA1 HA2] [HB1 HB2].
  rewrite Z.pow_add_r in HA2, HB2 by lia. rewrite Z.pow_1_r in HA2, HB2.
  split; [apply Qfrac_lt_power | apply Qpower_le_frac].
  - destruct (Z.leb_spec 0 (A - B + 1)).
    + assert (E1 : (Zpos b ^ (A + 1) = Zpos b ^ B * Zpos b ^ (A - B + 1))%Z)
        by (rewrite <- pow_add by lia; f_equal; lia).
      rewrite Z.pow_add_r, Z.pow_1_r in E1 by lia. nia.
    + assert (E1 : (Zpos b ^ B = Zpos b ^ (A + 1) * Zpos b ^ (- (A - B + 1)))%Z)
        by (rewrite <- pow_add by lia; f_equal; lia).
      rewrite Z.pow_add_r, Z.pow_1_r in E1 by lia. nia.
  - destruct (Z.leb_spec 0 (A - B - 1)).
    + assert (E1 : (Zpos b ^ A = Zpos b ^ (B + 1) * Zpos b ^ (A - B - 1))%Z)
        by (rewrite <- pow_add by lia; f_equal; lia).
      rewrite Z.pow_add_r, Z.pow_1_r in E1 by lia. nia.
    + assert (E1 : (Zpos b ^ (B + 1) = Zpos b ^ A * Zpos b ^ (- (A - B - 1)))%Z)
        by (rewrite <- pow_add by lia; f_equal; lia).
      rewrite Z.pow_add_r, Z.pow_1_r in E1 by lia. nia.
Qed.

(** The exponent found by one comparison with [b^t]. *)
Lemma exponent_by_compare (b : positive) (x : Q) (t : Z) :
  (x < inject_Z (Zpos b) ^ (t + 1))%Q -> (inject_Z (Zpos b) ^ (t - 1) <= x)%Q ->
  let n := if Qle_bool (inject_Z (Zpos b) ^ t) x then t else (t - 1)%Z in
  (inject_Z (Zpos b) ^ n <= x < inject_Z (Zpos b) ^ (n + 1))%Q.
Proof.
  intros Hhi Hlo n. unfold n. destruct (Qle_bool _ _) eqn:E.
  - apply Qle_bool_iff in E. auto.
  - assert (E' : ~ (inject_Z (Zpos b) ^ t <= x)%Q) by (intros H; apply Qle_bool_iff in H; congruence).
    apply Qnot_le_lt in E'. replace (t - 1 + 1)%Z with t by lia. auto.
Qed.

Lemma binade_spec a : (0 < a)%Q -> (2 ^ binade a <= a < 2 ^ (binade a + 1))%Q.
Proof.
  destruct a as [p q]. intros Ha. unfold Qlt in Ha. simpl in Ha.
  destruct (Z.log2_spec p ltac:(lia)) as [HA1 HA2]. destruct (Z.log2_spec (Zpos q) ltac:(lia)) as [HB1 HB2].
  rewrite <- Z.add_1_r in HA2, HB2.
  destruct (power_bracket 2 p q (Z.log2 p) (Z.log2 (Zpos q))) as [Hhi Hlo];
    [lia | apply Z.log2_nonneg | apply Z.log2_nonneg | lia | lia |].
  exact (exponent_by_compare 2 (p # q) _ Hhi Hlo).
Qed.

Lemma round_half_even_Q (u : Q) :
  (Qabs (inject_Z (round_half_even (Qnum u) (Zpos (Qden u))) - u) <= 1 # 2)%Q.
Proof.
  destruct u as [n d]. cbn [Qnum Qden].
  pose proof (round_half_even_spec n (Zpos d) ltac:(lia)) as H.
  set (M := round_half_even n (Zpos d)) in *.
  unfold Qminus, Qplus, Qopp, inject_Z, Qabs, Qle. cbn [Qnum Qden]. rewrite Pos.mul_1_l. lia.
Qed.

(** The value [round53] computes on a positive rational, with its
    mantissa [M] and exponent. *)
Lemma round53_pos y :
  (0 < y)%Q ->
  let e := (binade (Qred y) - 52)%Z in
  exists M, round53 y = (inject_Z M * 2 ^ e)%Q /\
    (Qabs (inject_Z M - Qred y / 2 ^ e) <= 1 # 2)%Q /\ (2 ^ 52 <= M)%Z.
Proof.
  intros Hy e. pose proof (Qred_correct y) as Hr.
  assert (Hy' : (0 < Qred y)%Q) by (rewrite Hr; exact Hy).
  unfold round53.
  replace (Qeq_bool (Qred y) 0) with false
    by (symmetry; apply not_true_iff_false; intros E; apply Qeq_bool_iff in E; rewrite E in Hy'; discriminate).
  replace (Qnum (Qred y) <? 0)%Z with false
    by (symmetry; apply Z.ltb_ge; destruct (Qred y) as [n d]; unfold Qlt in Hy'; simpl in *; lia).
  replace (Qabs (Qred y)) with (Qred y)
    by (destruct (Qred y) as [n d]; unfold Qlt in Hy'; simpl in *; f_equal; lia).
  fold e. eexists. split; [reflexivity|]. split; [apply round_half_even_Q|].
  set (u := (Qred y / 2 ^ e)%Q).
  destruct (binade_spec (Qred y) Hy') as [Hlo _].
  assert (Hu : (inject_Z (2 ^ 52) <= u)%Q).
  { unfold u. change (2 : Q) with (inject_Z (Zpos 2)).
    rewrite Zpower_Qpower by lia. apply Qle_shift_div_l; [apply Qpower_pos|].
    rewrite <- Qpower_plus by discriminate. unfold e. now replace (52 + (binade (Qred y) - 52))%Z with (binade (Qred y)) by lia. }
  destruct u as [n d]. cbn [Qnum Qden].
  apply round_half_even_lower; [lia|]. unfold Qle in Hu. simpl in Hu. lia.
Qed.

Lemma round53_Qeq y z : (y == z)%Q -> round53 y = round53 z.
Proof. apply round53_Proper. Qed.


Lemma round53_zero y : (y == 0)%Q -> round53 y = 0%Q.
Proof. intros E. rewrite (round53_Qeq y 0 E). reflexivity. Qed.

Local Open Scope Q_scope.

Lemma binade_red y : 0 < y -> 2 ^ binade (Qred y) <= y /\ y < 2 ^ (binade (Qred y) + 1).
Proof.
  intros Hy. assert (Hr : 0 < Qred y) by (rewrite Qred_correct; exact Hy).
  destruct (binade_spec _ Hr) as [H1 H2]. split.
  - eapply Qle_trans; [exact H1|]. apply Qle_lteq. right. apply Qred_correct.
  - eapply Qle_lt_trans; [|exact H2]. apply Qle_lteq. right. apply Qeq_sym, Qred_correct.
Qed.

(** The rounding error is at most half a unit in the last place. *)
Lemma round53_err y : 0 < y -> Qabs (round53 y - y) <= 2 ^ (binade (Qred y) - 53).
Proof.
  intros Hy. destruct (round53_pos y Hy) as (M & -> & HM & _).
  set (P := (2 : Q) ^ (binade (Qred y) - 52)).
  assert (HP : 0 < P) by apply (Qpower_pos 2).
  assert (E : inject_Z M * P - y == (inject_Z M - Qred y / P) * P).
  { rewrite Qred_correct. field. intros H; rewrite H in HP; discriminate. }
  rewrite E, Qabs_Qmult, (Qabs_pos P) by (apply Qlt_le_weak; exact HP).
  assert (E2 : 2 ^ (binade (Qred y) - 53) == (1 # 2) * P).
  { unfold P. replace (binade (Qred y) - 52)%Z with (binade (Qred y) - 53 + 1)%Z by lia.
    rewrite Qpower_plus by discriminate. change ((2:Q) ^ 1) with (2:Q). field. }
  rewrite E2. apply Qmult_le_compat_r; [exact HM | apply Qlt_le_weak; exact HP].
Qed.

Lemma round53_lower y : 0 < y -> 2 ^ binade (Qred y) <= round53 y.
Proof.
  intros Hy. destruct (round53_pos y Hy) as (M & -> & _ & HM).
  replace (binade (Qred y)) with (52 + (binade (Qred y) - 52))%Z at 1 by lia.
  rewrite Qpower_plus by discriminate. apply Qmult_le_compat_r; [|apply Qpower_0_le; discriminate].
  change (2 : Q) with (inject_Z 2). rewrite <- Zpower_Qpower by lia. now rewrite <- Zle_Qle.
Qed.

Lemma round53_pos_lt y : 0 < y -> 0 < round53 y.
Proof. intros Hy. eapply Qlt_le_trans; [apply (Qpower_pos 2) | exact (round53_lower y Hy)]. Qed.

(** The relative error is at most [2^-53]. *)
Lemma round53_rel y : 0 < y -> Qabs (round53 y - y) <= y / 2 ^ 53.
Proof.
  intros Hy. eapply Qle_trans; [exact (round53_err y Hy)|].
  destruct (binade_red y Hy) as [Hb _]. rewrite Qpower_minus by discriminate.
  apply Qmult_le_compat_r; [exact Hb | apply Qlt_le_weak, Qinv_lt_0_compat; reflexivity].
Qed.

(** Rounding does not cross a power of two downwards. *)
Lemma round53_ge_pow y c : 0 < y -> 2 ^ c <= y -> 2 ^ c <= round53 y.
Proof.
  intros Hy Hc. eapply Qle_trans; [|exact (round53_lower y Hy)].
  destruct (binade_red y Hy) as [_ Hb].
  apply Qpower_le_compat_l; [|unfold Qle; simpl; lia].
  assert (2 ^ c < 2 ^ (binade (Qred y) + 1)) by (eapply Qle_lt_trans; eauto).
  apply Qpower_lt_compat_l_inv in H; [lia | unfold Qlt; simpl; lia].
Qed.

(** A BigInt below [2^53] converts to a double exactly. *)
Lemma round53_int (b : Z) : (0 <= b < 2 ^ 53)%Z -> round53 (inject_Z b) == inject_Z b.
Proof.
  intros Hb. destruct (Z.eq_dec b 0) as [->|Hb0]; [now rewrite round53_zero|].
  assert (Hy : 0 < inject_Z b) by (change 0 with (inject_Z 0); rewrite <- Zlt_Qlt; lia).
  destruct (binade_red _ Hy) as [Hlo Hhi].
  set (e := (binade (Qred (inject_Z b)) - 52)%Z).
  assert (He : (e <= 0)%Z).
  { assert (H53 : 2 ^ binade (Qred (inject_Z b)) < 2 ^ 53).
    { eapply Qle_lt_trans; [exact Hlo|]. change (2 : Q) with (inject_Z 2).
      rewrite <- Zpower_Qpower by lia. rewrite <- Zlt_Qlt; lia. }
    apply Qpower_lt_compat_l_inv in H53; [unfold e; lia | unfold Qlt; simpl; lia]. }
  destruct (round53_pos _ Hy) as (M & -> & HM & _). fold e in HM |- *.
  set (K := (b * 2 ^ (- e))%Z).
  assert (EK : Qred (inject_Z b) / 2 ^ e == inject_Z K).
  { unfold K. rewrite Qred_correct, inject_Z_mult. change (2 : Q) with (inject_Z 2).
    rewrite Zpower_Qpower by lia. rewrite Qpower_opp. reflexivity. }
  rewrite EK in HM.
  assert (M = K) as ->.
  { unfold Qminus, Qplus, Qopp, Qabs, inject_Z, Qle in HM. simpl in HM. lia. }
  unfold K. rewrite inject_Z_mult. change (2 : Q) with (inject_Z 2).
  rewrite Zpower_Qpower by lia. rewrite Qpower_opp. field.
  apply Qpower_not_0. discriminate.
Qed.

(** Below [2^c] the rounding error is at most [2^(c-54)]. *)
Lemma round53_err_below y c : 0 < y -> y < 2 ^ c -> Qabs (round53 y - y) <= 2 ^ (c - 54).
Proof.
  intros Hy Hc. eapply Qle_trans; [exact (round53_err y Hy)|].
  destruct (binade_red y Hy) as [Hb _].
  assert (H : 2 ^ binade (Qred y) < 2 ^ c) by (eapply Qle_lt_trans; eauto).
  apply Qpower_lt_compat_l_inv in H; [|unfold Qlt; simpl; lia].
  apply Qpower_le_compat_l; [lia | unfold Qle; simpl; lia].
Qed.

End Rounding.

(** ** Decimal digits and exponents *)

Section Digits.

Lemma ndigits_spec s : 0 < s -> 10 ^ (ndigits s - 1) <= s < 10 ^ ndigits s /\ 1 <= ndigits s.
Proof.
  intros Hs. unfold ndigits. destruct (bigint_to_string_canonical s ltac:(lia)) as [Hc Hv].
  pose proof (dval_bound _ (canonical_digits _ Hc)) as Hb. rewrite Hv in Hb.
  destruct (bigint_to_string s) as [|c r] eqn:E; [discriminate|]. cbn [String.length] in *.
  rewrite Nat2Z.inj_succ. split; [split|lia]; [|lia].
  destruct r as [|c' r'].
  - cbn. lia.
  - pose proof (canonical_lower c (String c' r') Hc ltac:(discriminate)). rewrite Hv in H.
    replace (Z.succ (Z.of_nat (String.length (String c' r'))) - 1) with (Z.of_nat (String.length (String c' r'))) by lia.
    exact H.
Qed.

Lemma dec_exp_spec x : (0 < x)%Q -> (10 ^ (dec_exp x - 1) <= x < 10 ^ dec_exp x)%Q.
Proof.
  destruct x as [p q]. intros Hx. unfold Qlt in Hx. simpl in Hx.
  destruct (ndigits_spec p ltac:(lia)) as [[HA1 HA2] HA]. destruct (ndigits_spec (Zpos q) ltac:(lia)) as [[HB1 HB2] HB].
  destruct (power_bracket 10 p q (ndigits p - 1) (ndigits (Zpos q) - 1)) as [Hhi Hlo];
    [lia | lia | lia | now replace (ndigits p - 1 + 1) with (ndigits p) by lia
    | now replace (ndigits (Zpos q) - 1 + 1) with (ndigits (Zpos q)) by lia |].
  replace (ndigits p - 1 - (ndigits (Zpos q) - 1)) with (ndigits p - ndigits (Zpos q)) in Hhi, Hlo by lia.
  pose proof (exponent_by_compare 10 (p # q) _ Hhi Hlo) as H. cbv zeta in H.
  unfold dec_exp. cbn [Qnum Qden]. change (10 : Q) with (inject_Z (Zpos 10)) in *.
  destruct (Qle_bool _ _); [now replace (ndigits p - ndigits (Zpos q) + 1 - 1) with (ndigits p - ndigits (Zpos q)) by lia|].
  now replace (ndigits p - ndigits (Zpos q) - 1 + 1) with (ndigits p - ndigits (Zpos q)) in H by lia.
Qed.

End Digits.

(** ** Shortest decimals of an amount of microETH

    [m = s0 * 10^z] with [s0] of [k0] digits, not a multiple of ten.  The
    decimal [s * 10^j] of at most [k0] digits, scaled by [10^7], is
    [T = s * 10^(j+7)]; the amount scaled the same way is
    [D = s0 * 10^(z+1)]. *)

Section Uniqueness.
Context (s0 z k0 : Z) (Hs0 : 10 ^ (k0 - 1) <= s0 < 10 ^ k0) (Hk0 : 1 <= k0)
        (Hd : s0 mod 10 <> 0) (Hz : 0 <= z).

Lemma not_mul10 (c : Z) (a : Z) : 1 <= a -> s0 <> c * 10 ^ a.
Proof.
  intros Ha E. apply Hd. rewrite E, (pow10_split a 1) by lia. rewrite Z.pow_1_r.
  replace (c * (10 * 10 ^ (a - 1))) with (c * 10 ^ (a - 1) * 10) by ring. apply Z.mod_mul. lia.
Qed.

Lemma s0_power_of_ten : s0 = 10 ^ (k0 - 1) -> k0 = 1.
Proof.
  intros E. destruct (Z.eq_dec k0 1) as [|Hk]; [assumption|].
  exfalso. apply (not_mul10 1 (k0 - 1)); [lia|]. lia.
Qed.

(** A decimal within [10^-6] of the amount, and within its relative
    rounding error, is the amount. *)
Lemma scaled_unique s j k :
  1 <= s <= 10 ^ k -> 1 <= k <= k0 -> 0 <= j + 7 ->
  Z.abs (s * 10 ^ (j + 7) - s0 * 10 ^ (z + 1)) < 10 ->
  Z.abs (s * 10 ^ (j + 7) - s0 * 10 ^ (z + 1)) * 2 ^ 53 <= s * 10 ^ (j + 7) + s0 * 10 ^ (z + 1) ->
  s * 10 ^ (j + 7) = s0 * 10 ^ (z + 1).
Proof.
  intros Hs Hk Hj Habs Hrel.
  set (A := j + 7) in *. set (B := z + 1) in *.
  assert (HB : 10 <= 10 ^ B) by (apply pow10_ge; lia).
  destruct (Z_le_gt_dec B A) as [HAB | HAB].
  - rewrite (pow10_split A B) in * by lia.
    assert (H0 : 0 < 10 ^ (A - B)) by (apply Z.pow_pos_nonneg; lia).
    set (c := s * 10 ^ (A - B) - s0).
    replace (s * (10 ^ B * 10 ^ (A - B)) - s0 * 10 ^ B) with (c * 10 ^ B) in * by (unfold c; ring).
    rewrite Z.abs_mul, (Z.abs_eq (10 ^ B)) in Habs by lia.
    assert (c = 0) by nia. unfold c in *. nia.
  - (* [A < B]: the decimal has a lower exponent, so fewer leading digits. *)
    assert (Hk1 : 10 ^ (k0 - 1) * 10 ^ B <= s0 * 10 ^ B) by nia.
    destruct (Z.eq_dec (k + A) (k0 + B - 1)) as [Hmax | Hlow].
    + (* one digit less on the left: [k = k0] and [A = B - 1] *)
      assert (k = k0 /\ A = B - 1) as [-> HA] by lia.
      rewrite (pow10_split B A) in * by lia. replace (B - A) with 1 in * by lia. rewrite Z.pow_1_r in *.
      assert (HA0 : 0 < 10 ^ A) by (apply Z.pow_pos_nonneg; lia).
      set (c := s - 10 * s0).
      replace (s * 10 ^ A - s0 * (10 ^ A * 10)) with (c * 10 ^ A) in * by (unfold c; ring).
      rewrite Z.abs_mul, (Z.abs_eq (10 ^ A)) in Habs, Hrel by lia.
      destruct (Z.eq_dec A 0) as [HA0' | HAn].
      * rewrite HA0', Z.pow_0_r in *.
        assert (Hs10 : 10 ^ k0 <= 10 * s0) by (rewrite (pow10_split k0 1) by lia; rewrite Z.pow_1_r in *; nia).
        destruct (Z.eq_dec s0 (10 ^ (k0 - 1))) as [Es | Ns].
        -- pose proof (s0_power_of_ten Es) as ->. rewrite Es in *. cbn in *. unfold c in *. nia.
        -- assert (Hs10' : 10 ^ k0 + 10 <= 10 * s0).
           { rewrite (pow10_split k0 1) by lia. rewrite Z.pow_1_r. replace (k0 - 1) with (k0 - 1) by lia. lia. }
           unfold c in *. lia.
      * assert (10 <= 10 ^ A) by (apply pow10_ge; lia). assert (c = 0) by nia. unfold c in *. nia.
    + (* two digits less on the left: the decimal is below a tenth of the amount *)
      assert (Hlt : k + A <= k0 + B - 2) by lia.
      assert (HT : s * 10 ^ A <= 10 ^ (k0 + B - 2)).
      { transitivity (10 ^ (k + A)); [rewrite Z.pow_add_r by lia; nia | apply Z.pow_le_mono_r; lia]. }
      assert (HD : 10 * 10 ^ (k0 + B - 2) <= s0 * 10 ^ B).
      { replace (k0 + B - 2) with ((k0 - 1) + B - 1) by lia.
        rewrite <- (Z.pow_1_r 10) at 1. rewrite <- Z.pow_add_r by lia. replace (1 + (k0 - 1 + B - 1)) with (k0 - 1 + B) by lia.
        rewrite Z.pow_add_r by lia. exact Hk1. }
      rewrite Z.abs_neq in Hrel by lia.
      assert (H2 : 2 ^ 53 = 9007199254740992) by reflexivity. lia.
Qed.

(** Equal values: the decimal is the amount's own digits, or ten times
    the power of ten [10^(z-6)] written one place lower. *)
Lemma scaled_digits s j k :
  1 <= s <= 10 ^ k -> 1 <= k <= k0 -> 0 <= j + 7 -> s * 10 ^ (j + 7) = s0 * 10 ^ (z + 1) ->
  (s = s0 /\ j = z - 6 /\ k = k0) \/ (s = 10 ^ k /\ k = 1 /\ k0 = 1 /\ s0 = 1 /\ j = z - 7).
Proof.
  intros Hs Hk Hj E. set (A := j + 7) in *. set (B := z + 1) in *.
  assert (Hpk : 10 ^ k <= 10 ^ k0) by (apply Z.pow_le_mono_r; lia).
  destruct (Z.lt_trichotomy A B) as [HAB | [HAB | HAB]].
  - rewrite (pow10_split B A) in E by lia.
    assert (HA : 0 < 10 ^ A) by (apply Z.pow_pos_nonneg; lia).
    assert (Es : s = s0 * 10 ^ (B - A)) by nia.
    assert (H10 : 10 <= 10 ^ (B - A)) by (apply pow10_ge; lia).
    assert (Hk0p : 10 ^ k0 = 10 ^ (k0 - 1) * 10) by (rewrite (pow10_split k0 (k0 - 1)) by lia; f_equal; now replace (k0 - (k0 - 1)) with 1 by lia).
    assert (HBA : 10 ^ (B - A) = 10) by nia.
    assert (Hs0e : s0 = 10 ^ (k0 - 1)) by nia.
    pose proof (s0_power_of_ten Hs0e) as Hk1. rewrite Hk1 in Hs0e. cbn in Hs0e.
    assert (B - A = 1).
    { destruct (Z.eq_dec (B - A) 1); [assumption|]. exfalso.
      rewrite (pow10_split (B - A) 2) in HBA by lia. cbn in HBA.
      pose proof (Z.pow_pos_nonneg 10 (B - A - 2)). lia. }
    right. assert (k = 1) by lia. subst k. rewrite Hs0e in Es. repeat split; try lia.
  - left. rewrite HAB in E. assert (HB : 0 < 10 ^ B) by (apply Z.pow_pos_nonneg; lia).
    assert (s = s0) as -> by nia. repeat split; [lia|].
    destruct (Z.eq_dec k k0) as [|Hne]; [assumption|].
    assert (Hle : 10 ^ k <= 10 ^ (k0 - 1)) by (apply Z.pow_le_mono_r; lia).
    assert (s0 = 10 ^ (k0 - 1)) as Hs0e by lia. pose proof (s0_power_of_ten Hs0e). lia.
  - exfalso. rewrite (pow10_split A B) in E by lia.
    assert (HB : 0 < 10 ^ B) by (apply Z.pow_pos_nonneg; lia).
    apply (not_mul10 s (A - B)); [lia | nia].
Qed.

End Uniqueness.

(** ** The search for the shortest digits *)

Section Search.
Local Open Scope Q_scope.

(** A power of ten of exponent at least [-6], in millionths. *)
Lemma pow10_frac t : (0 <= 6 + t)%Z -> 10 ^ t == (10 ^ (6 + t) # 1000000).
Proof.
  intros Ht. change (10 : Q) with (inject_Z (Zpos 10)). rewrite Qpower_Z.
  destruct (Z.leb_spec 0 t).
  - unfold Qeq. simpl. rewrite (Z.pow_add_r 10 6 t) by lia. lia.
  - assert (Hp : (0 < 10 ^ (- t))%Z) by (apply Z.pow_pos_nonneg; lia).
    unfold Qeq. simpl. rewrite Z2Pos.id by exact Hp.
    assert (E : (10 ^ 6 = 10 ^ (6 + t) * 10 ^ (- t))%Z) by (rewrite <- Z.pow_add_r by lia; f_equal; lia).
    cbn in E. lia.
Qed.

Lemma Qfloor_bounds (q : Q) (a b : Z) : inject_Z a <= q -> q < inject_Z b -> (a <= Qfloor q < b)%Z.
Proof.
  intros Ha Hb. split.
  - rewrite <- (Qfloor_Z a). now apply Qfloor_resp_le.
  - pose proof (Qfloor_le q). rewrite Zlt_Qlt. eapply Qle_lt_trans; eauto.
Qed.

(** The floor of [x / 10^(nx - k)] has [k] digits. *)
Lemma sf_bounds x nx k :
  10 ^ (nx - 1) <= x < 10 ^ nx -> (1 <= k)%Z ->
  (10 ^ (k - 1) <= Qfloor (x / 10 ^ (nx - k)) < 10 ^ k)%Z.
Proof.
  intros [Hlo Hhi] Hk. apply Qfloor_bounds.
  - change (10 : Q) with (inject_Z 10). rewrite Zpower_Qpower by lia.
    apply Qle_shift_div_l; [apply (Qpower_pos 10)|]. rewrite <- Qpower_plus by discriminate.
    now replace (k - 1 + (nx - k))%Z with (nx - 1)%Z by lia.
  - change (10 : Q) with (inject_Z 10). rewrite Zpower_Qpower by lia.
    apply Qlt_shift_div_r; [apply (Qpower_pos 10)|]. rewrite <- Qpower_plus by discriminate.
    now replace (k + (nx - k))%Z with nx by lia.
Qed.

Lemma pick_ok x j s :
  pick x j = Some s ->
  cand_ok x s j = true /\ (s = Qfloor (x / 10 ^ j) \/ s = Qfloor (x / 10 ^ j) + 1)%Z.
Proof.
  unfold pick. destruct (cand_ok x _ j) eqn:E1, (cand_ok x (_ + 1) j) eqn:E2;
    try destruct (Qcompare _ _); try destruct (Z.even _); intros [= <-]; auto.
Qed.

Lemma pick_found x j s :
  cand_ok x s j = true -> (s = Qfloor (x / 10 ^ j) \/ s = Qfloor (x / 10 ^ j) + 1)%Z ->
  exists s', pick x j = Some s'.
Proof.
  unfold pick. intros Hc Hs.
  destruct (cand_ok x (Qfloor (x / 10 ^ j)) j) eqn:E1, (cand_ok x (Qfloor (x / 10 ^ j) + 1) j) eqn:E2;
    try destruct (Qcompare _ _); try destruct (Z.even _); eauto.
  destruct Hs as [-> | ->]; congruence.
Qed.

(** The loop stops at the first [k] with a candidate, within its fuel. *)
Lemma shortest_from_spec x nx k k0 fuel s :
  (k <= k0)%Z -> (Z.to_nat (k0 - k) < fuel)%nat ->
  (forall k', (k <= k' < k0)%Z -> pick x (nx - k') = None) ->
  pick x (nx - k0) = Some s ->
  shortest_from x nx k fuel =
    if (s =? 10 ^ k0)%Z then (10 ^ (k0 - 1), k0, nx + 1)%Z else (s, k0, nx).
Proof.
  revert k. induction fuel as [|fuel IH]; intros k Hk Hf Hnone Hs; [lia|].
  cbn [shortest_from]. destruct (Z.eq_dec k k0) as [->|Hne].
  - now rewrite Hs.
  - rewrite Hnone by lia. apply IH; [lia | lia | intros; apply Hnone; lia | exact Hs].
Qed.

End Search.

(** ** Digit strings *)

Section Strings.
#[local] Arguments String.append : simpl nomatch.
Local Open Scope string_scope.

Lemma substring_all s : substring 0 (String.length s) s = s.
Proof. induction s as [|c r IH]; cbn; [easy | now rewrite IH]. Qed.

Lemma substring_split n s :
  (n <= String.length s)%nat -> substring 0 n s ++ substring n (String.length s - n) s = s.
Proof.
  revert n. induction s as [|c r IH]; intros n Hn.
  - cbn in Hn. replace n with 0%nat by lia. reflexivity.
  - destruct n as [|n].
    + rewrite Nat.sub_0_r. exact (substring_all (String c r)).
    + cbn [substring String.length append]. f_equal. cbn in Hn. apply IH. lia.
Qed.

Lemma substring_length n s : (n <= String.length s)%nat -> String.length (substring 0 n s) = n.
Proof.
  revert n. induction s as [|c r IH]; intros n Hn.
  - cbn in Hn. replace n with 0%nat by lia. reflexivity.
  - destruct n as [|n]; [reflexivity|]. cbn [substring String.length]. f_equal. apply IH. cbn in Hn. lia.
Qed.

Lemma substring_app_l n P Q :
  (n <= String.length P)%nat ->
  substring n (String.length (P ++ Q) - n) (P ++ Q) = substring n (String.length P - n) P ++ Q.
Proof.
  revert n. induction P as [|c r IH]; intros n Hn.
  - cbn in Hn. replace n with 0%nat by lia. cbn. rewrite Nat.sub_0_r. now rewrite substring_all.
  - destruct n as [|n].
    + rewrite !Nat.sub_0_r, !substring_all. reflexivity.
    + cbn [append substring String.length]. apply IH. cbn in Hn. lia.
Qed.

Lemma strip_last_nonzero f c :
  Ascii.eqb c "0"%char = false -> strip_trailing_zeros (f ++ String c "") = f ++ String c "".
Proof.
  intros Hc. induction f as [|c' r IH]; cbn [append strip_trailing_zeros].
  - rewrite Hc. reflexivity.
  - rewrite IH. destruct r; reflexivity.
Qed.

Lemma repeat_char_length k c : String.length (repeat_char k c) = k.
Proof. induction k as [|k IH]; cbn; [easy | now rewrite IH]. Qed.

Lemma display_head s :
  (exists c r, s = String c r /\ is_digit c = true) ->
  display_ok s = body_ok false s /\ parseCcoinUnits s = parse_unsigned s.
Proof.
  intros (c & r & -> & Hc). cbn [display_ok parseCcoinUnits]. rewrite is_digit_not_minus by exact Hc.
  split; reflexivity.
Qed.

Lemma canonical_head w rest :
  canonical w = true -> exists c r, w ++ rest = String c r /\ is_digit c = true.
Proof.
  intros Hw. destruct w as [|c r]; [discriminate|]. exists c, (r ++ rest). split; [reflexivity|].
  apply canonical_digits in Hw. cbn in Hw. now apply Bool.andb_true_iff in Hw as [? _].
Qed.

(** The two displays [formatCcoinUnits] can print: a whole number, or a
    whole part, a dot and a fraction. *)
Lemma whole_display w :
  canonical w = true -> display_ok w = true /\ parseCcoinUnits w = Some (dval w * 1000000)%Z.
Proof.
  intros Hw. pose proof (canonical_digits _ Hw) as Wa.
  assert (Hs : split_dot w = (w, None)).
  { rewrite <- (append_nil w) at 1. rewrite split_dot_digits by exact Wa. cbn. now rewrite append_nil. }
  destruct (display_head w) as [-> ->]; [rewrite <- (append_nil w); now apply canonical_head|].
  unfold body_ok, parse_unsigned. rewrite Hs, Hw, Wa.
  destruct w; [discriminate | split; reflexivity].
Qed.

Lemma frac_display w f :
  canonical w = true -> frac_ok f = true ->
  display_ok (w ++ "." ++ f) = true /\
  parseCcoinUnits (w ++ "." ++ f) = Some (dval w * 1000000 + frac_units f)%Z.
Proof.
  intros Hw Hf. pose proof (canonical_digits _ Hw) as Wa.
  destruct (frac_ok_spec f Hf) as (Fa & Fne & Fl & _).
  assert (Hs : split_dot (w ++ "." ++ f) = (w, Some f)).
  { rewrite split_dot_digits by exact Wa. cbn. now rewrite append_nil. }
  destruct (display_head (w ++ "." ++ f)) as [-> ->]; [now apply canonical_head|].
  unfold body_ok, parse_unsigned. rewrite Hs, Hw, Hf, Wa, Fa. split; [reflexivity|].
  destruct w; [discriminate|]. cbn [negb orb String.eqb andb].
  replace (1 <=? String.length f)%nat with true by (symmetry; apply Nat.leb_le; destruct f; [easy | cbn; lia]).
  replace (String.length f <=? 6)%nat with true by (symmetry; apply Nat.leb_le; exact Fl).
  reflexivity.
Qed.

Lemma append_assoc (a b c : string) : (a ++ b) ++ c = a ++ b ++ c.
Proof. induction a as [|ch a IH]; cbn; [easy | now rewrite IH]. Qed.

(** The last digit of a numeral. *)
Lemma bigint_to_string_last n :
  (0 <= n)%Z -> exists P, bigint_to_string n = P ++ String (digit_char (n mod 10)) "".
Proof.
  intros Hn. unfold bigint_to_string.
  rewrite digits_fuel_to_decimal by (split; [lia | apply log2_fuel_bound; lia]).
  revert Hn. funelim (to_decimal n); intros Hn.
  - exists "". rewrite Z.mod_small by lia. reflexivity.
  - eexists. reflexivity.
Qed.

Lemma digit_char_nonzero r : (0 < r < 10)%Z -> Ascii.eqb (digit_char r) "0"%char = false.
Proof.
  intros Hr. destruct (digit_char_spec r ltac:(lia)) as [Hv _].
  destruct (Ascii.eqb_spec (digit_char r) "0"%char) as [E|]; [|reflexivity].
  rewrite E in Hv. change (char_digit "0"%char) with 0%Z in Hv. lia.
Qed.

(** Zeros after a numeral of a non-zero value keep it canonical. *)
Lemma canonical_app_zeros w k :
  canonical w = true -> dval w <> 0%Z -> canonical (w ++ repeat_char k "0"%char) = true.
Proof.
  intros Hw Hv. destruct w as [|c r]; [discriminate|].
  destruct (repeat_zero_spec k) as (Za & _ & _).
  assert (Hc : Ascii.eqb c "0"%char = false).
  { destruct (Ascii.eqb_spec c "0"%char) as [->|]; [|reflexivity]. exfalso. apply Hv.
    cbn in Hw. apply Bool.andb_true_iff in Hw as [_ Hr]. apply String.eqb_eq in Hr. subst r. reflexivity. }
  cbn [append canonical]. change (all_digits (String c (r ++ repeat_char k "0"%char)))
    with (all_digits (String c r ++ repeat_char k "0"%char)).
  rewrite all_digits_app, (canonical_digits _ Hw), Za, Hc. reflexivity.
Qed.

End Strings.

(** ** The double [microEth / 10^6] *)

Section Exact.
Context (m s0 z : Z) (Hm : 0 < m < 2 ^ 33 * 10 ^ 6) (Hmz : m = s0 * 10 ^ z)
        (Hd : s0 mod 10 <> 0) (Hz : 0 <= z) (Hs0 : 0 < s0).
Local Open Scope Q_scope.

#[local] Abbreviation d := (m # 1000000).
#[local] Abbreviation x := (round53 (m # 1000000)).

Lemma d_pos : 0 < d.
Proof. unfold Qlt. simpl. lia. Qed.

Lemma d_below : d + (1 # 1000000) <= 8589934592.
Proof. unfold Qplus, Qle. simpl. lia. Qed.

Lemma pow2_33 : (2 : Q) ^ 33 == 8589934592.
Proof. reflexivity. Qed.

Lemma x_err : Qabs (x - d) <= 1 # 2097152.
Proof.
  change (1 # 2097152) with ((2 : Q) ^ (33 - 54)).
  apply round53_err_below; [exact d_pos|]. rewrite pow2_33. pose proof d_below. lra.
Qed.

Lemma x_pos : 0 < x.
Proof. exact (round53_pos_lt _ d_pos). Qed.

Lemma x_below : x < 2 ^ 33.
Proof.
  rewrite pow2_33. pose proof x_err as H. apply Qabs_diff_Qle_condition in H.
  pose proof d_below. lra.
Qed.

(** A positive rational that rounds to [x] is within [2^-20] of [d],
    and within the sum of their relative errors. *)
Lemma cand_err t :
  0 < t -> round53 t == x ->
  Qabs (t - d) <= 1 # 1048576 /\ Qabs (t - d) * 9007199254740992 <= t + d.
Proof.
  intros Ht Hr.
  assert (Ht33 : t < 2 ^ 33).
  { apply Qnot_le_lt. intros Hge. pose proof (round53_ge_pow t 33 Ht Hge). rewrite Hr in H.
    pose proof x_below. lra. }
  pose proof (round53_err_below t 33 Ht Ht33) as Et. rewrite Hr in Et.
  change ((2 : Q) ^ (33 - 54)) with (1 # 2097152) in Et.
  pose proof x_err as Ex.
  pose proof (round53_rel t Ht) as Rt. rewrite Hr in Rt.
  pose proof (round53_rel _ d_pos) as Rd.
  change ((2 : Q) ^ 53) with (9007199254740992 : Q) in Rt, Rd.
  apply Qabs_diff_Qle_condition in Et, Ex, Rt, Rd.
  unfold Qdiv in Rt, Rd. change (/ 9007199254740992) with (1 # 9007199254740992) in Rt, Rd.
  split; [apply Qabs_Qle_condition; lra|].
  assert (H2 : Qabs (t - d) <= (t + d) / 9007199254740992).
  { unfold Qdiv. change (/ 9007199254740992) with (1 # 9007199254740992). apply Qabs_Qle_condition; lra. }
  apply Qle_trans with ((t + d) / 9007199254740992 * 9007199254740992).
  - apply Qmult_le_compat_r; [exact H2 | discriminate].
  - apply Qle_lteq. right. field.
Qed.

Lemma scale7 s j : (0 <= j + 7)%Z -> dec s j * 10000000 == inject_Z (s * 10 ^ (j + 7)).
Proof.
  intros Hj. unfold dec. rewrite inject_Z_mult. change (10 : Q) with (inject_Z 10).
  rewrite Zpower_Qpower by exact Hj. rewrite Qpower_plus by discriminate.
  change (inject_Z 10 ^ 7) with (10000000 : Q). ring.
Qed.

Lemma d_scale7 : d * 10000000 == inject_Z (s0 * 10 ^ (z + 1)).
Proof.
  rewrite Z.pow_add_r, Z.pow_1_r by lia.
  replace (s0 * (10 ^ z * 10))%Z with (m * 10)%Z by (rewrite Hmz; ring).
  unfold Qeq. simpl. lia.
Qed.

(** A candidate of at most [k0] digits and exponent at least [-7] that
    rounds to [x] has the value of [d]. *)
Lemma cand_value s j k :
  (1 <= s <= 10 ^ k)%Z -> (1 <= k <= ndigits s0)%Z -> (0 <= j + 7)%Z ->
  cand_ok x s j = true -> (s * 10 ^ (j + 7) = s0 * 10 ^ (z + 1))%Z.
Proof.
  intros Hs Hk Hj Hc. apply Qeq_bool_iff in Hc.
  assert (Ht : 0 < dec s j).
  { unfold dec. apply Qmult_lt_0_compat; [|apply (Qpower_pos 10)]. change 0 with (inject_Z 0). rewrite <- Zlt_Qlt. lia. }
  destruct (cand_err _ Ht Hc) as [Ha Hr].
  destruct (ndigits_spec s0 Hs0) as [Hb _].
  apply (scaled_unique s0 z (ndigits s0)) with (k := k); try lia.
  - assert (H : Qabs ((dec s j - d) * 10000000) <= 10000000 # 1048576).
    { rewrite Qabs_Qmult. change (Qabs 10000000) with (10000000 : Q).
      apply Qle_trans with ((1 # 1048576) * 10000000); [apply Qmult_le_compat_r; [exact Ha | discriminate] | apply Qle_refl]. }
    setoid_replace ((dec s j - d) * 10000000) with (inject_Z (s * 10 ^ (j + 7) - s0 * 10 ^ (z + 1))) using relation Qeq in H
      by (unfold Z.sub; rewrite inject_Z_plus, inject_Z_opp, <- scale7, <- d_scale7 by exact Hj; ring).
    unfold Qabs, inject_Z, Qle in H. simpl in H. lia.
  - assert (H : Qabs ((dec s j - d) * 10000000) * 9007199254740992 <= (dec s j + d) * 10000000).
    { rewrite Qabs_Qmult. change (Qabs 10000000) with (10000000 : Q).
      setoid_replace (Qabs (dec s j - d) * 10000000 * 9007199254740992) with (Qabs (dec s j - d) * 9007199254740992 * 10000000) using relation Qeq by ring.
      apply Qmult_le_compat_r; [exact Hr | discriminate]. }
    setoid_replace ((dec s j - d) * 10000000) with (inject_Z (s * 10 ^ (j + 7) - s0 * 10 ^ (z + 1))) using relation Qeq in H
      by (unfold Z.sub; rewrite inject_Z_plus, inject_Z_opp, <- scale7, <- d_scale7 by exact Hj; ring).
    setoid_replace ((dec s j + d) * 10000000) with (inject_Z (s * 10 ^ (j + 7) + s0 * 10 ^ (z + 1))) using relation Qeq in H
      by (rewrite inject_Z_plus, <- scale7, <- d_scale7 by exact Hj; ring).
    unfold Qabs, inject_Z, Qmult, Qle in H. simpl in H. lia.
Qed.

#[local] Abbreviation k0 := (ndigits s0).
#[local] Abbreviation nd := (ndigits s0 + z - 6)%Z.

Lemma s0_digits : (10 ^ (k0 - 1) <= s0 < 10 ^ k0 /\ 1 <= k0 <= 16)%Z.
Proof.
  destruct (ndigits_spec s0 Hs0) as [Hb Hk]. split; [exact Hb|]. split; [exact Hk|].
  assert (s0 <= m)%Z by (rewrite Hmz; pose proof (Z.pow_pos_nonneg 10 z); nia).
  assert (10 ^ (k0 - 1) < 10 ^ 16)%Z by (cbn in Hm |- *; lia).
  apply Z.pow_lt_mono_r_iff in H0; lia.
Qed.

Lemma d_bounds : 10 ^ (nd - 1) <= d /\ d + (1 # 1000000) <= 10 ^ nd.
Proof.
  destruct s0_digits as [[Hlo Hhi] Hk].
  assert (Hz' : (0 < 10 ^ z)%Z) by (apply Z.pow_pos_nonneg; lia).
  rewrite !pow10_frac by lia. unfold Qplus, Qle. simpl.
  replace (6 + (nd - 1))%Z with (k0 - 1 + z)%Z by lia. replace (6 + nd)%Z with (k0 + z)%Z by lia.
  rewrite !Z.pow_add_r by lia. nia.
Qed.

Lemma x_exp : (nd - 1 <= dec_exp x <= nd)%Z.
Proof.
  destruct (dec_exp_spec x x_pos) as [Hlo Hhi]. destruct d_bounds as [Dlo Dhi].
  pose proof x_err as Ex. apply Qabs_diff_Qle_condition in Ex.
  pose proof (round53_rel _ d_pos) as Rd. apply Qabs_diff_Qle_condition in Rd.
  unfold Qdiv in Rd. change (/ 2 ^ 53) with (1 # 9007199254740992) in Rd.
  split.
  - assert (H : 10 ^ (nd - 2) < 10 ^ dec_exp x).
    { apply Qle_lt_trans with x; [|exact Hhi].
      replace (nd - 1)%Z with (nd - 2 + 1)%Z in Dlo by lia. rewrite Qpower_plus in Dlo by discriminate.
      change (10 ^ (nd - 2) * 10 <= d) in Dlo. pose proof (Qpower_pos 10 (nd - 2)) as Hp.
      change (0 < 10 ^ (nd - 2)) in Hp. lra. }
    apply Qpower_lt_compat_l_inv in H; [lia | unfold Qlt; simpl; lia].
  - assert (H : 10 ^ (dec_exp x - 1) < 10 ^ nd) by lra.
    apply Qpower_lt_compat_l_inv in H; [lia | unfold Qlt; simpl; lia].
Qed.

(** [x] falls below the decade of [d] only for [d = 10^(z-6)]. *)
Lemma x_exp_low : dec_exp x = (nd - 1)%Z -> s0 = 1%Z /\ k0 = 1%Z.
Proof.
  intros E. destruct (dec_exp_spec x x_pos) as [_ Hhi]. rewrite E in Hhi.
  destruct s0_digits as [[Hlo Hup] Hk]. destruct d_bounds as [Dlo _].
  pose proof x_err as Ex. apply Qabs_diff_Qle_condition in Ex.
  assert (H : d < 10 ^ (nd - 1) + (1 # 1000000)) by lra.
  rewrite pow10_frac in H, Dlo by lia. unfold Qplus, Qlt, Qle in H, Dlo. simpl in H, Dlo.
  replace (6 + (nd - 1))%Z with (k0 - 1 + z)%Z in H, Dlo by lia.
  rewrite Z.pow_add_r in H, Dlo by lia.
  assert (Hz' : (0 < 10 ^ z)%Z) by (apply Z.pow_pos_nonneg; lia).
  assert (Es : (s0 = 10 ^ (k0 - 1))%Z) by nia.
  assert (Hk1 : k0 = 1%Z) by (eapply s0_power_of_ten; eauto; lia).
  split; [rewrite Es, Hk1; reflexivity | exact Hk1].
Qed.

#[local] Abbreviation nx := (dec_exp x).

(** A candidate the search meets at [k <= k0] has the value of [d]. *)
Lemma met_cand k s :
  (1 <= k <= k0)%Z -> pick x (nx - k) = Some s ->
  (s = s0 /\ nx - k = z - 6 /\ k = k0 \/ s = 10 ^ k /\ k = 1 /\ k0 = 1 /\ s0 = 1 /\ nx - k = z - 7)%Z.
Proof.
  intros Hk Hp. destruct (pick_ok _ _ _ Hp) as [Hc Hs].
  destruct (sf_bounds x nx k (dec_exp_spec x x_pos) ltac:(lia)) as [Hf1 Hf2].
  pose proof (Z.pow_pos_nonneg 10 (k - 1) ltac:(lia)). pose proof x_exp. pose proof s0_digits.
  assert (Hs' : (1 <= s <= 10 ^ k)%Z) by lia.
  assert (Hj : (0 <= nx - k + 7)%Z) by lia.
  apply (scaled_digits s0 z k0); try lia.
  exact (cand_value s (nx - k) k Hs' ltac:(lia) Hj Hc).
Qed.

Lemma pick_none k : (1 <= k < k0)%Z -> pick x (nx - k) = None.
Proof.
  intros Hk. destruct (pick x (nx - k)) as [s|] eqn:E; [exfalso|reflexivity].
  destruct (met_cand k s ltac:(lia) E) as [(_ & _ & ?) | (_ & ? & ? & _)]; lia.
Qed.

(** At [k0] digits the amount itself is a candidate. *)
Lemma pick_k0 : exists s, pick x (nx - k0) = Some s.
Proof.
  pose proof x_exp as Hx. pose proof s0_digits as Hs. destruct d_bounds as [Dlo _].
  destruct (dec_exp_spec x x_pos) as [Hlo Hhi].
  pose proof x_err as Ex. apply Qabs_diff_Qle_condition in Ex.
  pose proof (round53_rel _ d_pos) as Rd. apply Qabs_diff_Qle_condition in Rd.
  unfold Qdiv in Rd. change (/ 2 ^ 53) with (1 # 9007199254740992) in Rd.
  assert (Hdec : forall s j, dec s j == d -> cand_ok x s j = true).
  { intros s' j' E. apply Qeq_bool_iff. now rewrite E. }
  assert (Hj : (0 <= nx - k0 + 7)%Z) by lia.
  set (j := (nx - k0)%Z) in *. set (sf := Qfloor (x / 10 ^ j)).
  assert (HP : 0 < 10 ^ j) by apply (Qpower_pos 10).
  destruct (Z.eq_dec nx nd) as [Enx | Enx].
  - (* [x] in the decade of [d]: [s0] itself, next to [x / 10^j] *)
    assert (Ej : j = (z - 6)%Z) by lia.
    assert (Ed : dec s0 j == d).
    { rewrite Ej. unfold dec. rewrite pow10_frac by lia. replace (6 + (z - 6))%Z with z by lia.
      rewrite Hmz. unfold Qeq. simpl. lia. }
    assert (Hc : cand_ok x s0 j = true) by (apply Hdec; exact Ed).
    assert (Hnear : (s0 - 1 <= sf <= s0)%Z).
    { assert (H10 : (1 # 2097152) < 10 ^ j).
      { rewrite Ej, pow10_frac by lia. unfold Qlt. simpl. pose proof (Z.pow_pos_nonneg 10 z). lia. }
      unfold dec in Ed. unfold sf.
      enough (Hb : (s0 - 1 <= Qfloor (x / 10 ^ j) < s0 + 1)%Z) by lia. apply Qfloor_bounds.
      - apply Qle_shift_div_l; [exact HP|]. unfold Z.sub. rewrite inject_Z_plus, inject_Z_opp.
        assert (inject_Z s0 * 10 ^ j - 10 ^ j <= x) by (rewrite Ed; lra). change (inject_Z 1) with 1. nra.
      - apply Qlt_shift_div_r; [exact HP|]. rewrite inject_Z_plus. change (inject_Z 1) with 1.
        assert (x < inject_Z s0 * 10 ^ j + 10 ^ j) by (rewrite Ed; lra). nra. }
    destruct (Z.eq_dec sf s0) as [E | E];
      [apply (pick_found x j s0 Hc); left; lia | apply (pick_found x j s0 Hc); right; lia].
  - (* [x] below the decade: [d = 10^(z-6)] is the power of ten above [x] *)
    assert (Enx' : nx = (nd - 1)%Z) by lia. destruct (x_exp_low Enx') as [E1 E2].
    assert (Ej : j = (z - 7)%Z) by lia.
    assert (Ed : dec 10 j == d).
    { rewrite Ej. unfold dec. change (inject_Z 10) with ((10 : Q) ^ 1).
      rewrite <- Qpower_plus by discriminate. replace (1 + (z - 7))%Z with (z - 6)%Z by lia.
      rewrite pow10_frac by lia. replace (6 + (z - 6))%Z with z by lia.
      rewrite Hmz, E1. unfold Qeq. simpl. lia. }
    assert (Hc : cand_ok x 10 j = true) by (apply Hdec; exact Ed).
    apply (pick_found x j 10 Hc). right.
    assert (Hsf : (9 <= sf < 10)%Z).
    { unfold sf. apply Qfloor_bounds.
      - apply Qle_shift_div_l; [exact HP|]. unfold dec in Ed. change (inject_Z 10) with 10 in Ed.
        change (inject_Z 9) with 9. lra.
      - apply Qlt_shift_div_r; [exact HP|]. change (inject_Z 10) with 10.
        assert (E10 : (10 : Q) ^ nx == 10 ^ j * 10).
        { replace (dec_exp x) with (j + 1)%Z at 1 by (unfold j; lia).
          rewrite Qpower_plus by discriminate. reflexivity. }
        rewrite E10 in Hhi. lra. }
    lia.
Qed.

(** The shortest digits of [x] are those of the amount. *)
Lemma shortest_x : shortest x = (s0, k0, nd).
Proof.
  destruct pick_k0 as [s Hs]. pose proof s0_digits as Hd0.
  unfold shortest. rewrite (shortest_from_spec x nx 1 k0 17 s); [| lia | lia | | exact Hs].
  - destruct (met_cand k0 s ltac:(lia) Hs) as [(-> & Hj & _) | (-> & Hk & Hk0 & Hs1 & Hj)].
    + replace (s0 =? 10 ^ k0)%Z with false by (symmetry; apply Z.eqb_neq; lia). f_equal. f_equal. lia.
    + rewrite Z.eqb_refl, Hk. replace (10 ^ (1 - 1))%Z with 1%Z by reflexivity.
      rewrite Hk in Hj. f_equal; [f_equal|]; lia.
  - intros k' Hk'. apply pick_none. lia.
Qed.

Local Open Scope Z_scope.

Lemma k0_z_bound : (ndigits s0 + z <= 16)%Z.
Proof.
  destruct s0_digits as [[Hlo _] Hk].
  assert (Hp : (10 ^ (k0 - 1 + z) <= m)%Z) by (rewrite Z.pow_add_r, Hmz by lia; nia).
  assert (10 ^ (k0 - 1 + z) < 10 ^ 16)%Z by (cbn in Hm |- *; lia).
  apply Z.pow_lt_mono_r_iff in H; lia.
Qed.

(** The layout of the amount's digits is a display of the language of
    [formatCcoinUnits] that reads back to [m]. *)
Lemma layout_display : display_ok (layout s0 k0 nd) = true /\ parseCcoinUnits (layout s0 k0 nd) = Some m.
Proof.
  destruct s0_digits as [[Hlo Hhi] Hk]. pose proof k0_z_bound as Hkz.
  destruct (bigint_to_string_canonical s0 ltac:(lia)) as [Dc Dv].
  pose proof (canonical_digits _ Dc) as Da.
  destruct (bigint_to_string_last s0 ltac:(lia)) as [P EP].
  assert (Hlast : Ascii.eqb (digit_char (s0 mod 10)) "0"%char = false).
  { apply digit_char_nonzero. pose proof (Z.mod_pos_bound s0 10). lia. }
  assert (Dl : Z.of_nat (String.length (bigint_to_string s0)) = k0) by reflexivity.
  assert (HPl : Z.of_nat (String.length P) = k0 - 1) by (rewrite EP, length_app in Dl; cbn in Dl; lia).
  assert (Hz10 : (0 < 10 ^ z)%Z) by (apply Z.pow_pos_nonneg; lia).
  unfold layout. set (D := bigint_to_string s0) in *.
  destruct (Z.leb_spec 6 z) as [Hz6 | Hz6].
  - (* a whole number: the digits and [z - 6] zeros *)
    rewrite (proj2 (Z.leb_le k0 nd)), (proj2 (Z.leb_le nd 21)) by lia. cbn [andb].
    replace (nd - k0)%Z with (z - 6)%Z by lia.
    destruct (repeat_zero_spec (Z.to_nat (z - 6))) as (Za & Zv & Zl).
    assert (Wc : canonical (D ++ zeros (z - 6)) = true).
    { apply canonical_app_zeros; [exact Dc | lia]. }
    destruct (whole_display _ Wc) as [Hd1 Hp1]. split; [exact Hd1|]. rewrite Hp1. f_equal.
    unfold zeros. rewrite dval_app, Zv, repeat_char_length, Dv, Z2Nat.id by lia.
    rewrite Hmz, (pow10_split z 6) by lia. ring_simplify. reflexivity.
  - replace (k0 <=? nd)%Z with false by (symmetry; apply Z.leb_gt; lia). cbn [andb].
    destruct (Z.ltb_spec 0 nd) as [Hn0 | Hn0].
    + (* digits on both sides of the dot *)
      rewrite (proj2 (Z.leb_le nd 21)) by lia. cbn [andb].
      set (n := Z.to_nat nd).
      assert (Hn : (n <= String.length P)%nat) by lia.
      assert (ED : D = (take nd D ++ drop nd D)%string) by (symmetry; unfold take, drop; apply substring_split; lia).
      assert (Ef : drop nd D = (drop nd P ++ String (digit_char (s0 mod 10)) "")%string).
      { unfold drop. fold n. rewrite EP. apply substring_app_l. exact Hn. }
      assert (Hfl : Z.of_nat (String.length (drop nd D)) = 6 - z).
      { assert (HnD : (Z.to_nat nd <= String.length D)%nat) by lia.
        pose proof Dl as Dl'. rewrite ED, length_app in Dl'. unfold take in Dl'.
        rewrite substring_length in Dl' by exact HnD. lia. }
      pose proof Da as Da'. rewrite ED, all_digits_app in Da'. apply Bool.andb_true_iff in Da' as [Wa Fa].
      assert (Wc : canonical (take nd D) = true).
      { destruct D as [|c r] eqn:E; [discriminate|]. unfold take. fold n.
        destruct n as [|n'] eqn:En; [lia|]. cbn [substring].
        unfold take in Wa. fold n in Wa. rewrite En in Wa. cbn [substring] in Wa.
        cbn [canonical]. rewrite Wa. cbn [andb].
        destruct (Ascii.eqb_spec c "0"%char) as [->|]; [|reflexivity].
        exfalso. cbn in Dc. apply Bool.andb_true_iff in Dc as [_ Hr]. apply String.eqb_eq in Hr. subst r.
        change (dval (String "0" "")) with 0%Z in Dv. lia. }
      assert (Fc : frac_ok (drop nd D) = true).
      { unfold frac_ok. rewrite Fa, Ef, strip_last_nonzero, String.eqb_refl by exact Hlast.
        rewrite <- Ef. replace (String.length (drop nd D) <=? 6)%nat with true by (symmetry; apply Nat.leb_le; lia).
        destruct (drop nd D) eqn:E'; [cbn in Hfl; lia | reflexivity]. }
      destruct (frac_display _ _ Wc Fc) as [Hd1 Hp1]. split; [exact Hd1|]. rewrite Hp1. f_equal.
      unfold frac_units. rewrite Hfl. replace (6 - (6 - z))%Z with z by lia.
      rewrite ED, dval_app, Hfl in Dv.
      replace 1000000%Z with (10 ^ (6 - z) * 10 ^ z)%Z
        by (rewrite <- Z.pow_add_r by lia; now replace (6 - z + z)%Z with 6%Z by lia).
      transitivity ((dval (take nd D) * 10 ^ (6 - z) + dval (drop nd D)) * 10 ^ z)%Z; [ring|].
      now rewrite Dv, Hmz.
    + (* only a fraction: [0.], zeros, the digits *)
      replace (0 <? nd)%Z with false by (symmetry; apply Z.ltb_ge; lia).
      rewrite (proj2 (Z.ltb_lt (-6) nd)), (proj2 (Z.leb_le nd 0)) by lia. cbn [andb].
      change ("0." ++ zeros (- nd) ++ D)%string with ("0" ++ "." ++ (zeros (- nd) ++ D))%string.
      destruct (repeat_zero_spec (Z.to_nat (- nd))) as (Za & Zv & Zl).
      assert (Hfl : Z.of_nat (String.length (zeros (- nd) ++ D)%string) = 6 - z).
      { rewrite length_app. unfold zeros. rewrite repeat_char_length. lia. }
      assert (Fc : frac_ok (zeros (- nd) ++ D)%string = true).
      { unfold frac_ok. unfold zeros at 1. rewrite all_digits_app, Za, Da.
        rewrite EP, <- append_assoc, strip_last_nonzero, String.eqb_refl by exact Hlast.
        rewrite append_assoc, <- EP.
        replace (String.length (zeros (- nd) ++ D)%string <=? 6)%nat with true by (symmetry; apply Nat.leb_le; lia).
        destruct (zeros (- nd) ++ D)%string eqn:E'; [cbn in Hfl; lia | reflexivity]. }
      destruct (frac_display "0" _ eq_refl Fc) as [Hd1 Hp1]. split; [exact Hd1|]. rewrite Hp1. f_equal.
      unfold frac_units. rewrite Hfl. replace (6 - (6 - z))%Z with z by lia.
      rewrite dval_app. unfold zeros at 1. rewrite Zv, Dv, Hmz. change (dval "0") with 0%Z. ring.
Qed.

Lemma microEthToEthString_digits : microEthToEthString m = formatCcoinUnits m.
Proof.
  assert (Hx : js_div (Number m) (inject_Z 1000000) = x).
  { unfold js_div. apply round53_Qeq. unfold Number.
    rewrite (round53_int m) by (cbn in Hm |- *; lia). rewrite Qmake_Qdiv. reflexivity. }
  unfold microEthToEthString. rewrite Hx. unfold number_to_string.
  pose proof x_pos as Hp.
  replace (Qeq_bool x 0) with false
    by (symmetry; apply not_true_iff_false; intros E; apply Qeq_bool_iff in E; rewrite E in Hp; discriminate).
  replace (Qnum x <? 0) with false
    by (symmetry; apply Z.ltb_ge; destruct x as [n q]; unfold Qlt in Hp; simpl in *; lia).
  unfold positive_to_string. rewrite shortest_x.
  destruct layout_display as [Hd1 Hp1].
  apply (parse_display_inj _ _ m Hd1 (display_ok_formatCcoinUnits m) Hp1 (parse_formatCcoinUnits m)).
Qed.

End Exact.

(** ** The display of microETH *)

(** Every positive integer is [s0 * 10^z] with [s0] not a multiple of ten. *)
Lemma decompose m : (0 < m)%Z -> exists s0 z, m = (s0 * 10 ^ z)%Z /\ (s0 mod 10 <> 0)%Z /\ (0 <= z)%Z /\ (0 < s0)%Z.
Proof.
  intros Hm. remember (Z.to_nat m) as n eqn:En. revert m Hm En.
  induction n as [n IH] using (well_founded_induction lt_wf). intros m Hm En.
  destruct (Z.eq_dec (m mod 10) 0) as [H0 | H0].
  - assert (Hq : (0 < m / 10)%Z).
    { pose proof (Z.div_mod m 10 ltac:(lia)). assert (m / 10 <> 0)%Z by lia.
      pose proof (Z.div_pos m 10 ltac:(lia) ltac:(lia)). lia. }
    destruct (IH (Z.to_nat (m / 10)) ltac:(subst; apply Z2Nat.inj_lt; [lia | lia | apply Z.div_lt; lia])
                 (m / 10)%Z Hq eq_refl) as (s0 & z & E & Hd & Hz & Hs).
    exists s0, (z + 1)%Z. repeat split; try lia.
    rewrite Z.pow_add_r, Z.pow_1_r by lia. pose proof (Z.div_mod m 10 ltac:(lia)). lia.
  - exists m, 0%Z. repeat split; lia.
Qed.

(** The display is exact below [2^33 * 10^6] microETH, zero included. *)
Lemma microEthToEthString_format m :
  (0 <= m < 2 ^ 33 * 10 ^ 6)%Z -> microEthToEthString m = formatCcoinUnits m.
Proof.
  intros Hm. destruct (Z.eq_dec m 0) as [->|Hm0]; [vm_compute; reflexivity|].
  destruct (decompose m ltac:(lia)) as (s0 & z & Hmz & Hd & Hz & Hs0).
  eapply microEthToEthString_digits; eauto. lia.
Qed.

(** C23: the page's [microEthToEthString] shows every amount of microETH
    from [0] below [2^33 * 10^6] (8.59 billion ETH) exactly: the double
    [Number(microEth) / 10^6] printed by [Number::toString] is the string
    [formatCcoinUnits] prints for the same integer (the whole ETH, a dot
    and the microETH without trailing zeros), and reading it back with
    [parseCcoinUnits] gives the amount. *)
Theorem microEthToEthString_exact m :
  (0 <= m < 2 ^ 33 * 10 ^ 6)%Z ->
  microEthToEthString m = formatCcoinUnits m /\ parseCcoinUnits (microEthToEthString m) = Some m.
Proof.
  intros Hm. rewrite microEthToEthString_format by exact Hm.
  split; [reflexivity | apply parse_formatCcoinUnits].
Qed.

Lemma microEthToEthString_exact_witness :
  (0 <= 1500000 < 2 ^ 33 * 10 ^ 6)%Z /\
  (microEthToEthString 1500000 = formatCcoinUnits 1500000 /\
   parseCcoinUnits (microEthToEthString 1500000) = Some 1500000%Z) /\
  formatCcoinUnits 1500000 = "1.5"%string.
Proof.
  assert (H : (0 <= 1500000 < 2 ^ 33 * 10 ^ 6)%Z) by (cbn; lia).
  split; [exact H|]. split; [exact (microEthToEthString_exact 1500000 H) | reflexivity].
Defined.

(** The bound is tight (a computation behind the finding on the display): one microETH above [2^33 * 10^6] the double's
    spacing exceeds [10^-6] ETH and the page shows a neighbouring amount;
    above [2^53] microETH, [Number(bigint)] itself merges amounts. *)
Example microEthToEthString_tight :
  microEthToEthString (2 ^ 33 * 10 ^ 6 + 1) = "8589934592.000002"%string /\
  formatCcoinUnits (2 ^ 33 * 10 ^ 6 + 1) = "8589934592.000001"%string /\
  microEthToEthString (2 ^ 53 + 1) = microEthToEthString (2 ^ 53).
Proof. vm_compute. repeat split. Qed.

End JsNumber.
