(* ===== verification/Deploy.v ===== *)
(** * Deployment: the deploy script and the test fixture

    [src/deploy/secureapr.ts] deploys ConfidentialCoin, then
    SecureAPRStaking with the coin's address, and makes the staking
    contract the coin's minter with a [setMinter] transaction from the
    deployer; on Sepolia it first requires the [PRIVATE_KEY] and
    [INFURA_API_KEY] variables.  [deployFixture] of the test suite does
    the same three steps.  A [chain] is what exists before the two
    contracts: the backend store, native balances, time, the
    coordinator's key and the accounts that refuse native currency.

    hardhat-deploy's [deploy] returns the recorded deployment when the
    same contract was already deployed with the same arguments; the
    script's [existing] argument is that recorded deployment, so that
    running the script again is modelled as well.  [runDeploy] is one
    [npx hardhat deploy --tags ...]: the tag filter, the skip of a script
    whose [func.id] is recorded, and the record made only when the
    function resolves to [true]. *)

From Stdlib Require Import ZArith String Lia.
From stdpp Require Import base gmap list.
From S2P Require Import Prelude Fhe Verifier Coin Staking.

Open Scope Z_scope.

Module Deploy.
Import Staking.

Record chain {S : Type} := mkChain {
  ch_fhe : S;
  ch_eth : gmap address Z;
  ch_now : Z;
  ch_kms : N;
  ch_rejects : list address
}.
Arguments chain : clear implicits.

Record deploy_env := mkDeployEnv {
  network_name : string;
  env_private_key : option string;
  env_infura_key : option string
}.

Inductive deploy_error :=
| MissingPrivateKey
| MissingInfuraKey
| DeployTxFailed (e : apr_error).

(** [!process.env.X]: unset or empty. *)
Definition env_missing (v : option string) : bool :=
  match v with None => true | Some s => String.eqb s "" end.

Section Deployment.
Context {S : Type} `{!Fhe.FheBackend S}.

(** The two [deploy] calls: the coin records its deployer, the staking
    contract starts with no account and no balance of its own. *)
Definition deploy_contracts (deployer staking_addr : address) (ch : chain S) : world S :=
  mkWorld (ch_fhe ch) (Coin.init deployer) ∅ (ch_eth ch) (ch_now ch) staking_addr
    (ch_kms ch) (ch_rejects ch).

(** A [coin.setMinter(m)] transaction sent by [sender]. *)
Definition setMinter_tx (sender m : address) (w : world S) : result (world S) apr_error :=
  let! c := Coin.setMinter sender m (w_coin w) in Ok (set_ledger w c (w_fhe w)).

(** [deployFixture()] of the test suite. *)
Definition deployFixture (deployer staking_addr : address) (ch : chain S) : result (world S) apr_error :=
  setMinter_tx deployer staking_addr (deploy_contracts deployer staking_addr ch).

(** The deploy script's function. *)
Definition deploy_func (env : deploy_env) (deployer staking_addr : address)
    (existing : option (world S)) (ch : chain S) : result (world S) deploy_error :=
  if String.eqb (network_name env) "sepolia" && env_missing (env_private_key env)
  then Err MissingPrivateKey
  else if String.eqb (network_name env) "sepolia" && env_missing (env_infura_key env)
  then Err MissingInfuraKey
  else
    let w := match existing with Some w => w | None => deploy_contracts deployer staking_addr ch end in
    match setMinter_tx deployer (w_staking w) w with
    | Ok w' => Ok w'
    | Err e => Err (DeployTxFailed e)
    end.

(** ** How hardhat-deploy runs the script

    [export default func; func.id = ...; func.tags = ...] registers the
    script.  [npx hardhat deploy --tags T] runs the scripts that carry a
    tag of [T] (every script when no tag is given), skips a script whose
    [id] is recorded in the migrations, and records the [id] only when
    the function resolves to [true]. *)
Definition func_id : string := "deploy_secureapr".
Definition func_tags : list string := ["SecureAPR"%string].

(** The value [func] resolves to: it has no [return], so [undefined]. *)
Definition func_result : option bool := None.

(** hardhat-deploy's records: the deployment it hands back to [deploy]
    (Deploy.v models its two contracts as one world) and the ids in
    [.migrations.json].  They persist between runs on a network whose
    deployments are saved ([localhost], [sepolia]); the in-process
    [hardhat] network starts from nothing at every run. *)
Record deploy_db := mkDeployDb {
  db_deployment : option (world S);
  db_migrations : list string
}.

Inductive run_outcome := Executed | Skipped.

(** [--tags]: the script runs when no tag is given or one of them is its own. *)
Definition script_selected (tags : list string) : bool :=
  match tags with
  | [] => true
  | _ => existsb (fun t => existsb (String.eqb t) func_tags) tags
  end.

(** One [npx hardhat deploy --tags tags] run of the script. *)
Definition runDeploy (env : deploy_env) (deployer staking_addr : address) (tags : list string)
    (db : deploy_db) (ch : chain S) : result (deploy_db * run_outcome) deploy_error :=
  if negb (script_selected tags) then Ok (db, Skipped)
  else if existsb (String.eqb func_id) (db_migrations db) then Ok (db, Skipped)
  else
    match deploy_func env deployer staking_addr (db_deployment db) ch with
    | Err e => Err e
    | Ok w =>
        let migrations := if bool_decide (func_result = Some true) then func_id :: db_migrations db
                          else db_migrations db in
        Ok (mkDeployDb (Some w) migrations, Executed)
    end.

End Deployment.

Section Theorems.
Context {S : Type} `{Fhe.FheLaws S}.

Lemma deploy_contracts_wf deployer staking_addr (ch : chain S) :
  world_wf (deploy_contracts deployer staking_addr ch).
Proof. split; apply map_Forall_empty. Qed.

Lemma setMinter_tx_fresh deployer staking_addr (ch : chain S) :
  setMinter_tx deployer staking_addr (deploy_contracts deployer staking_addr ch) =
  Ok (set_ledger (deploy_contracts deployer staking_addr ch)
        (Coin.mkCoin deployer (Some staking_addr) ∅) (ch_fhe ch)).
Proof. unfold setMinter_tx, Coin.setMinter. simpl. by rewrite N.eqb_refl. Qed.

(** The world the fixture and a fresh deployment produce. *)
Lemma deployed_world_spec deployer staking_addr (ch : chain S) :
  let w := set_ledger (deploy_contracts deployer staking_addr ch)
             (Coin.mkCoin deployer (Some staking_addr) ∅) (ch_fhe ch) in
  world_wf w /\ Coin.coin_minter (w_coin w) = Some (w_staking w) /\
  w_staking w = staking_addr /\ Coin.coin_owner (w_coin w) = deployer /\
  w_accounts w = ∅ /\ w_fhe w = ch_fhe ch /\ w_eth w = ch_eth ch /\ w_now w = ch_now ch.
Proof. split; [split; apply map_Forall_empty|]. done. Qed.

Lemma deploy_func_fresh_eq env deployer staking_addr (ch : chain S) w :
  deploy_func env deployer staking_addr None ch = Ok w ->
  w = set_ledger (deploy_contracts deployer staking_addr ch)
        (Coin.mkCoin deployer (Some staking_addr) ∅) (ch_fhe ch).
Proof.
  unfold deploy_func. destruct (_ && _); [discriminate|]. destruct (_ && _); [discriminate|].
  cbn. rewrite setMinter_tx_fresh. by intros [= <-].
Qed.

(** A successful run of the script passed its environment checks. *)
Lemma deploy_func_env_ok env deployer staking_addr existing (ch : chain S) w :
  deploy_func env deployer staking_addr existing ch = Ok w ->
  String.eqb (network_name env) "sepolia" && env_missing (env_private_key env) = false /\
  String.eqb (network_name env) "sepolia" && env_missing (env_infura_key env) = false.
Proof. unfold deploy_func. destruct (_ && _); [discriminate|]. destruct (_ && _); [discriminate|]. done. Qed.

(** The script, run against a deployment whose minter is already set,
    reverts in its [setMinter] call. *)
Lemma deploy_func_minter_set env deployer staking_addr (ch : chain S) w :
  String.eqb (network_name env) "sepolia" && env_missing (env_private_key env) = false ->
  String.eqb (network_name env) "sepolia" && env_missing (env_infura_key env) = false ->
  Coin.coin_owner (w_coin w) = deployer -> Coin.coin_minter (w_coin w) <> None ->
  deploy_func env deployer staking_addr (Some w) ch = Err (DeployTxFailed AlreadySet).
Proof.
  intros Hp Hi Ho Hm. unfold deploy_func. rewrite Hp, Hi.
  unfold setMinter_tx, Coin.setMinter. rewrite Ho, N.eqb_refl. cbn.
  by destruct (Coin.coin_minter (w_coin w)).
Qed.

(** The environment checks pass off Sepolia or with both keys set, and a
    first run deploys. *)
Lemma deploy_func_fresh_ok env deployer staking_addr (ch : chain S) :
  network_name env <> "sepolia"%string \/
  (env_missing (env_private_key env) = false /\ env_missing (env_infura_key env) = false) ->
  deploy_func env deployer staking_addr None ch =
    Ok (set_ledger (deploy_contracts deployer staking_addr ch)
          (Coin.mkCoin deployer (Some staking_addr) ∅) (ch_fhe ch)).
Proof.
  intros Henv. unfold deploy_func.
  replace (String.eqb (network_name env) "sepolia" && env_missing (env_private_key env)) with false
    by (destruct Henv as [Hn | [Hp _]]; [apply String.eqb_neq in Hn; by rewrite Hn | by rewrite Hp, andb_false_r]).
  replace (String.eqb (network_name env) "sepolia" && env_missing (env_infura_key env)) with false
    by (destruct Henv as [Hn | [_ Hi]]; [apply String.eqb_neq in Hn; by rewrite Hn | by rewrite Hi, andb_false_r]).
  simpl. by rewrite setMinter_tx_fresh.
Qed.

(** Running the script again, when hardhat-deploy hands back the
    recorded deployment, reverts in its [setMinter] call. *)
Lemma deploy_rerun_reverts env deployer staking_addr staking_addr' (ch ch' : chain S) w :
  deploy_func env deployer staking_addr None ch = Ok w ->
  deploy_func env deployer staking_addr' (Some w) ch' = Err (DeployTxFailed AlreadySet).
Proof.
  intros Hd. pose proof (deploy_func_env_ok _ _ _ _ _ _ Hd) as [Hp Hi].
  apply deploy_func_fresh_eq in Hd as ->.
  apply deploy_func_minter_set; [done..|]. discriminate.
Qed.

(** C30: a first run of the deploy script (off Sepolia, or with both keys
    set) succeeds and leaves the staking contract as the coin's minter,
    the deployer as the coin's owner, and no staking account. *)
Theorem deploy_fresh_sets_minter env deployer staking_addr (ch : chain S) :
  network_name env <> "sepolia"%string \/
  (env_missing (env_private_key env) = false /\ env_missing (env_infura_key env) = false) ->
  exists w, deploy_func env deployer staking_addr None ch = Ok w /\
    Coin.coin_minter (w_coin w) = Some (w_staking w) /\ w_staking w = staking_addr /\
    Coin.coin_owner (w_coin w) = deployer /\ w_accounts w = ∅ /\ world_wf w.
Proof.
  intros Henv. rewrite deploy_func_fresh_ok by exact Henv. eexists. split; [reflexivity|].
  destruct (deployed_world_spec deployer staking_addr ch) as (Hwf & Hm & Hs & Ho & Ha & _).
  auto.
Qed.

(** C32: on Sepolia the script stops before any transaction when
    [PRIVATE_KEY] is unset or empty. *)
Theorem deploy_missing_private_key env deployer staking_addr existing (ch : chain S) :
  network_name env = "sepolia"%string -> env_missing (env_private_key env) = true ->
  deploy_func env deployer staking_addr existing ch = Err MissingPrivateKey.
Proof. intros Hn Hp. unfold deploy_func. by rewrite Hn, Hp. Qed.

(** C31: [npx hardhat deploy --tags SecureAPR] (or with any tag list
    that selects the script) deploys on its first run, and since [func]
    resolves to [undefined] hardhat-deploy does not record its [id]: the
    next run executes the script again against the recorded deployment
    and reverts in [setMinter] with [AlreadySet]. *)
Theorem deploy_command_rerun_reverts env deployer staking_addr staking_addr' tags (ch ch' : chain S) :
  network_name env <> "sepolia"%string \/
  (env_missing (env_private_key env) = false /\ env_missing (env_infura_key env) = false) ->
  script_selected tags = true ->
  exists db1,
    runDeploy env deployer staking_addr tags (mkDeployDb None []) ch = Ok (db1, Executed) /\
    db_migrations db1 = [] /\
    runDeploy env deployer staking_addr' tags db1 ch' = Err (DeployTxFailed AlreadySet).
Proof.
  intros Henv Hsel. pose proof (deploy_func_fresh_ok env deployer staking_addr ch Henv) as Hd.
  unfold runDeploy. rewrite Hsel. cbn [negb db_migrations db_deployment existsb].
  rewrite Hd, bool_decide_eq_false_2 by discriminate.
  eexists. split; [reflexivity|]. split; [reflexivity|]. cbn.
  by rewrite (deploy_rerun_reverts env deployer staking_addr staking_addr' ch ch' _ Hd).
Qed.

End Theorems.

(** ** A concrete chain

    The examples and witnesses of the development run on the concrete
    backend [Fhe.Store]: a local chain where the signer [alice_ex] holds
    ten ether and no account refuses native currency. *)

Definition deployer_ex : address := 1.
Definition alice_ex : address := 2.
Definition staking_ex : address := 3.

Definition chain_ex : chain Fhe.Store :=
  mkChain Fhe.Store (Fhe.mkStore ∅) (<[alice_ex := 10000000000000000000]> ∅) 1700000000 7 [].

Definition hardhat_env : deploy_env := mkDeployEnv "hardhat"%string None None.
(** A [hardhat node] at [localhost], whose deployments are saved. *)
Definition localhost_env : deploy_env := mkDeployEnv "localhost"%string None None.
Definition sepolia_env_no_key : deploy_env := mkDeployEnv "sepolia"%string None (Some "key"%string).

(** The deployment of the example chain. *)
Definition w0_ex : world Fhe.Store :=
  ok_or (deploy_func hardhat_env deployer_ex staking_ex None chain_ex)
    (deploy_contracts deployer_ex staking_ex chain_ex).

Lemma w0_ex_deployed : deploy_func hardhat_env deployer_ex staking_ex None chain_ex = Ok w0_ex.
Proof. vm_compute. reflexivity. Qed.

Lemma deploy_fresh_sets_minter_witness :
  exists w, deploy_func hardhat_env deployer_ex staking_ex None chain_ex = Ok w /\
    Coin.coin_minter (w_coin w) = Some (w_staking w) /\ w_staking w = staking_ex /\
    Coin.coin_owner (w_coin w) = deployer_ex /\ w_accounts w = ∅ /\ world_wf w.
Proof. apply deploy_fresh_sets_minter. left. discriminate. Defined.

Lemma deploy_missing_private_key_witness :
  deploy_func sepolia_env_no_key deployer_ex staking_ex None chain_ex = Err MissingPrivateKey.
Proof. apply deploy_missing_private_key; reflexivity. Defined.

Lemma deploy_command_rerun_reverts_witness :
  script_selected ["SecureAPR"%string] = true /\
  exists db1,
    runDeploy localhost_env deployer_ex staking_ex ["SecureAPR"%string] (mkDeployDb None []) chain_ex = Ok (db1, Executed) /\
    db_migrations db1 = [] /\
    runDeploy localhost_env deployer_ex staking_ex ["SecureAPR"%string] db1 chain_ex = Err (DeployTxFailed AlreadySet).
Proof.
  split; [reflexivity|].
  apply deploy_command_rerun_reverts; [left; discriminate | reflexivity].
Defined.

End Deploy.
