(* ===== verification/Invariants.v ===== *)
(** * System invariants over the reachable worlds

    A world evolves by transactions to the staking contract
    ([Staking.receive]), by the passing of time, and by native transfers
    between accounts other than the contract.  [reachable] is the
    reflexive-transitive closure of [step] from a deployed world.  The
    one trust assumption is the coordinator's: a proof that carries the
    trusted key states true decryptions ([Verifier.proof_sound]).

    [inv] holds of every reachable world: all handles are valid, the
    staking contract stays the coin's minter, no accrual time lies in the
    future, and the contract holds at least what it owes ([owed]: the
    decrypted stakes and pending withdrawals, in wei).  The last section
    anchors it at the deploy script: the world [Deploy.deploy_func]
    produces satisfies [inv], hence so does every world reachable from
    it; the example world [w1_ex] (alice's stake after deployment) serves
    the witnesses of this and the later files. *)

From Stdlib Require Import ZArith Lia.
From stdpp Require Import base gmap list relations.
From S2P Require Import Prelude Fhe Verifier Coin Staking Deploy.

Open Scope Z_scope.

Module Invariants.
Import Staking.

Section Owed.
Context {S : Type} `{Fhe.FheLaws S}.
Implicit Types (w : world S) (s : S) (m : gmap address account).

(** What the contract owes an account, in wei. *)
Definition account_owed s (acc : account) : Z :=
  (Fhe.fhe_decrypt s (acc_stake acc) + Fhe.fhe_decrypt s (acc_pending acc)) * MICRO_UNIT.

Definition owed_in s m : Z := map_fold (fun _ acc t => account_owed s acc + t) 0 m.

Definition owed w : Z := owed_in (w_fhe w) (w_accounts w).

Lemma account_owed_nonneg s acc : 0 <= account_owed s acc.
Proof.
  unfold account_owed, MICRO_UNIT.
  pose proof (Fhe.fhe_decrypt_range s (acc_stake acc)).
  pose proof (Fhe.fhe_decrypt_range s (acc_pending acc)). lia.
Qed.

Lemma account_owed_empty s : account_owed s empty_account = 0.
Proof. unfold account_owed. simpl. by rewrite Fhe.decrypt_zero. Qed.

Lemma owed_in_empty s : owed_in s ∅ = 0.
Proof. apply map_fold_empty. Qed.

Lemma owed_in_insert s m a acc :
  m !! a = None -> owed_in s (<[a := acc]> m) = account_owed s acc + owed_in s m.
Proof. intros Ha. unfold owed_in. rewrite map_fold_insert_L; [reflexivity | intros; lia | exact Ha]. Qed.

Lemma owed_in_nonneg s m : 0 <= owed_in s m.
Proof.
  induction m as [|a acc m Ha IH] using map_ind; [by rewrite owed_in_empty|].
  rewrite owed_in_insert by done. pose proof (account_owed_nonneg s acc). lia.
Qed.

(** The total splits into one account's share and the rest. *)
Lemma owed_in_split s m a :
  owed_in s m = account_owed s (find_or empty_account m a) + owed_in s (delete a m).
Proof.
  unfold find_or. destruct (m !! a) as [acc|] eqn:Ha; simpl.
  - rewrite <- (insert_delete_id m a acc Ha) at 1.
    apply owed_in_insert, lookup_delete_eq.
  - by rewrite account_owed_empty, delete_id.
Qed.

Lemma owed_in_ext s s' m :
  Fhe.fhe_ext s s' -> map_Forall (fun _ acc => account_wf s acc) m -> owed_in s' m = owed_in s m.
Proof.
  intros Hx. induction m as [|a acc m Ha IH] using map_ind; intros Hwf;
    [by rewrite !owed_in_empty|].
  apply map_Forall_insert in Hwf as [[Hs Hp] Hm]; [|done].
  rewrite !owed_in_insert by done. rewrite IH by done. f_equal.
  unfold account_owed. by rewrite !(Fhe.fhe_ext_decrypt s s') by done.
Qed.

(** The change of the total when only account [a] was written and the
    store only grew. *)
Lemma owed_change w w' a :
  world_wf w -> Fhe.fhe_ext (w_fhe w) (w_fhe w') -> accounts_write w w' a ->
  owed w' = owed w - account_owed (w_fhe w) (account_of w a)
                   + account_owed (w_fhe w') (account_of w' a).
Proof.
  intros [Hwf _] Hx Hwr. unfold owed, account_of.
  rewrite (owed_in_split _ (w_accounts w') a), (owed_in_split _ (w_accounts w) a).
  assert (Hd : delete a (w_accounts w') = delete a (w_accounts w)).
  { apply map_eq. intros b. destruct (decide (b = a)) as [->|Hb].
    - by rewrite !lookup_delete_eq.
    - rewrite !lookup_delete_ne by congruence. by apply Hwr. }
  rewrite Hd, (owed_in_ext (w_fhe w) (w_fhe w')); [lia | done |].
  by apply map_Forall_delete.
Qed.

End Owed.

Section Steps.
Context {S : Type} `{Fhe.FheLaws S}.
Implicit Types (w : world S).

(** Block time moves forward by [d] seconds. *)
Definition advance w (d : Z) : world S :=
  mkWorld (w_fhe w) (w_coin w) (w_accounts w) (w_eth w) (w_now w + d) (w_staking w)
    (w_kms w) (w_rejects w).

(** The coordinator's trust assumption, for a finalize transaction. *)
Definition trusted w (m : msg) : Prop :=
  match m with
  | FinalizeWithdrawAll _ _ pf => Verifier.proof_sound (w_kms w) (w_fhe w) pf
  | _ => True
  end.

Inductive step : world S -> world S -> Prop :=
| step_tx sender m w w' :
    sender <> w_staking w -> trusted w m -> receive sender m w = Ok w' -> step w w'
| step_time w d : 0 <= d -> step w (advance w d)
| step_pay from to v w w' :
    from <> w_staking w -> move_eth from to v w = Some w' -> step w w'.

Definition reachable (w0 w : world S) : Prop := rtc step w0 w.

Record inv w : Prop := {
  inv_wf : world_wf w;
  inv_minter : Coin.coin_minter (w_coin w) = Some (w_staking w);
  inv_time : forall a, getLastAccrual w a <= w_now w;
  inv_solvent : owed w <= eth_of w (w_staking w)
}.

Lemma stake_ok_amount sender value w w' :
  stake sender value w = Ok w' -> value <> 0 /\ value mod MICRO_UNIT = 0.
Proof.
  intros Hst. destruct (Z.eq_dec value 0) as [->|H0].
  - by rewrite (proj2 (stake_invalid_amount sender 0 w)) in Hst by auto.
  - destruct (Z.eq_dec (value mod MICRO_UNIT) 0) as [Hm|Hm]; [done|].
    by rewrite (proj2 (stake_invalid_amount sender value w)) in Hst by auto.
Qed.

Lemma move_eth_owed from to v w w' : move_eth from to v w = Some w' -> owed w' = owed w.
Proof. intros Hm. by destruct (move_eth_spec _ _ _ _ _ Hm) as [[e ->] _]. Qed.

Lemma inv_stake sender value w w0 w' :
  inv w -> sender <> w_staking w ->
  move_eth sender (w_staking w) value w = Some w0 -> stake sender value w0 = Ok w' -> inv w'.
Proof.
  intros [Hwf Hm Ht Hs] Hne Hmv Hst.
  destruct (move_eth_spec _ _ _ _ _ Hmv) as [[e ->] He].
  assert (Hv : 0 <= value) by (apply (move_eth_some_iff sender (w_staking w) value w); eauto).
  destruct (stake_ok_amount _ _ _ _ Hst) as [_ Hmod].
  destruct (stake_spec sender value _ w' (world_wf_set_eth w e Hwf) Hst)
    as (Hwf' & Hk & Heth & Hsv & Hl & Hp & Ho).
  destruct Hk as (Hn & Hst' & _ & _ & _ & Hmin & Hx). cbn in Hn, Hst', Hmin, Hx.
  split; [done | congruence | |].
  - intros a. rewrite Hn. destruct (decide (a = sender)) as [->|Ha]; [rewrite Hl; cbn; lia|].
    unfold getLastAccrual. rewrite Ho by done. apply Ht.
  - rewrite (owed_change (set_eth w e) w' sender); [| done | done |];
      [| exact (stake_accounts sender value _ w' (world_wf_set_eth w e Hwf) Hst)].
    assert (Heq : eth_of w' (w_staking w') = eth_of w (w_staking w) + value).
    { unfold eth_of at 1. rewrite Heth, Hst'.
      change (find_or 0 (w_eth (set_eth w e)) (w_staking w)) with (eth_of (set_eth w e) (w_staking w)).
      rewrite He, decide_False, decide_True by congruence. lia. }
    rewrite Heq.
    unfold account_owed. unfold stake_of in Hsv. rewrite Hsv.
    unfold getPendingWithdrawCipher in Hp. rewrite Hp.
    rewrite (Fhe.fhe_ext_decrypt (w_fhe w) (w_fhe w')) by
      (done || exact (proj2 (world_wf_account w sender Hwf))).
    cbn. change (owed (set_eth w e)) with (owed w).
    pose proof (Z.div_mod value MICRO_UNIT ltac:(discriminate)) as Hdm.
    pose proof (wrap64_range (Fhe.fhe_decrypt (w_fhe w) (acc_stake (account_of w sender)) + value / MICRO_UNIT)).
    assert (Hle : wrap64 (Fhe.fhe_decrypt (w_fhe w) (acc_stake (account_of w sender)) + value / MICRO_UNIT)
                  <= Fhe.fhe_decrypt (w_fhe w) (acc_stake (account_of w sender)) + value / MICRO_UNIT).
    { apply Z.mod_le; [|reflexivity].
      pose proof (Fhe.fhe_decrypt_range (w_fhe w) (acc_stake (account_of w sender))).
      pose proof (Z.div_pos value MICRO_UNIT Hv ltac:(reflexivity)). lia. }
    rewrite !account_of_set_eth. simpl_u64. lia.
Qed.

Lemma inv_accrue sender w w' : inv w -> accrue sender w = Ok w' -> inv w'.
Proof.
  intros [Hwf Hm Ht Hs] Ha.
  destruct (accrue_accessors sender w w' Hwf Ha) as (Hwf' & Hk & He & _ & Hl & Hh & Hsv & Hp & Ho).
  destruct Hk as (Hn & Hst & _ & _ & _ & Hmin & Hx).
  split; [done | congruence | |].
  - intros a. rewrite Hn. destruct (decide (a = sender)) as [->|Hne]; [lia|].
    unfold getLastAccrual. rewrite Ho by done. apply Ht.
  - rewrite (owed_change w w' sender Hwf Hx (accrue_accounts sender w w' Hwf Ha)).
    unfold account_owed. unfold stake_of in Hsv. rewrite Hsv.
    unfold getPendingWithdrawCipher in Hp. rewrite Hp.
    rewrite (Fhe.fhe_ext_decrypt (w_fhe w) (w_fhe w')) by
      (done || exact (proj2 (world_wf_account w sender Hwf))).
    unfold eth_of. rewrite He, Hst. fold (eth_of w (w_staking w)). lia.
Qed.

Lemma inv_request sender w w' : inv w -> requestWithdrawAll sender w = Ok w' -> inv w'.
Proof.
  intros [Hwf Hm Ht Hs] Hr.
  destruct (requestWithdrawAll_spec sender w w' Hwf Hr)
    as (Hp0 & _ & Hs' & Hp' & Hd' & Hl & _ & Hwf' & Hk & He & Ho).
  destruct Hk as (Hn & Hst & _ & _ & _ & Hmin & Hx).
  split; [done | congruence | |].
  - intros a. rewrite Hn. destruct (decide (a = sender)) as [->|Hne]; [lia|].
    unfold getLastAccrual. rewrite Ho by done. apply Ht.
  - rewrite (owed_change w w' sender Hwf Hx (requestWithdrawAll_accounts sender w w' Hwf Hr)).
    unfold account_owed. unfold getEncryptedStakedMicroEth, getPendingWithdrawCipher in *.
    rewrite Hs', Hd', Hp0. unfold stake_of. rewrite !Fhe.decrypt_zero.
    unfold eth_of. rewrite He, Hst. fold (eth_of w (w_staking w)). lia.
Qed.

Lemma inv_finalize sender h clear pf w w' :
  inv w -> sender <> w_staking w -> Verifier.proof_sound (w_kms w) (w_fhe w) pf ->
  finalizeWithdrawAll sender h clear pf w = Ok w' -> inv w'.
Proof.
  intros [Hwf Hm Ht Hs] Hne Hsound Hf.
  destruct (finalizeWithdrawAll_spec _ _ _ _ _ _ Hf)
    as (Hh & _ & Hv & _ & Hp' & Hs' & Hl & He & Hfhe & Hc & Hn & Hst & _ & _ & Ho).
  pose proof (Verifier.verify_sound _ _ _ _ _ Hsound Hv) as Hclear.
  assert (Hwf' : world_wf w').
  { destruct Hwf as [Hacc Hcw]. split; [|by rewrite Hc, Hfhe].
    intros a acc Ha. rewrite Hfhe.
    destruct (decide (a = sender)) as [->|Hna].
    - assert (acc = account_of w' sender) by (unfold account_of, find_or; by rewrite Ha).
      subst acc. unfold getEncryptedStakedMicroEth, getPendingWithdrawCipher in Hs', Hp'.
      split; [rewrite Hs' | by rewrite Hp'].
      exact (proj1 (world_wf_account w sender (conj Hacc Hcw))).
    - rewrite (finalizeWithdrawAll_accounts _ _ _ _ _ _ Hf a Hna) in Ha. exact (Hacc a acc Ha). }
  split; [done | congruence | |].
  - intros a. rewrite Hn. destruct (decide (a = sender)) as [->|Hna].
    + unfold getLastAccrual in *. rewrite Hl. apply Ht.
    + unfold getLastAccrual. rewrite Ho by done. apply Ht.
  - rewrite (owed_change w w' sender Hwf); [| rewrite Hfhe; reflexivity
                                           | exact (finalizeWithdrawAll_accounts _ _ _ _ _ _ Hf)].
    unfold account_owed. unfold getEncryptedStakedMicroEth, getPendingWithdrawCipher in *.
    rewrite Hs', Hp', Hfhe, Fhe.decrypt_zero, Hst, He, Hh, <- Hclear.
    rewrite decide_True, decide_False by congruence. lia.
Qed.

Lemma inv_step w w' : inv w -> step w w' -> inv w'.
Proof.
  intros Hinv Hstep. destruct Hstep as [sender m w w' Hne Htr Hr | w d Hd | from to v w w' Hne Hm].
  - apply receive_inv in Hr. destruct m as [value| | |h clear pf].
    + destruct Hr as (w0 & Hmv & Hst). by apply (inv_stake sender value w w0).
    + by apply (inv_accrue sender w).
    + by apply (inv_request sender w).
    + by apply (inv_finalize sender h clear pf w).
  - destruct Hinv as [Hwf Hm Ht Hs]. split; [done | done | | done].
    intros a. specialize (Ht a).
    change (getLastAccrual (advance w d) a) with (getLastAccrual w a). cbn [advance w_now]. lia.
  - destruct Hinv as [Hwf Hmin Ht Hs]. destruct (move_eth_spec _ _ _ _ _ Hm) as [[e ->] He].
    split; [done | done | done |]. rewrite (move_eth_owed _ _ _ _ _ Hm). cbn [w_staking set_eth].
    rewrite He, decide_False by congruence.
    assert (0 <= v) by (apply (move_eth_some_iff from to v w); eauto).
    case_decide; lia.
Qed.

(** Every world reachable from one that satisfies the invariant does. *)
Lemma reachable_inv w0 w : inv w0 -> reachable w0 w -> inv w.
Proof. intros H0 Hr. induction Hr as [w|w1 w2 w3 H12 _ IH]; [done|]. apply IH. by apply (inv_step w1). Qed.

End Steps.

(** ** The deployed system *)

Section Deployed.
Context {S : Type} `{Fhe.FheLaws S}.
Implicit Types (w : world S).

Lemma owed_account_le w a : account_owed (w_fhe w) (account_of w a) <= owed w.
Proof.
  unfold owed. rewrite (owed_in_split _ _ a). unfold account_of.
  pose proof (owed_in_nonneg (w_fhe w) (delete a (w_accounts w))). lia.
Qed.

Lemma deploy_inv env deployer staking_addr (ch : Deploy.chain S) w :
  0 <= Deploy.ch_now ch -> 0 <= find_or 0 (Deploy.ch_eth ch) staking_addr ->
  Deploy.deploy_func env deployer staking_addr None ch = Ok w -> inv w.
Proof.
  intros Hn He Hd. apply Deploy.deploy_func_fresh_eq in Hd as ->.
  destruct (Deploy.deployed_world_spec deployer staking_addr ch) as (Hwf & Hm & _).
  split; [done | done | |].
  - intros a. unfold getLastAccrual, account_of, find_or. cbn. by rewrite lookup_empty.
  - unfold owed. cbn. by rewrite owed_in_empty.
Qed.

(** C1: in every world reachable from a fresh deployment by the deploy
    script, every handle held is valid, the staking contract is still the
    coin's minter, no account's last accrual lies in the future, and the
    staking contract holds at least the stakes and pending withdrawals it
    owes (in wei). *)
Theorem deployed_invariant env deployer staking_addr (ch : Deploy.chain S) w0 w :
  0 <= Deploy.ch_now ch -> 0 <= find_or 0 (Deploy.ch_eth ch) staking_addr ->
  Deploy.deploy_func env deployer staking_addr None ch = Ok w0 -> reachable w0 w ->
  world_wf w /\ Coin.coin_minter (w_coin w) = Some (w_staking w) /\
  (forall a, getLastAccrual w a <= w_now w) /\ owed w <= eth_of w (w_staking w).
Proof.
  intros Hn He Hd Hr. destruct (reachable_inv w0 w (deploy_inv env deployer staking_addr ch w0 Hn He Hd) Hr).
  auto.
Qed.

(** C21: in every world reachable from a deployment, [claimInterest]
    succeeds for every account: a claim with no stake or no elapsed time
    mints zero and is never an error. *)
Theorem deployed_claim_never_fails env deployer staking_addr (ch : Deploy.chain S) w0 w sender :
  0 <= Deploy.ch_now ch -> 0 <= find_or 0 (Deploy.ch_eth ch) staking_addr ->
  Deploy.deploy_func env deployer staking_addr None ch = Ok w0 -> reachable w0 w ->
  exists w', claimInterest sender w = Ok w'.
Proof.
  intros Hn He Hd Hr.
  destruct (reachable_inv w0 w (deploy_inv env deployer staking_addr ch w0 Hn He Hd) Hr) as [_ Hm _ _].
  by apply accrue_ok.
Qed.

End Deployed.

(** ** The example chain

    On the example chain of [Deploy], alice stakes one ether right after
    the deployment. *)

Definition w1_ex : world Fhe.Store :=
  ok_or (receive Deploy.alice_ex (Stake 1000000000000000000) Deploy.w0_ex) Deploy.w0_ex.

Lemma w1_ex_received : receive Deploy.alice_ex (Stake 1000000000000000000) Deploy.w0_ex = Ok w1_ex.
Proof. vm_compute. reflexivity. Qed.

Lemma w1_ex_reachable : reachable Deploy.w0_ex w1_ex.
Proof.
  eapply rtc_l; [|apply rtc_refl].
  apply (step_tx Deploy.alice_ex (Stake 1000000000000000000)); [discriminate | exact I | exact w1_ex_received].
Qed.

Lemma chain_ex_bounds :
  0 <= Deploy.ch_now Deploy.chain_ex /\ 0 <= find_or 0 (Deploy.ch_eth Deploy.chain_ex) Deploy.staking_ex.
Proof. split; vm_compute; congruence. Qed.

Lemma w1_ex_inv : inv w1_ex.
Proof.
  apply (reachable_inv Deploy.w0_ex); [|exact w1_ex_reachable].
  apply (deploy_inv Deploy.hardhat_env Deploy.deployer_ex Deploy.staking_ex Deploy.chain_ex);
    [exact (proj1 chain_ex_bounds) | exact (proj2 chain_ex_bounds) | exact Deploy.w0_ex_deployed].
Qed.

Lemma deployed_invariant_witness :
  world_wf w1_ex /\ Coin.coin_minter (w_coin w1_ex) = Some (w_staking w1_ex) /\
  (forall a, getLastAccrual w1_ex a <= w_now w1_ex) /\ owed w1_ex <= eth_of w1_ex (w_staking w1_ex).
Proof.
  apply (deployed_invariant Deploy.hardhat_env Deploy.deployer_ex Deploy.staking_ex Deploy.chain_ex Deploy.w0_ex).
  - exact (proj1 chain_ex_bounds).
  - exact (proj2 chain_ex_bounds).
  - exact Deploy.w0_ex_deployed.
  - exact w1_ex_reachable.
Defined.

Lemma deployed_claim_never_fails_witness : exists w', claimInterest Deploy.alice_ex w1_ex = Ok w'.
Proof.
  apply (deployed_claim_never_fails Deploy.hardhat_env Deploy.deployer_ex Deploy.staking_ex Deploy.chain_ex Deploy.w0_ex).
  - exact (proj1 chain_ex_bounds).
  - exact (proj2 chain_ex_bounds).
  - exact Deploy.w0_ex_deployed.
  - exact w1_ex_reachable.
Defined.

End Invariants.
