(* ===== verification/Client.v ===== *)
(** * Client side: the hardhat tasks and the React staking page

    Two clients drive the contracts.  [src/tasks/SecureAPR.ts] defines
    one hardhat task per contract operation, each sending one transaction
    from the first signer and printing progress; the decrypt tasks read a
    handle and print its plaintext, and the addresses task prints the two
    addresses hardhat-deploy recorded.  [src/ui/src/components/StakingApp.tsx]
    holds the page state in React hooks and runs one async handler per
    button, each of the shape [setError(null); setBusy(tag); try {...}
    catch {setError} finally {setBusy(null)}].

    A task is a function from the chain world to the new world and the
    lines it prints ([log]), or its error.  A page handler is a function
    from the page state [ui] and the world to the next page state and
    world; [run] is the common try/catch/finally skeleton, its [catch]
    keeping the error with the handler's ["Failed to ..."] fallback.  Contract calls
    go through [Staking.receive], so the native value of [stake] is moved
    before the call, as on chain.  [ethers.parseEther] is a library
    function and is a parameter of the definitions that use it.  The
    user-decryption protocol (keypair, EIP-712 signature, relayer) is
    modelled by its result, the plaintext of the handle; the access
    control list that the relayer checks is not modelled. *)

From Stdlib Require Import ZArith String Lia.
From stdpp Require Import base gmap list.
From S2P Require Import Prelude Fhe Verifier Coin Staking Format Deploy Invariants.

Open Scope Z_scope.

Module Client.
Import Staking.

(** ** Tasks *)

(** The lines the tasks print with [console.log]; transaction hashes are
    not modelled. *)
Inductive log :=
| LogWaitTx
| LogStaked (eth : string)
| LogInterestClaimed
| LogEncryptedStake (h : handle)
| LogClearStake (v : Z)
| LogEncryptedBalance (h : handle)
| LogClearBalance (v : Z)
| LogWithdrawRequested
| LogNoPending
| LogWithdrawFinalized
| LogContractAddress (name : string) (a : address).

Inductive task_error :=
| ParseEtherError
| TaskTxFailed (e : tx_error)
| NoDeployment (name : string)
| InvalidArgument.

(** hardhat-deploy's records, by contract name, and [deployments.get],
    which throws when no deployment is recorded under the name. *)
Definition records := string -> option address.

Definition deployments_get (recs : records) (name : string) : result address task_error :=
  match recs name with Some a => Ok a | None => Err (NoDeployment name) end.

(** [task:secureapr:addresses]: both lookups come before the first line
    is printed. *)
Definition task_addresses (recs : records) : result (list log) task_error :=
  let! coin := deployments_get recs "ConfidentialCoin" in
  let! staking := deployments_get recs "SecureAPRStaking" in
  Ok [LogContractAddress "ConfidentialCoin" coin; LogContractAddress "SecureAPRStaking" staking].

Section Tasks.
Context {S : Type} `{!Fhe.FheBackend S}.

(** [contract.connect(signer).f(...)] followed by [tx.wait()]. *)
Definition send_tx (signer : address) (m : msg) (w : world S) : result (world S) task_error :=
  match receive signer m w with Ok w' => Ok w' | Err e => Err (TaskTxFailed e) end.

(** [fhevm.userDecryptEuint(FhevmType.euint64, h, ...)]: the plaintext. *)
Definition userDecryptEuint (s : S) (h : handle) : Z := Fhe.fhe_decrypt s h.

(** [task:secureapr:stake --eth <eth>]. *)
Definition task_stake (parseEther : string -> option Z) (signer : address) (eth : string)
    (w : world S) : result (world S * list log) task_error :=
  match parseEther eth with
  | None => Err ParseEtherError
  | Some value =>
      let! w' := send_tx signer (Stake value) w in
      Ok (w', [LogWaitTx; LogStaked eth])
  end.

(** [task:secureapr:claim]. *)
Definition task_claim (signer : address) (w : world S) : result (world S * list log) task_error :=
  let! w' := send_tx signer ClaimInterest w in
  Ok (w', [LogWaitTx; LogInterestClaimed]).

(** [task:secureapr:decrypt-stake]: the zero handle is printed as 0
    without a decryption. *)
Definition task_decrypt_stake (signer : address) (w : world S) : list log :=
  let encrypted := getEncryptedStakedMicroEth w signer in
  if (encrypted =? ZERO_HANDLE)%N then [LogEncryptedStake encrypted; LogClearStake 0]
  else
    let clear := userDecryptEuint (w_fhe w) encrypted in
    [LogEncryptedStake encrypted; LogClearStake clear].

(** [task:secureapr:decrypt-ccoin]. *)
Definition task_decrypt_ccoin (signer : address) (w : world S) : list log :=
  let encrypted := Coin.confidentialBalanceOf (w_coin w) signer in
  if (encrypted =? ZERO_HANDLE)%N then [LogEncryptedBalance encrypted; LogClearBalance 0]
  else
    let clear := userDecryptEuint (w_fhe w) encrypted in
    [LogEncryptedBalance encrypted; LogClearBalance clear].

(** [task:secureapr:request-withdraw]. *)
Definition task_request_withdraw (signer : address) (w : world S)
    : result (world S * list log) task_error :=
  let! w' := send_tx signer RequestWithdrawAll w in
  Ok (w', [LogWaitTx; LogWithdrawRequested]).

(** [task:secureapr:finalize-withdraw]: read the pending handle, have the
    oracle [fhevm.publicDecrypt] decrypt it, and submit its clear value
    and proof.  The oracle is an external collaborator, a parameter. *)
Definition task_finalize_withdraw_by
    (publicDecrypt : list handle -> list (handle * Z) * Verifier.proof)
    (signer : address) (w : world S) : result (world S * list log) task_error :=
  let pending := getPendingWithdrawCipher w signer in
  if (pending =? ZERO_HANDLE)%N then Ok (w, [LogNoPending])
  else
    let '(clearValues, decryptionProof) := publicDecrypt [pending] in
    match Verifier.clear_value clearValues pending with
    | None => Err InvalidArgument
    | Some clearMicroEth =>
        let! w' := send_tx signer (FinalizeWithdrawAll pending clearMicroEth decryptionProof) w in
        Ok (w', [LogWaitTx; LogWithdrawFinalized])
    end.

(** The task with the coordinator's honest oracle. *)
Definition task_finalize_withdraw (signer : address) (w : world S)
    : result (world S * list log) task_error :=
  task_finalize_withdraw_by (Verifier.publicDecrypt (w_kms w) (w_fhe w)) signer w.

End Tasks.

(** ** The staking page *)

(** What a handler's [catch] stores in [error]: the message of an
    [Error] the handler throws, the error of [ethers.parseEther], ethers'
    [INVALID_ARGUMENT] error for an [undefined] argument, or the
    reverted transaction. *)
Inductive ui_error :=
| ErrorMessage (m : string)
| ParseEtherFailed
| ArgumentInvalid
| TxReverted (e : tx_error).

(** What a handler's [catch] keeps: the error it caught and the text the
    handler falls back to, [(e as Error).message || fallback]; the
    message itself is rendered by the page (View.v). *)
Inductive caught := Caught (e : ui_error) (fallback : string).

(** The wallet and encryption-service hooks: [useAccount],
    [useEthersSigner] and [useZamaInstance]. *)
Record app_env := mkAppEnv {
  isConnected : bool;
  connected_address : option address;
  signer : option address;
  instance : bool;
  zamaLoading : bool
}.

Definition isConfigured : bool := true.

(** The page state: the five [useState] hooks and the [data] of the
    three [useReadContract] queries ([None] while not loaded). *)
Record ui := mkUi {
  stakeEth : string;
  busy : option string;
  error : option caught;
  decryptedStakeMicroEth : option Z;
  decryptedCcoinUnits : option Z;
  stakeCipher : option handle;
  pendingWithdrawCipher : option handle;
  ccoinBalanceCipher : option handle
}.

Definition ui_init : ui := mkUi "0.1" None None None None None None None.

Definition setBusy (b : option string) (u : ui) : ui :=
  mkUi (stakeEth u) b (error u) (decryptedStakeMicroEth u) (decryptedCcoinUnits u)
    (stakeCipher u) (pendingWithdrawCipher u) (ccoinBalanceCipher u).
Definition setError (e : option caught) (u : ui) : ui :=
  mkUi (stakeEth u) (busy u) e (decryptedStakeMicroEth u) (decryptedCcoinUnits u)
    (stakeCipher u) (pendingWithdrawCipher u) (ccoinBalanceCipher u).
Definition setDecryptedStakeMicroEth (v : option Z) (u : ui) : ui :=
  mkUi (stakeEth u) (busy u) (error u) v (decryptedCcoinUnits u)
    (stakeCipher u) (pendingWithdrawCipher u) (ccoinBalanceCipher u).
Definition setDecryptedCcoinUnits (v : option Z) (u : ui) : ui :=
  mkUi (stakeEth u) (busy u) (error u) (decryptedStakeMicroEth u) v
    (stakeCipher u) (pendingWithdrawCipher u) (ccoinBalanceCipher u).
Definition setStakeEth (v : string) (u : ui) : ui :=
  mkUi v (busy u) (error u) (decryptedStakeMicroEth u) (decryptedCcoinUnits u)
    (stakeCipher u) (pendingWithdrawCipher u) (ccoinBalanceCipher u).

Section Page.
Context {S : Type} `{!Fhe.FheBackend S}.
Implicit Types (w : world S) (u : ui) (env : app_env).

(** [query.refetch()]: the query reads its getter at the connected
    address; without an address the data is left as it was. *)
Definition refetch (env : app_env) (get : address -> handle) (cur : option handle) : option handle :=
  match connected_address env with Some a => Some (get a) | None => cur end.

Definition refetch_stake env w u : ui :=
  mkUi (stakeEth u) (busy u) (error u) (decryptedStakeMicroEth u) (decryptedCcoinUnits u)
    (refetch env (getEncryptedStakedMicroEth w) (stakeCipher u))
    (pendingWithdrawCipher u) (ccoinBalanceCipher u).
Definition refetch_pending env w u : ui :=
  mkUi (stakeEth u) (busy u) (error u) (decryptedStakeMicroEth u) (decryptedCcoinUnits u)
    (stakeCipher u) (refetch env (getPendingWithdrawCipher w) (pendingWithdrawCipher u))
    (ccoinBalanceCipher u).
Definition refetch_ccoin env w u : ui :=
  mkUi (stakeEth u) (busy u) (error u) (decryptedStakeMicroEth u) (decryptedCcoinUnits u)
    (stakeCipher u) (pendingWithdrawCipher u)
    (refetch env (Coin.confidentialBalanceOf (w_coin w)) (ccoinBalanceCipher u)).

(** [getStakingContract()]: the signer's address, or the thrown error. *)
Definition getStakingContract env : result address ui_error :=
  match signer env with
  | Some a => Ok a
  | None => Err (ErrorMessage "Wallet not connected")
  end.

(** [userDecrypt(handle, contractAddress)]: its checks, then the relayer's
    answer, the plaintext of the handle. *)
Definition userDecrypt env w (h : handle) : result Z ui_error :=
  if negb (instance env) then Err (ErrorMessage "Encryption service not ready")
  else if negb (isConnected env) || negb (bool_decide (is_Some (connected_address env)))
  then Err (ErrorMessage "Wallet not connected")
  else let! _ := getStakingContract env in Ok (Fhe.fhe_decrypt (w_fhe w) h).

(** A transaction from the page, awaited with [tx.wait()]. *)
Definition send_ui (sender : address) (m : msg) w : result (world S) ui_error :=
  match receive sender m w with Ok w' => Ok w' | Err e => Err (TxReverted e) end.

(** The skeleton every handler shares; an error leaves the world as it
    was, since every error arises before or from the one transaction. *)
Definition run (tag fallback : string) (body : ui -> world S -> result (ui * world S) ui_error)
    u w : ui * world S :=
  let u0 := setBusy (Some tag) (setError None u) in
  match body u0 w with
  | Ok (u1, w1) => (setBusy None u1, w1)
  | Err e => (setBusy None (setError (Some (Caught e fallback)) u0), w)
  end.

Definition onStake_body (parseEther : string -> option Z) env u w
    : result (ui * world S) ui_error :=
  let! sender := getStakingContract env in
  match parseEther (stakeEth u) with
  | None => Err ParseEtherFailed
  | Some value =>
      if (value =? 0) || negb (value mod MICRO_UNIT =? 0)
      then Err (ErrorMessage "Amount must be a multiple of 0.000001 ETH")
      else
        let! w' := send_ui sender (Stake value) w in
        Ok (refetch_pending env w' (refetch_ccoin env w' (refetch_stake env w' u)), w')
  end.

Definition onStake parseEther env u w : ui * world S :=
  run "staking" "Failed to stake" (onStake_body parseEther env) u w.

Definition onClaim_body env u w : result (ui * world S) ui_error :=
  let! sender := getStakingContract env in
  let! w' := send_ui sender ClaimInterest w in
  Ok (refetch_ccoin env w' u, w').

Definition onClaim env u w : ui * world S := run "claim" "Failed to claim" (onClaim_body env) u w.

Definition onDecryptStake_body env u w : result (ui * world S) ui_error :=
  let handle := default ZERO_HANDLE (stakeCipher u) in
  if (handle =? ZERO_HANDLE)%N then Ok (setDecryptedStakeMicroEth (Some 0) u, w)
  else
    let! clear := userDecrypt env w handle in
    Ok (setDecryptedStakeMicroEth (Some clear) u, w).

Definition onDecryptStake env u w : ui * world S :=
  run "decryptStake" "Failed to decrypt stake" (onDecryptStake_body env) u w.

Definition onDecryptCcoin_body env u w : result (ui * world S) ui_error :=
  let handle := default ZERO_HANDLE (ccoinBalanceCipher u) in
  if (handle =? ZERO_HANDLE)%N then Ok (setDecryptedCcoinUnits (Some 0) u, w)
  else
    let! clear := userDecrypt env w handle in
    Ok (setDecryptedCcoinUnits (Some clear) u, w).

Definition onDecryptCcoin env u w : ui * world S :=
  run "decryptCcoin" "Failed to decrypt balance" (onDecryptCcoin_body env) u w.

Definition onRequestWithdraw_body env u w : result (ui * world S) ui_error :=
  let! sender := getStakingContract env in
  let! w' := send_ui sender RequestWithdrawAll w in
  Ok (refetch_pending env w' u, w').

Definition onRequestWithdraw env u w : ui * world S :=
  run "requestWithdraw" "Failed to request withdraw" (onRequestWithdraw_body env) u w.

Definition onFinalizeWithdraw_body env u w : result (ui * world S) ui_error :=
  if negb (instance env) then Err (ErrorMessage "Encryption service not ready")
  else
    let! sender := getStakingContract env in
    let handle := default ZERO_HANDLE (pendingWithdrawCipher u) in
    if (handle =? ZERO_HANDLE)%N then Err (ErrorMessage "No pending withdraw request")
    else
      let '(clearValues, decryptionProof) := Verifier.publicDecrypt (w_kms w) (w_fhe w) [handle] in
      match Verifier.clear_value clearValues handle with
      | None => Err ArgumentInvalid
      | Some clearMicroEth =>
          let! w' := send_ui sender (FinalizeWithdrawAll handle clearMicroEth decryptionProof) w in
          Ok (refetch_pending env w' (refetch_stake env w' (setDecryptedStakeMicroEth None u)), w')
      end.

Definition onFinalizeWithdraw env u w : ui * world S :=
  run "finalizeWithdraw" "Failed to finalize withdraw" (onFinalizeWithdraw_body env) u w.

(** The page's buttons, their [disabled] conditions and their handlers. *)
Inductive button :=
| StakeButton | ClaimButton | DecryptStakeButton | DecryptCcoinButton
| RequestWithdrawButton | FinalizeWithdrawButton.

Definition disabled env u (b : button) : bool :=
  match b with
  | StakeButton | ClaimButton | RequestWithdrawButton =>
      negb (isConnected env) || zamaLoading env || negb isConfigured ||
      negb (bool_decide (busy u = None))
  | DecryptStakeButton | DecryptCcoinButton | FinalizeWithdrawButton =>
      negb (isConnected env) || zamaLoading env || negb (instance env) || negb isConfigured ||
      negb (bool_decide (busy u = None))
  end.

Definition onClick parseEther env (b : button) u w : ui * world S :=
  match b with
  | StakeButton => onStake parseEther env u w
  | ClaimButton => onClaim env u w
  | DecryptStakeButton => onDecryptStake env u w
  | DecryptCcoinButton => onDecryptCcoin env u w
  | RequestWithdrawButton => onRequestWithdraw env u w
  | FinalizeWithdrawButton => onFinalizeWithdraw env u w
  end.

End Page.

(** The busy tag each handler sets first. *)
Definition busy_tag (b : button) : string :=
  match b with
  | StakeButton => "staking"
  | ClaimButton => "claim"
  | DecryptStakeButton => "decryptStake"
  | DecryptCcoinButton => "decryptCcoin"
  | RequestWithdrawButton => "requestWithdraw"
  | FinalizeWithdrawButton => "finalizeWithdraw"
  end.

(** A connected wallet whose signer is the connected account, with the
    encryption service loaded. *)
Definition env_ready (env : app_env) (a : address) : Prop :=
  isConnected env = true /\ instance env = true /\
  connected_address env = Some a /\ signer env = Some a.

(** The text of the cCoin balance's [Clear:] line. *)
Definition ccoinClearText (u : ui) : string :=
  match decryptedCcoinUnits u with
  | None => "-"
  | Some v => Format.formatCcoinUnits v ++ " cCoin"
  end.

(** ** Shared lemmas *)

Section Lemmas.
Context {S : Type} `{Fhe.FheLaws S}.
Implicit Types (w : world S).

Lemma decrypt_handle_or_zero (s : S) (h : handle) :
  (if (h =? ZERO_HANDLE)%N then 0 else Fhe.fhe_decrypt s h) = Fhe.fhe_decrypt s h.
Proof. destruct (N.eqb_spec h ZERO_HANDLE) as [->|]; [symmetry; apply Fhe.decrypt_zero | done]. Qed.

(** A [stake] transaction with its native value: the value moves to the
    staking contract and [stake] succeeds. *)
Lemma receive_stake_ok sender value w :
  world_wf w -> sender <> w_staking w ->
  0 < value -> value mod MICRO_UNIT = 0 -> value <= eth_of w sender ->
  (getLastAccrual w sender = 0 \/ Coin.coin_minter (w_coin w) = Some (w_staking w)) ->
  exists w', receive sender (Stake value) w = Ok w' /\
    stake_of w' sender = wrap64 (stake_of w sender + value / MICRO_UNIT) /\
    getLastAccrual w' sender = w_now w /\
    getPendingWithdrawCipher w' sender = getPendingWithdrawCipher w sender /\
    eth_of w' sender = eth_of w sender - value /\
    eth_of w' (w_staking w) = eth_of w (w_staking w) + value /\
    world_wf w' /\ env_kept w w'.
Proof.
  intros Hwf Hns Hv Hm Hle Hpre.
  destruct (proj2 (move_eth_some_iff sender (w_staking w) value w) ltac:(lia)) as [w0 Hmv].
  destruct (move_eth_spec _ _ _ _ _ Hmv) as [[e ->] He].
  destruct (stake_correct sender value (set_eth w e) (world_wf_set_eth w e Hwf) Hv Hm Hpre)
    as (w' & Hst & Hs & Hl & Hp).
  destruct (stake_spec sender value _ w' (world_wf_set_eth w e Hwf) Hst) as (Hwf' & Hk & Hew & _).
  assert (Hew' : forall a, eth_of w' a = eth_of (set_eth w e) a) by (intros a; unfold eth_of; by rewrite Hew).
  exists w'. unfold receive. rewrite Hmv, Hst. split; [done|].
  rewrite !Hew', !He.
  repeat case_decide; try congruence.
  split; [exact Hs|]. split; [exact Hl|]. split; [exact Hp|]. split; [lia|]. split; [lia|].
  split; [exact Hwf'|].
  exact Hk.
Qed.

Lemma send_tx_ok signer m w w' : send_tx signer m w = Ok w' <-> receive signer m w = Ok w'.
Proof. unfold send_tx. destruct (receive signer m w); split; congruence. Qed.

Lemma task_request_withdraw_inv signer w w1 logs :
  task_request_withdraw signer w = Ok (w1, logs) -> requestWithdrawAll signer w = Ok w1.
Proof.
  unfold task_request_withdraw. destruct (send_tx _ _ _) as [w'|] eqn:Hs; [|discriminate].
  intros [= <- _]. apply send_tx_ok in Hs. exact (receive_inv _ _ _ _ Hs).
Qed.

(** A Request withdraw that ends without error: the contract call
    succeeded and the page refetched the pending query only. *)
Lemma onRequestWithdraw_inv env a u w u1 w1 :
  env_ready env a -> onRequestWithdraw env u w = (u1, w1) -> error u1 = None ->
  requestWithdrawAll a w = Ok w1 /\
  u1 = setBusy None (refetch_pending env w1 (setBusy (Some "requestWithdraw"%string) (setError None u))).
Proof.
  intros (_ & _ & _ & Hsig) Hrun Herr.
  unfold onRequestWithdraw, run, onRequestWithdraw_body, getStakingContract, send_ui in Hrun.
  rewrite Hsig in Hrun. cbn [rbind] in Hrun.
  destruct (receive a RequestWithdrawAll w) as [w'|e] eqn:Hrc; injection Hrun as <- <-; [|discriminate].
  split; [exact (receive_inv _ _ _ _ Hrc) | reflexivity].
Qed.

(** Solvency bounds the stake of every account in a reachable world. *)
Lemma solvent_stake w a :
  Invariants.inv w -> stake_of w a * MICRO_UNIT <= eth_of w (w_staking w).
Proof.
  intros [_ _ _ Hsolv]. pose proof (Invariants.owed_account_le w a) as Ho.
  unfold Invariants.account_owed in Ho. unfold stake_of.
  pose proof (Fhe.fhe_decrypt_range (w_fhe w) (acc_pending (account_of w a))).
  simpl_u64. lia.
Qed.

Lemma deployed_reachable_inv env deployer staking_addr (ch : Deploy.chain S) w0 w :
  0 <= Deploy.ch_now ch -> 0 <= find_or 0 (Deploy.ch_eth ch) staking_addr ->
  Deploy.deploy_func env deployer staking_addr None ch = Ok w0 ->
  Invariants.reachable w0 w -> Invariants.inv w.
Proof.
  intros Hn He Hd. apply Invariants.reachable_inv. exact (Invariants.deploy_inv _ _ _ _ _ Hn He Hd).
Qed.

End Lemmas.

(** ** The tasks *)

Section TaskTheorems.
Context {S : Type} `{Fhe.FheLaws S}.
Implicit Types (w : world S).

(** the decrypt-stake task prints the plaintext of the signer's stake
    handle in both of its branches: the zero handle, printed as 0 without
    a decryption, is the handle of the stake 0. *)
Theorem task_decrypt_stake_prints_stake signer w :
  task_decrypt_stake signer w =
    [LogEncryptedStake (getEncryptedStakedMicroEth w signer); LogClearStake (stake_of w signer)].
Proof.
  unfold task_decrypt_stake, userDecryptEuint, stake_of, getEncryptedStakedMicroEth. cbv zeta.
  rewrite <- (decrypt_handle_or_zero (w_fhe w)). by destruct (_ =? _)%N.
Qed.

(** the decrypt-ccoin task prints the signer's cCoin balance, the
    zero handle included. *)
Theorem task_decrypt_ccoin_prints_balance signer w :
  task_decrypt_ccoin signer w =
    [LogEncryptedBalance (Coin.confidentialBalanceOf (w_coin w) signer);
     LogClearBalance (balance_of w signer)].
Proof.
  unfold task_decrypt_ccoin, userDecryptEuint, balance_of. cbv zeta.
  rewrite <- (decrypt_handle_or_zero (w_fhe w)). by destruct (_ =? _)%N.
Qed.

(** C6: the stake task with [--eth] parsed to a positive whole number of
    microETH [k * 10^12] wei succeeds (the signer holding the value, and
    the account's first stake or the staking contract being the coin's
    minter); the decrypt-stake task then prints the prior stake plus [k]
    (modulo [2^64]), and the value has moved from the signer to the
    staking contract. *)
Theorem task_stake_then_decrypt parseEther signer eth value w :
  world_wf w -> parseEther eth = Some value -> signer <> w_staking w ->
  0 < value -> value mod MICRO_UNIT = 0 -> value <= eth_of w signer ->
  (getLastAccrual w signer = 0 \/ Coin.coin_minter (w_coin w) = Some (w_staking w)) ->
  exists w', task_stake parseEther signer eth w = Ok (w', [LogWaitTx; LogStaked eth]) /\
    task_decrypt_stake signer w' =
      [LogEncryptedStake (getEncryptedStakedMicroEth w' signer);
       LogClearStake (wrap64 (stake_of w signer + value / MICRO_UNIT))] /\
    eth_of w' signer = eth_of w signer - value /\
    eth_of w' (w_staking w) = eth_of w (w_staking w) + value.
Proof.
  intros Hwf Hp Hns Hv Hm Hle Hpre.
  destruct (receive_stake_ok signer value w Hwf Hns Hv Hm Hle Hpre) as (w' & Hr & Hs & _ & _ & He1 & He2 & _).
  exists w'. unfold task_stake, send_tx. rewrite Hp, Hr.
  split; [done|]. rewrite task_decrypt_stake_prints_stake, Hs. auto.
Qed.

(** C17: the stake task with [--eth] parsed to zero, or to an amount that
    is not a whole number of microETH, fails with the contract's
    [InvalidAmount] (the signer holding the value). *)
Theorem task_stake_invalid_amount parseEther signer eth value w :
  parseEther eth = Some value -> 0 <= value <= eth_of w signer ->
  value = 0 \/ value mod MICRO_UNIT <> 0 ->
  task_stake parseEther signer eth w = Err (TaskTxFailed (Revert InvalidAmount)).
Proof.
  intros Hp Hle Hbad. unfold task_stake, send_tx, receive. rewrite Hp.
  destruct (proj2 (move_eth_some_iff signer (w_staking w) value w) Hle) as [w0 ->].
  by rewrite (proj2 (stake_invalid_amount signer value w0) Hbad).
Qed.

(** C14: after one day, the claim task mints [S * 10] cCoin units for a
    stake of [S] microETH, which the decrypt-ccoin task prints added to
    the prior balance. *)
Theorem task_claim_one_day signer w :
  world_wf w -> Coin.coin_minter (w_coin w) = Some (w_staking w) ->
  w_now w = getLastAccrual w signer + SECONDS_PER_DAY ->
  stake_of w signer * RATE_PER_ETH_PER_DAY * SECONDS_PER_DAY < UINT64_MODULUS ->
  exists w', task_claim signer w = Ok (w', [LogWaitTx; LogInterestClaimed]) /\
    task_decrypt_ccoin signer w' =
      [LogEncryptedBalance (Coin.confidentialBalanceOf (w_coin w') signer);
       LogClearBalance (wrap64 (balance_of w signer + stake_of w signer * RATE_PER_ETH_PER_DAY))].
Proof.
  intros Hwf Hm Hnow Hov.
  destruct (claim_one_day signer w Hwf Hm Hnow Hov) as (w' & Hc & Hb & _).
  exists w'. unfold task_claim, send_tx, receive, revert_on. rewrite Hc.
  split; [done|]. by rewrite task_decrypt_ccoin_prints_balance, Hb.
Qed.

(** C19: the request-withdraw task cannot be run twice: once it succeeds,
    running it again before the finalize task fails with
    [WithdrawalAlreadyPending]. *)
Theorem task_request_twice signer w w1 logs :
  world_wf w -> task_request_withdraw signer w = Ok (w1, logs) ->
  task_request_withdraw signer w1 = Err (TaskTxFailed (Revert WithdrawalAlreadyPending)).
Proof.
  intros Hwf Hr. apply task_request_withdraw_inv in Hr.
  unfold task_request_withdraw, send_tx, receive, revert_on.
  by rewrite (request_twice_already_pending signer w w1).
Qed.

(** C2: in every world reachable from a deployment, a signer that accepts
    native currency and has run the request-withdraw task gets its whole
    stake back from the finalize task: the oracle's public decryption and
    proof are accepted, the signer receives the decrypted stake in wei,
    and its stake and pending handles are the zero handle.  The solvency
    invariant is what makes the staking contract able to pay. *)
Theorem task_withdraw_completes env deployer staking_addr (ch : Deploy.chain S) w0 w signer w1 logs :
  0 <= Deploy.ch_now ch -> 0 <= find_or 0 (Deploy.ch_eth ch) staking_addr ->
  Deploy.deploy_func env deployer staking_addr None ch = Ok w0 -> Invariants.reachable w0 w ->
  signer <> w_staking w -> signer ∉ w_rejects w ->
  task_request_withdraw signer w = Ok (w1, logs) ->
  exists w2, task_finalize_withdraw signer w1 = Ok (w2, [LogWaitTx; LogWithdrawFinalized]) /\
    eth_of w2 signer = eth_of w signer + stake_of w signer * MICRO_UNIT /\
    getPendingWithdrawCipher w2 signer = ZERO_HANDLE /\
    getEncryptedStakedMicroEth w2 signer = ZERO_HANDLE.
Proof.
  intros Hn He Hd Hreach Hns Hrej Hr.
  pose proof (deployed_reachable_inv env deployer staking_addr ch w0 w Hn He Hd Hreach) as Hinv.
  pose proof (task_request_withdraw_inv _ _ _ _ Hr) as Hrc.
  pose proof (withdraw_roundtrip signer w w1 (Invariants.inv_wf w Hinv) Hrc Hns Hrej
                (solvent_stake w signer Hinv)) as Hw.
  destruct (requestWithdrawAll_spec signer w w1 (Invariants.inv_wf w Hinv) Hrc)
    as (_ & Hs & _ & Hp1 & _).
  cbv zeta in Hw. unfold task_finalize_withdraw, task_finalize_withdraw_by. cbv zeta.
  replace (getPendingWithdrawCipher w1 signer =? ZERO_HANDLE)%N with false
    by (symmetry; apply N.eqb_neq; congruence).
  destruct (Verifier.publicDecrypt _ _ _) as [clears pf].
  destruct Hw as (w2 & Hc & Hf & He2 & _ & Hp2 & Hs2). exists w2. rewrite Hc.
  unfold send_tx, receive, revert_on. rewrite Hf. auto.
Qed.

(** C5: whatever the public-decryption oracle answers, the finalize task
    pays nothing wrong: when the coordinator signs only true plaintexts,
    an answer whose clear value for the pending handle is not its
    plaintext makes the task's transaction revert with [InvalidProof],
    and an answer without a clear value for it stops the task before any
    transaction, ethers refusing the [undefined] argument. *)
Theorem task_finalize_wrong_value publicDecrypt signer w :
  getPendingWithdrawCipher w signer <> ZERO_HANDLE ->
  Verifier.proof_sound (w_kms w) (w_fhe w) (publicDecrypt [getPendingWithdrawCipher w signer]).2 ->
  (forall c, Verifier.clear_value (publicDecrypt [getPendingWithdrawCipher w signer]).1
               (getPendingWithdrawCipher w signer) = Some c ->
             c <> Fhe.fhe_decrypt (w_fhe w) (getPendingWithdrawCipher w signer) ->
             task_finalize_withdraw_by publicDecrypt signer w = Err (TaskTxFailed (Revert InvalidProof))) /\
  (Verifier.clear_value (publicDecrypt [getPendingWithdrawCipher w signer]).1
     (getPendingWithdrawCipher w signer) = None ->
   task_finalize_withdraw_by publicDecrypt signer w = Err InvalidArgument).
Proof.
  intros Hp Hsound. unfold task_finalize_withdraw_by. cbv zeta.
  replace (getPendingWithdrawCipher w signer =? ZERO_HANDLE)%N with false by (symmetry; by apply N.eqb_neq).
  destruct (publicDecrypt _) as [clears pf]. cbn in Hsound |- *. split.
  - intros c Hc Hbad. rewrite Hc.
    unfold send_tx, receive, revert_on. by rewrite finalize_invalid_proof by auto.
  - by intros ->.
Qed.

(** C4: under a coordinator that signs only true plaintexts, a successful
    run of the finalize task, whatever oracle it used, pays the signer
    exactly the plaintext of its pending handle in wei (nothing when there
    is no pending withdrawal) and clears the pending withdrawal. *)
Theorem task_finalize_pays_plaintext publicDecrypt signer w w' logs :
  signer <> w_staking w ->
  Verifier.proof_sound (w_kms w) (w_fhe w) (publicDecrypt [getPendingWithdrawCipher w signer]).2 ->
  task_finalize_withdraw_by publicDecrypt signer w = Ok (w', logs) ->
  eth_of w' signer = eth_of w signer +
    Fhe.fhe_decrypt (w_fhe w) (getPendingWithdrawCipher w signer) * MICRO_UNIT /\
  getPendingWithdrawCipher w' signer = ZERO_HANDLE.
Proof.
  intros Hns Hsound Hrun. unfold task_finalize_withdraw_by in Hrun. cbv zeta in Hrun.
  destruct (N.eqb_spec (getPendingWithdrawCipher w signer) ZERO_HANDLE) as [Hp|Hp].
  - injection Hrun as <- _. rewrite Hp. unfold ZERO_HANDLE. rewrite Fhe.decrypt_zero. split; [lia | done].
  - destruct (publicDecrypt _) as [clears pf]. cbn in Hsound.
    destruct (Verifier.clear_value _ _) as [c|]; [|discriminate].
    unfold send_tx, receive, revert_on in Hrun.
    destruct (finalizeWithdrawAll _ _ _ _ _) as [w1|] eqn:Hf; [|discriminate]. injection Hrun as <- _.
    destruct (finalizeWithdrawAll_spec _ _ _ _ _ _ Hf) as (_ & _ & Hv & _ & Hp' & _ & _ & He & _).
    rewrite <- (Verifier.verify_sound _ _ _ _ _ Hsound Hv). rewrite He.
    repeat case_decide; try congruence. split; [lia | done].
Qed.

(** C15: two runs of the claim task with no time elapsed (since the last
    accrual, nor between them) both succeed and mint nothing: the
    decrypt-ccoin task prints the same balance after each. *)
Theorem task_claim_zero_elapsed signer w :
  world_wf w -> Coin.coin_minter (w_coin w) = Some (w_staking w) ->
  getLastAccrual w signer = w_now w ->
  exists w1 w2, task_claim signer w = Ok (w1, [LogWaitTx; LogInterestClaimed]) /\
    task_claim signer w1 = Ok (w2, [LogWaitTx; LogInterestClaimed]) /\
    task_decrypt_ccoin signer w1 =
      [LogEncryptedBalance (Coin.confidentialBalanceOf (w_coin w1) signer); LogClearBalance (balance_of w signer)] /\
    task_decrypt_ccoin signer w2 =
      [LogEncryptedBalance (Coin.confidentialBalanceOf (w_coin w2) signer); LogClearBalance (balance_of w signer)].
Proof.
  intros Hwf Hm Hl.
  destruct (claim_zero_elapsed signer w Hwf Hm Hl) as (w1 & w2 & H1 & H2 & Hb1 & Hb2).
  exists w1, w2. unfold task_claim, send_tx, receive, revert_on. rewrite H1, H2.
  rewrite !task_decrypt_ccoin_prints_balance, Hb1, Hb2. auto.
Qed.

(** C20: the request-withdraw task distinguishes "nothing to withdraw":
    with no pending request and no stake it fails with [NoStake], and with
    a pending request it fails with [WithdrawalAlreadyPending] (the
    staking contract being the coin's minter). *)
Theorem task_request_errors signer w :
  world_wf w -> Coin.coin_minter (w_coin w) = Some (w_staking w) ->
  (getPendingWithdrawCipher w signer = ZERO_HANDLE -> getEncryptedStakedMicroEth w signer = ZERO_HANDLE ->
   task_request_withdraw signer w = Err (TaskTxFailed (Revert NoStake))) /\
  (getPendingWithdrawCipher w signer <> ZERO_HANDLE ->
   task_request_withdraw signer w = Err (TaskTxFailed (Revert WithdrawalAlreadyPending))).
Proof.
  intros Hwf Hm. destruct (requestWithdrawAll_errors signer w Hwf Hm) as [Hpend Hnone].
  unfold task_request_withdraw, send_tx, receive, revert_on. split.
  - intros Hp Hs. by rewrite Hnone.
  - intros Hp. by rewrite Hpend.
Qed.

End TaskTheorems.

(** ** The page *)

Section PageTheorems.
Context {S : Type} `{Fhe.FheLaws S}.
Implicit Types (w : world S) (u : ui) (env : app_env).

Lemma userDecrypt_ready env a w h : env_ready env a -> userDecrypt env w h = Ok (Fhe.fhe_decrypt (w_fhe w) h).
Proof.
  intros (Hc & Hi & Hadr & Hs). unfold userDecrypt, getStakingContract.
  rewrite Hc, Hi, Hadr, Hs. rewrite bool_decide_eq_true_2 by done. reflexivity.
Qed.

Lemma run_ok tag fb body u w u1 w1 :
  body (setBusy (Some tag) (setError None u)) w = Ok (u1, w1) -> run tag fb body u w = (setBusy None u1, w1).
Proof. unfold run. by intros ->. Qed.

Lemma run_err tag fb body u w e :
  body (setBusy (Some tag) (setError None u)) w = Err e ->
  run tag fb body u w = (setBusy None (setError (Some (Caught e fb)) (setBusy (Some tag) (setError None u))), w).
Proof. unfold run. by intros ->. Qed.

(** The Decrypt button of the stake shows the plaintext of the handle the
    page displays. *)
Lemma onDecryptStake_result env a u w :
  env_ready env a ->
  onDecryptStake env u w =
    (setBusy None (setDecryptedStakeMicroEth
       (Some (Fhe.fhe_decrypt (w_fhe w) (default ZERO_HANDLE (stakeCipher u))))
       (setBusy (Some "decryptStake"%string) (setError None u))), w).
Proof.
  intros Hr. unfold onDecryptStake. apply run_ok. unfold onDecryptStake_body. cbn [stakeCipher setBusy setError].
  rewrite <- (decrypt_handle_or_zero (w_fhe w)).
  destruct (_ =? _)%N; [done|]. by rewrite (userDecrypt_ready env a).
Qed.

Lemma onDecryptCcoin_result env a u w :
  env_ready env a ->
  onDecryptCcoin env u w =
    (setBusy None (setDecryptedCcoinUnits
       (Some (Fhe.fhe_decrypt (w_fhe w) (default ZERO_HANDLE (ccoinBalanceCipher u))))
       (setBusy (Some "decryptCcoin"%string) (setError None u))), w).
Proof.
  intros Hr. unfold onDecryptCcoin. apply run_ok. unfold onDecryptCcoin_body. cbn [ccoinBalanceCipher setBusy setError].
  rewrite <- (decrypt_handle_or_zero (w_fhe w)).
  destruct (_ =? _)%N; [done|]. by rewrite (userDecrypt_ready env a).
Qed.

(** C33: every handler of the page ends with [busy] reset to [null], on
    success and on error alike, and while any handler runs (from its
    [setBusy(tag)] on) every button of the page is disabled, so the
    handlers of one page never interleave. *)
Theorem handlers_release_busy parseEther env b u w :
  busy (onClick parseEther env b u w).1 = None /\
  forall b', disabled env (setBusy (Some (busy_tag b)) (setError None u)) b' = true.
Proof.
  split.
  - destruct b; unfold onClick, onStake, onClaim, onDecryptStake, onDecryptCcoin,
      onRequestWithdraw, onFinalizeWithdraw, run;
      match goal with |- context [match ?r with _ => _ end] => destruct r as [[??]|] end; done.
  - intros b'. destruct b'; cbn; rewrite !orb_true_r; reflexivity.
Qed.

(** C18: the page never sends a [stake] transaction that the contract
    rejects with [InvalidAmount]: its own check of the parsed amount is
    the contract's guard, so no run of the Stake button ends with that
    revert, whatever text it falls back to. *)
Theorem onStake_never_invalid_amount parseEther env u w fb :
  error (onStake parseEther env u w).1 <> Some (Caught (TxReverted (Revert InvalidAmount)) fb).
Proof.
  unfold onStake, run, onStake_body, getStakingContract.
  destruct (signer env) as [sender|]; cbn [rbind]; [|done].
  destruct (parseEther _) as [value|]; [|done].
  destruct ((value =? 0) || negb (value mod MICRO_UNIT =? 0)) eqn:Hg; [done|].
  unfold send_ui, receive. destruct (move_eth _ _ _ _) as [w0|]; cbn; [|done].
  destruct (stake sender value w0) as [w1|e] eqn:Hst; cbn; [done|].
  intros [= -> _]. apply stake_invalid_amount in Hst.
  apply orb_false_iff in Hg as [H0 H1]. apply Z.eqb_neq in H0.
  apply negb_false_iff, Z.eqb_eq in H1. lia.
Qed.

(** C7: the Stake button, with the input parsed to a positive whole
    number of microETH [k * 10^12] wei by a connected wallet holding the
    value, stakes it: the page ends without error, its stake query shows
    the new stake handle, and the stake's Decrypt button then shows the
    prior stake plus [k]. *)
Theorem onStake_then_decrypt parseEther env a u w value u1 w1 :
  env_ready env a -> world_wf w -> parseEther (stakeEth u) = Some value -> a <> w_staking w ->
  0 < value -> value mod MICRO_UNIT = 0 -> value <= eth_of w a ->
  (getLastAccrual w a = 0 \/ Coin.coin_minter (w_coin w) = Some (w_staking w)) ->
  onStake parseEther env u w = (u1, w1) ->
  error u1 = None /\ busy u1 = None /\ eth_of w1 a = eth_of w a - value /\
  stakeCipher u1 = Some (getEncryptedStakedMicroEth w1 a) /\
  decryptedStakeMicroEth (onDecryptStake env u1 w1).1 = Some (wrap64 (stake_of w a + value / MICRO_UNIT)).
Proof.
  intros Hr Hwf Hp Hns Hv Hm Hle Hpre Hrun. pose proof Hr as (_ & _ & Hadr & Hsig).
  destruct (receive_stake_ok a value w Hwf Hns Hv Hm Hle Hpre) as (w' & Hrc & Hs & _ & _ & He & _).
  unfold onStake in Hrun. erewrite run_ok in Hrun.
  2: { unfold onStake_body, getStakingContract. rewrite Hsig. cbn [rbind stakeEth setBusy setError].
       rewrite Hp, stake_guard_false by done. unfold send_ui. rewrite Hrc. reflexivity. }
  injection Hrun as <- <-. rewrite (onDecryptStake_result env a) by done.
  unfold refetch_pending, refetch_ccoin, refetch_stake, refetch. rewrite Hadr. cbn.
  unfold getEncryptedStakedMicroEth, stake_of in *. rewrite <- Hs. auto.
Qed.

(** C24: after a successful Request withdraw, the page keeps showing the
    stake handle it had: [onRequestWithdraw] refetches only the pending
    query, so although the contract's stake is now the zero handle, the
    stake's Decrypt button shows the whole former stake. *)
Theorem onRequestWithdraw_stale_stake env a u w u1 w1 :
  env_ready env a -> world_wf w -> stakeCipher u = Some (getEncryptedStakedMicroEth w a) ->
  onRequestWithdraw env u w = (u1, w1) -> error u1 = None ->
  getEncryptedStakedMicroEth w1 a = ZERO_HANDLE /\
  stakeCipher u1 = Some (getEncryptedStakedMicroEth w a) /\
  getEncryptedStakedMicroEth w a <> ZERO_HANDLE /\
  decryptedStakeMicroEth (onDecryptStake env u1 w1).1 = Some (stake_of w a).
Proof.
  intros Hr Hwf Hc Hrun Herr.
  destruct (onRequestWithdraw_inv env a u w u1 w1 Hr Hrun Herr) as [Hrc ->].
  destruct (requestWithdrawAll_spec a w w1 Hwf Hrc) as (_ & Hs & Hs' & Hp' & Hd' & _).
  rewrite (onDecryptStake_result env a) by done. cbn. rewrite Hc. cbn.
  rewrite <- Hp', Hd'. rewrite <- Hp' in Hs. auto.
Qed.

(** C3: in every world reachable from a deployment, the page's withdrawal
    completes: after a successful Request withdraw by a connected account
    that accepts native currency, Finalize withdraw succeeds, pays the
    account its whole stake in wei, and the page's pending and stake
    queries show the zero handle. *)
Theorem ui_withdraw_completes denv deployer staking_addr (ch : Deploy.chain S) w0 env a u w u1 w1 u2 w2 :
  0 <= Deploy.ch_now ch -> 0 <= find_or 0 (Deploy.ch_eth ch) staking_addr ->
  Deploy.deploy_func denv deployer staking_addr None ch = Ok w0 -> Invariants.reachable w0 w ->
  env_ready env a -> a <> w_staking w -> a ∉ w_rejects w ->
  onRequestWithdraw env u w = (u1, w1) -> error u1 = None ->
  onFinalizeWithdraw env u1 w1 = (u2, w2) ->
  error u2 = None /\ busy u2 = None /\
  eth_of w2 a = eth_of w a + stake_of w a * MICRO_UNIT /\
  pendingWithdrawCipher u2 = Some ZERO_HANDLE /\ stakeCipher u2 = Some ZERO_HANDLE /\
  getPendingWithdrawCipher w2 a = ZERO_HANDLE /\ getEncryptedStakedMicroEth w2 a = ZERO_HANDLE.
Proof.
  intros Hn He Hd Hreach Hr Hns Hrej Hrun1 Herr Hrun2. pose proof Hr as (_ & Hi & Hadr & Hsig).
  pose proof (deployed_reachable_inv denv deployer staking_addr ch w0 w Hn He Hd Hreach) as Hinv.
  destruct (onRequestWithdraw_inv env a u w u1 w1 Hr Hrun1 Herr) as [Hrc ->].
  pose proof (withdraw_roundtrip a w w1 (Invariants.inv_wf w Hinv) Hrc Hns Hrej
                (solvent_stake w a Hinv)) as Hw.
  destruct (requestWithdrawAll_spec a w w1 (Invariants.inv_wf w Hinv) Hrc) as (_ & Hs & _ & Hp1 & _).
  cbv zeta in Hw.
  unfold onFinalizeWithdraw, run, onFinalizeWithdraw_body, getStakingContract, send_ui in Hrun2.
  rewrite Hi, Hsig in Hrun2. unfold refetch_pending, refetch in Hrun2. rewrite Hadr in Hrun2.
  cbn -[Verifier.publicDecrypt] in Hrun2.
  replace (getPendingWithdrawCipher w1 a =? ZERO_HANDLE)%N with false in Hrun2
    by (symmetry; apply N.eqb_neq; congruence).
  destruct (Verifier.publicDecrypt _ _ _) as [clears pf].
  destruct Hw as (w2' & Hc & Hf & He2 & _ & Hp2 & Hs2). rewrite Hc in Hrun2.
  unfold receive, revert_on in Hrun2. rewrite Hf in Hrun2. cbn in Hrun2.
  injection Hrun2 as <- <-. unfold refetch_stake, refetch. rewrite Hadr. cbn.
  rewrite Hp2, Hs2. auto 10.
Qed.

(** C16: the page's Claim interest button, for a connected account while
    the staking contract is the coin's minter, succeeds, refreshes the
    balance query, and the balance's Decrypt button then shows the prior
    balance plus the accrual [floor(stake * 10 * elapsed / 86400)] since
    the last accrual (the product fitting in [uint64]). *)
Theorem onClaim_then_decrypt env a u w u1 w1 :
  env_ready env a -> world_wf w -> Coin.coin_minter (w_coin w) = Some (w_staking w) ->
  getLastAccrual w a <= w_now w ->
  stake_of w a * RATE_PER_ETH_PER_DAY * (w_now w - getLastAccrual w a) < UINT64_MODULUS ->
  onClaim env u w = (u1, w1) ->
  error u1 = None /\ ccoinBalanceCipher u1 = Some (Coin.confidentialBalanceOf (w_coin w1) a) /\
  decryptedCcoinUnits (onDecryptCcoin env u1 w1).1 =
    Some (wrap64 (balance_of w a + accrual (stake_of w a) (w_now w - getLastAccrual w a))).
Proof.
  intros Hr Hwf Hm Hle Hov Hrun. pose proof Hr as (_ & _ & Hadr & Hsig).
  destruct (claim_mints_accrual a w Hwf Hm Hle Hov) as (w' & Hc & Hb & _).
  unfold onClaim in Hrun. erewrite run_ok in Hrun.
  2: { unfold onClaim_body, getStakingContract. rewrite Hsig. cbn [rbind].
       unfold send_ui, receive, revert_on. rewrite Hc. reflexivity. }
  injection Hrun as <- <-. rewrite (onDecryptCcoin_result env a) by done.
  unfold refetch_ccoin, refetch. rewrite Hadr. cbn. rewrite <- Hb. auto.
Qed.

End PageTheorems.

(** ** Examples on the example chain *)

(** What [ethers.parseEther] returns on the inputs the examples type. *)
Definition parseEther_ex (s : string) : option Z :=
  if String.eqb s "1.0" then Some 1000000000000000000
  else if String.eqb s "0.0000001" then Some 100000000000
  else None.

(** alice's browser, connected and with the encryption service loaded. *)
Definition env_ex : app_env := mkAppEnv true (Some Deploy.alice_ex) (Some Deploy.alice_ex) true false.

Lemma env_ex_ready : env_ready env_ex Deploy.alice_ex.
Proof. repeat split. Qed.

(** alice's request to withdraw her stake, after [Invariants.w1_ex]. *)
Definition w2_ex : world Fhe.Store :=
  match task_request_withdraw Deploy.alice_ex Invariants.w1_ex with
  | Ok (w, _) => w
  | Err _ => Invariants.w1_ex
  end.

Lemma w2_ex_requested :
  task_request_withdraw Deploy.alice_ex Invariants.w1_ex = Ok (w2_ex, [LogWaitTx; LogWithdrawRequested]).
Proof. vm_compute. reflexivity. Qed.

Lemma w1_ex_wf : world_wf Invariants.w1_ex.
Proof. exact (Invariants.inv_wf _ Invariants.w1_ex_inv). Qed.

Lemma w1_ex_alice :
  Deploy.alice_ex <> w_staking Invariants.w1_ex /\ Deploy.alice_ex ∉ w_rejects Invariants.w1_ex.
Proof.
  replace (w_staking Invariants.w1_ex) with Deploy.staking_ex by (vm_compute; reflexivity).
  replace (w_rejects Invariants.w1_ex) with (@nil address) by (vm_compute; reflexivity).
  split; [discriminate | apply not_elem_of_nil].
Qed.

Lemma w0_ex_wf : world_wf Deploy.w0_ex.
Proof.
  apply (Invariants.inv_wf _ (Invariants.deploy_inv Deploy.hardhat_env Deploy.deployer_ex Deploy.staking_ex
           Deploy.chain_ex _ (proj1 Invariants.chain_ex_bounds) (proj2 Invariants.chain_ex_bounds)
           Deploy.w0_ex_deployed)).
Qed.

Lemma task_stake_then_decrypt_witness :
  exists w', task_stake parseEther_ex Deploy.alice_ex "1.0" Deploy.w0_ex = Ok (w', [LogWaitTx; LogStaked "1.0"]) /\
    task_decrypt_stake Deploy.alice_ex w' =
      [LogEncryptedStake (getEncryptedStakedMicroEth w' Deploy.alice_ex); LogClearStake 1000000].
Proof.
  destruct (task_stake_then_decrypt parseEther_ex Deploy.alice_ex "1.0" 1000000000000000000 Deploy.w0_ex)
    as (w' & Ht & Hd & _); [exact w0_ex_wf | reflexivity | vm_compute; congruence | lia | reflexivity
    | vm_compute; congruence | left; vm_compute; reflexivity |].
  exists w'. split; [exact Ht|]. rewrite Hd. vm_compute. reflexivity.
Defined.

Lemma task_stake_invalid_amount_witness :
  task_stake parseEther_ex Deploy.alice_ex "0.0000001" Deploy.w0_ex = Err (TaskTxFailed (Revert InvalidAmount)).
Proof.
  apply (task_stake_invalid_amount parseEther_ex Deploy.alice_ex "0.0000001" 100000000000);
    [reflexivity | split; [lia | vm_compute; congruence] | right; vm_compute; congruence].
Defined.

Lemma task_claim_one_day_witness :
  exists w', task_claim Deploy.alice_ex (Invariants.advance Invariants.w1_ex SECONDS_PER_DAY) =
    Ok (w', [LogWaitTx; LogInterestClaimed]) /\
    task_decrypt_ccoin Deploy.alice_ex w' =
      [LogEncryptedBalance (Coin.confidentialBalanceOf (w_coin w') Deploy.alice_ex); LogClearBalance 10000000].
Proof.
  destruct (task_claim_one_day Deploy.alice_ex (Invariants.advance Invariants.w1_ex SECONDS_PER_DAY))
    as (w' & Ht & Hd); [exact w1_ex_wf | vm_compute; reflexivity | vm_compute; reflexivity
    | vm_compute; reflexivity |].
  exists w'. split; [exact Ht|]. rewrite Hd. vm_compute. reflexivity.
Defined.

Lemma task_request_twice_witness :
  task_request_withdraw Deploy.alice_ex w2_ex = Err (TaskTxFailed (Revert WithdrawalAlreadyPending)).
Proof. apply (task_request_twice Deploy.alice_ex Invariants.w1_ex w2_ex _ w1_ex_wf w2_ex_requested). Defined.

Lemma task_withdraw_completes_witness :
  exists w2, task_finalize_withdraw Deploy.alice_ex w2_ex = Ok (w2, [LogWaitTx; LogWithdrawFinalized]) /\
    eth_of w2 Deploy.alice_ex = 10000000000000000000.
Proof.
  destruct (task_withdraw_completes Deploy.hardhat_env Deploy.deployer_ex Deploy.staking_ex Deploy.chain_ex
              Deploy.w0_ex Invariants.w1_ex Deploy.alice_ex w2_ex _
              (proj1 Invariants.chain_ex_bounds) (proj2 Invariants.chain_ex_bounds) Deploy.w0_ex_deployed
              Invariants.w1_ex_reachable (proj1 w1_ex_alice) (proj2 w1_ex_alice) w2_ex_requested)
    as (w2 & Ht & He & _).
  exists w2. split; [exact Ht|]. rewrite He. vm_compute. reflexivity.
Defined.

(** A dishonest oracle: the coordinator's proof, with every clear value
    increased by one. *)
Definition lying_oracle (w : world Fhe.Store) (hs : list handle) : list (handle * Z) * Verifier.proof :=
  let '(clears, pf) := Verifier.publicDecrypt (w_kms w) (w_fhe w) hs in
  (map (fun hv => (hv.1, hv.2 + 1)) clears, pf).

(** An oracle whose answer has no clear value at all. *)
Definition silent_oracle (w : world Fhe.Store) (hs : list handle) : list (handle * Z) * Verifier.proof :=
  ([], (Verifier.publicDecrypt (w_kms w) (w_fhe w) hs).2).

Lemma task_finalize_wrong_value_witness :
  task_finalize_withdraw_by (lying_oracle w2_ex) Deploy.alice_ex w2_ex = Err (TaskTxFailed (Revert InvalidProof)) /\
  task_finalize_withdraw_by (silent_oracle w2_ex) Deploy.alice_ex w2_ex = Err InvalidArgument.
Proof.
  assert (Hp : getPendingWithdrawCipher w2_ex Deploy.alice_ex <> ZERO_HANDLE) by (vm_compute; congruence).
  pose proof (Verifier.publicDecrypt_sound (w_kms w2_ex) (w_fhe w2_ex) [getPendingWithdrawCipher w2_ex Deploy.alice_ex]) as Hs.
  split.
  - destruct (task_finalize_wrong_value (lying_oracle w2_ex) Deploy.alice_ex w2_ex Hp) as [H1 _].
    + unfold lying_oracle. destruct (Verifier.publicDecrypt _ _ _) as [c pf]. exact Hs.
    + apply (H1 1000001); vm_compute; [reflexivity | congruence].
  - destruct (task_finalize_wrong_value (silent_oracle w2_ex) Deploy.alice_ex w2_ex Hp) as [_ H2].
    + exact Hs.
    + apply H2. reflexivity.
Defined.

Lemma task_finalize_pays_plaintext_witness :
  exists w' logs, task_finalize_withdraw Deploy.alice_ex w2_ex = Ok (w', logs) /\
    eth_of w' Deploy.alice_ex = eth_of w2_ex Deploy.alice_ex + 1000000000000000000.
Proof.
  destruct (task_finalize_withdraw Deploy.alice_ex w2_ex) as [[w' logs]|e] eqn:E; [|vm_compute in E; discriminate].
  exists w', logs. split; [reflexivity|].
  assert (Hns : Deploy.alice_ex <> w_staking w2_ex) by (vm_compute; congruence).
  destruct (task_finalize_pays_plaintext (Verifier.publicDecrypt (w_kms w2_ex) (w_fhe w2_ex))
              Deploy.alice_ex w2_ex w' logs Hns (Verifier.publicDecrypt_sound _ _ _) E) as [He _].
  rewrite He. vm_compute. reflexivity.
Defined.

(** The page on the example chain: alice types "1.0" and stakes. *)
Definition u_ex : ui := setStakeEth "1.0" ui_init.

Definition staked_page_ex : ui * world Fhe.Store :=
  onStake parseEther_ex env_ex u_ex Deploy.w0_ex.

Lemma onStake_then_decrypt_witness :
  decryptedStakeMicroEth (onDecryptStake env_ex staked_page_ex.1 staked_page_ex.2).1 = Some 1000000.
Proof.
  destruct (onStake_then_decrypt parseEther_ex env_ex Deploy.alice_ex u_ex Deploy.w0_ex 1000000000000000000
              staked_page_ex.1 staked_page_ex.2) as (_ & _ & _ & _ & Hd);
    [exact env_ex_ready | exact w0_ex_wf | reflexivity | vm_compute; congruence | lia | reflexivity
    | vm_compute; congruence | left; vm_compute; reflexivity | apply surjective_pairing |].
  rewrite Hd. vm_compute. reflexivity.
Defined.

Definition requested_page_ex : ui * world Fhe.Store :=
  onRequestWithdraw env_ex staked_page_ex.1 staked_page_ex.2.

Lemma onRequestWithdraw_stale_stake_witness :
  getEncryptedStakedMicroEth requested_page_ex.2 Deploy.alice_ex = ZERO_HANDLE /\
  decryptedStakeMicroEth (onDecryptStake env_ex requested_page_ex.1 requested_page_ex.2).1 = Some 1000000.
Proof.
  destruct (onRequestWithdraw_stale_stake env_ex Deploy.alice_ex staked_page_ex.1 staked_page_ex.2
              requested_page_ex.1 requested_page_ex.2) as (Hz & _ & _ & Hd);
    [exact env_ex_ready | | vm_compute; reflexivity | apply surjective_pairing | vm_compute; reflexivity |].
  - replace staked_page_ex.2 with Invariants.w1_ex by (vm_compute; reflexivity). exact w1_ex_wf.
  - split; [exact Hz|]. rewrite Hd. vm_compute. reflexivity.
Defined.

Definition withdrawn_page_ex : ui * world Fhe.Store :=
  let '(u1, w1) := onRequestWithdraw env_ex ui_init Invariants.w1_ex in
  onFinalizeWithdraw env_ex u1 w1.

Lemma ui_withdraw_completes_witness :
  error withdrawn_page_ex.1 = None /\ eth_of withdrawn_page_ex.2 Deploy.alice_ex = 10000000000000000000.
Proof.
  destruct (ui_withdraw_completes Deploy.hardhat_env Deploy.deployer_ex Deploy.staking_ex Deploy.chain_ex
              Deploy.w0_ex env_ex Deploy.alice_ex ui_init Invariants.w1_ex
              (onRequestWithdraw env_ex ui_init Invariants.w1_ex).1
              (onRequestWithdraw env_ex ui_init Invariants.w1_ex).2
              withdrawn_page_ex.1 withdrawn_page_ex.2)
    as (He & _ & Heth & _);
    [exact (proj1 Invariants.chain_ex_bounds) | exact (proj2 Invariants.chain_ex_bounds)
    | exact Deploy.w0_ex_deployed | exact Invariants.w1_ex_reachable | exact env_ex_ready
    | exact (proj1 w1_ex_alice) | exact (proj2 w1_ex_alice) | apply surjective_pairing
    | vm_compute; reflexivity | unfold withdrawn_page_ex; destruct (onRequestWithdraw _ _ _); apply surjective_pairing |].
  split; [exact He|]. rewrite Heth. vm_compute. reflexivity.
Defined.

Lemma task_claim_zero_elapsed_witness :
  exists w1 w2, task_claim Deploy.alice_ex Invariants.w1_ex = Ok (w1, [LogWaitTx; LogInterestClaimed]) /\
    task_claim Deploy.alice_ex w1 = Ok (w2, [LogWaitTx; LogInterestClaimed]) /\
    task_decrypt_ccoin Deploy.alice_ex w2 =
      [LogEncryptedBalance (Coin.confidentialBalanceOf (w_coin w2) Deploy.alice_ex); LogClearBalance 0].
Proof.
  destruct (task_claim_zero_elapsed Deploy.alice_ex Invariants.w1_ex)
    as (w1 & w2 & H1 & H2 & _ & H4); [exact w1_ex_wf | vm_compute; reflexivity | vm_compute; reflexivity |].
  exists w1, w2. split; [exact H1|]. split; [exact H2|]. rewrite H4. vm_compute. reflexivity.
Defined.

Lemma onClaim_then_decrypt_witness :
  decryptedCcoinUnits (onDecryptCcoin env_ex
    (onClaim env_ex ui_init (Invariants.advance Invariants.w1_ex SECONDS_PER_DAY)).1
    (onClaim env_ex ui_init (Invariants.advance Invariants.w1_ex SECONDS_PER_DAY)).2).1 = Some 10000000.
Proof.
  destruct (onClaim_then_decrypt env_ex Deploy.alice_ex ui_init (Invariants.advance Invariants.w1_ex SECONDS_PER_DAY)
              (onClaim env_ex ui_init (Invariants.advance Invariants.w1_ex SECONDS_PER_DAY)).1
              (onClaim env_ex ui_init (Invariants.advance Invariants.w1_ex SECONDS_PER_DAY)).2)
    as (_ & _ & Hd);
    [exact env_ex_ready | exact w1_ex_wf | vm_compute; reflexivity | vm_compute; congruence
    | vm_compute; reflexivity | apply surjective_pairing |].
  rewrite Hd. vm_compute. reflexivity.
Defined.

Lemma task_request_errors_witness :
  task_request_withdraw Deploy.alice_ex Deploy.w0_ex = Err (TaskTxFailed (Revert NoStake)) /\
  task_request_withdraw Deploy.alice_ex w2_ex = Err (TaskTxFailed (Revert WithdrawalAlreadyPending)).
Proof.
  split.
  - apply (proj1 (task_request_errors Deploy.alice_ex Deploy.w0_ex w0_ex_wf ltac:(vm_compute; reflexivity)));
      vm_compute; reflexivity.
  - assert (Hwf : world_wf w2_ex).
    { destruct (requestWithdrawAll_spec Deploy.alice_ex Invariants.w1_ex w2_ex w1_ex_wf
                  (task_request_withdraw_inv _ _ _ _ w2_ex_requested)) as (_&_&_&_&_&_&_&Hwf&_).
      exact Hwf. }
    apply (proj2 (task_request_errors Deploy.alice_ex w2_ex Hwf ltac:(vm_compute; reflexivity))).
    vm_compute; congruence.
Defined.

End Client.
