(* ===== verification/View.v ===== *)
(** * The page as rendered: StakingApp's JSX, the header and the UI configuration

    [src/ui/src/components/StakingApp.tsx] ends with the JSX the page
    renders from its state (lines 224-358); [Header.tsx] is the bar above
    it; [config/contracts.ts] and [config/wagmi.ts] hold the constants the
    page is built with.  A rendered page is a tree of [node]s, one
    constructor per kind of element the JSX uses: [render] is the JSX,
    built from one definition per card as the JSX is laid out, and
    [buttons_of] reads back the buttons a user can click, with their
    labels and [disabled] flags.

    Library behaviour is kept apart: the hex text of a [bytes32] that
    [useReadContract] returns is [bytes32_hex], the messages of the
    errors that ethers throws are the section variables
    [parseEtherMessage], [argumentMessage] (its [INVALID_ARGUMENT] error)
    and [revertMessage].  The stake's [Clear:] line is printed by
    [JsNumber.microEthToEthString], the page's own helper over the model
    of JavaScript's doubles in JsNumber.v.

    The theorems show what the user sees across a click: the labels and
    [disabled] flags while a handler runs and after it ends, the Error
    card's text after a failed click, and that the cCoin and stake
    [Clear:] lines show
    the plaintext of the handle displayed above them, in a form that reads
    back to the exact amount (for the stake, below 8.59 billion ETH, where
    the page's double-precision division is exact). *)

From Stdlib Require Import ZArith String Ascii Lia.
From stdpp Require Import base list.
From S2P Require Import Prelude Fhe Staking Format FormatSpec JsNumber Deploy Invariants Client.

Open Scope Z_scope.
#[local] Set Warnings "-register-all".

Module View.
Import Staking Client Format.

(** ** [config/contracts.ts] and [config/wagmi.ts] *)

Definition SEPOLIA_CHAIN_ID : Z := 11155111.
Definition CCOIN_ADDRESS : string := "0x9CfdCcC596f147bd8aE6CE988e3427cC481c17cf".
Definition STAKING_ADDRESS : string := "0x7bB94948F79008DF7f9B825Fd83d562535950f76".

(** An ABI, as the names of the functions it declares. *)
Definition abi := list string.
Definition CCOIN_ABI : abi := [].
Definition STAKING_ABI : abi := [].

(** The id of the [sepolia] chain object of [wagmi/chains]. *)
Definition sepolia_id : Z := 11155111.

Definition SEPOLIA_RPC_URL : string := "https://ethereum-sepolia-rpc.publicnode.com".

Inductive connector := Injected.
Inductive storage := NoopStorage.

(** The argument of [createConfig]. *)
Record wagmi_config := mkWagmiConfig {
  chains : list Z;
  connectors : list connector;
  transports : list (Z * string);
  config_storage : storage;
  ssr : bool
}.

Definition config : wagmi_config :=
  mkWagmiConfig [sepolia_id] [Injected] [(sepolia_id, SEPOLIA_RPC_URL)] NoopStorage false.

(** ** Rendered elements *)

(** An element with its tag, [className] and children; a text; the
    amount input; a button with its [className], [disabled] flag, the
    handler of its [onClick] and its label; a component of a library
    (RainbowKit's [ConnectButton]). *)
Inductive node :=
| Elem (tag cls : string) (children : list node)
| Text (s : string)
| Input (id cls value placeholder inputMode : string)
| Btn (cls : string) (dis : bool) (onClick : button) (label : string)
| Component (name : string).

(** The buttons of a tree, in document order. *)
Fixpoint buttons_of (n : node) : list (button * bool * string) :=
  match n with
  | Elem _ _ cs => (fix go (cs : list node) := match cs with [] => [] | c :: cs => buttons_of c ++ go cs end) cs
  | Btn _ d b l => [(b, d, l)]
  | _ => []
  end.

(** [Header.tsx]. *)
Definition Header : node :=
  Elem "header" "header" [
    Elem "div" "header-container" [
      Elem "div" "header-content" [
        Elem "div" "header-left" [
          Elem "h1" "header-title" [Text "SecureAPR"];
          Elem "div" "header-subtitle" [Text "Stake ETH privately, earn cCoin"]];
        Component "ConnectButton"]]].

Definition ZERO_HASH : string :=
  "0x0000000000000000000000000000000000000000000000000000000000000000".

(** The lowercase hex text viem returns for a [bytes32] value. *)
Definition hex_digit (d : N) : ascii :=
  if (d <? 10)%N then ascii_of_N (48 + d) else ascii_of_N (87 + d).

Fixpoint hex_digits (k : nat) (n : N) (acc : string) : string :=
  match k with
  | O => acc
  | S k => hex_digits k (n / 16)%N (String (hex_digit (n mod 16)%N) acc)
  end.

Definition bytes32_hex (h : handle) : string := "0x" ++ hex_digits 64 h "".

(** [(query.data as string | undefined) ?? ZERO_HASH]. *)
Definition handle_text (data : option handle) : string :=
  match data with Some h => bytes32_hex h | None => ZERO_HASH end.

(** [busy === tag ? running : idle]. *)
Definition busy_label (u : ui) (tag running idle : string) : string :=
  if bool_decide (busy u = Some tag) then running else idle.

(** A [<div className="card ...">] with its title and body. *)
Definition card (cls title : string) (body : list node) : node :=
  Elem "div" cls [Elem "div" "card-title" [Text title]; Elem "div" "card-body" body].

Section Render.
Context (parseEtherMessage argumentMessage : string) (revertMessage : tx_error -> string).

(** The [message] of the error a handler caught. *)
Definition error_message (e : ui_error) : string :=
  match e with
  | ErrorMessage m => m
  | ParseEtherFailed => parseEtherMessage
  | ArgumentInvalid => argumentMessage
  | TxReverted e => revertMessage e
  end.

(** The text [setError] stores: [(e as Error).message || fallback]. *)
Definition error_text (c : caught) : string :=
  let '(Caught e fallback) := c in
  match error_message e with
  | EmptyString => fallback
  | m => m
  end.

Definition stake_card env u : node :=
  card "card" "Stake" [
    Elem "div" "row" [
      Elem "label" "label" [Text "Amount (ETH)"];
      Input "stakeEth" "input" (stakeEth u) "0.1" "decimal"];
    Elem "div" "actions" [
      Btn "button primary" (disabled env u StakeButton) StakeButton
        (busy_label u "staking" "Staking..." "Stake ETH");
      Btn "button" (disabled env u ClaimButton) ClaimButton
        (busy_label u "claim" "Claiming..." "Claim interest")];
    Elem "div" "hint" [Text "Minimum precision: 0.000001 ETH"]].

Definition stake_clear_text (u : ui) : string :=
  "Clear: " ++ match decryptedStakeMicroEth u with
               | None => "-"
               | Some v => JsNumber.microEthToEthString v ++ " ETH"
               end.

Definition stake_section env u : node :=
  Elem "div" "section" [
    Elem "div" "section-title" [Text "Staked ETH (encrypted)"];
    Elem "div" "mono" [Text (handle_text (stakeCipher u))];
    Elem "div" "actions" [
      Btn "button" (disabled env u DecryptStakeButton) DecryptStakeButton
        (busy_label u "decryptStake" "Decrypting..." "Decrypt")];
    Elem "div" "value" [Text (stake_clear_text u)]].

Definition ccoin_section env u : node :=
  Elem "div" "section" [
    Elem "div" "section-title" [Text "cCoin balance (encrypted)"];
    Elem "div" "mono" [Text (handle_text (ccoinBalanceCipher u))];
    Elem "div" "actions" [
      Btn "button" (disabled env u DecryptCcoinButton) DecryptCcoinButton
        (busy_label u "decryptCcoin" "Decrypting..." "Decrypt")];
    Elem "div" "value" [Text ("Clear: " ++ ccoinClearText u)]].

Definition balances_card env u : node :=
  card "card" "Balances" [stake_section env u; ccoin_section env u].

Definition withdraw_card env u : node :=
  card "card" "Withdraw" [
    Elem "div" "section" [
      Elem "div" "section-title" [Text "Pending withdraw handle"];
      Elem "div" "mono" [Text (handle_text (pendingWithdrawCipher u))];
      Elem "div" "actions" [
        Btn "button" (disabled env u RequestWithdrawButton) RequestWithdrawButton
          (busy_label u "requestWithdraw" "Requesting..." "Request withdraw");
        Btn "button primary" (disabled env u FinalizeWithdrawButton) FinalizeWithdrawButton
          (busy_label u "finalizeWithdraw" "Finalizing..." "Finalize withdraw")];
      Elem "div" "hint" [Text "Finalize uses a public decryption proof to release ETH."]]].

(** The page: [zamaError] is the error of [useZamaInstance]. *)
Definition render (zamaError : option string) env u : node :=
  Elem "div" "staking-app" [
    Header;
    Elem "main" "staking-main" [
      Elem "div" "staking-container" (
        (if negb isConfigured then
           [card "card warning" "Contracts not configured"
              [Text "Deploy to Sepolia and run "; Elem "code" "" [Text "npx hardhat task:sync-ui --networkName sepolia"];
               Text "."]]
         else []) ++
        (match zamaError with
         | Some m => [card "card error" "Encryption service error" [Text m]]
         | None => []
         end) ++
        (match error u with
         | Some e => [card "card error" "Error" [Text (error_text e)]]
         | None => []
         end) ++
        [Elem "div" "grid" [stake_card env u; balances_card env u; withdraw_card env u]])]].

End Render.

(** ** The buttons of the page *)

Definition all_buttons : list button :=
  [StakeButton; ClaimButton; DecryptStakeButton; DecryptCcoinButton;
   RequestWithdrawButton; FinalizeWithdrawButton].

Definition idle_label (b : button) : string :=
  match b with
  | StakeButton => "Stake ETH"
  | ClaimButton => "Claim interest"
  | DecryptStakeButton | DecryptCcoinButton => "Decrypt"
  | RequestWithdrawButton => "Request withdraw"
  | FinalizeWithdrawButton => "Finalize withdraw"
  end.

Definition running_label (b : button) : string :=
  match b with
  | StakeButton => "Staking..."
  | ClaimButton => "Claiming..."
  | DecryptStakeButton | DecryptCcoinButton => "Decrypting..."
  | RequestWithdrawButton => "Requesting..."
  | FinalizeWithdrawButton => "Finalizing..."
  end.

#[export] Instance button_eq_dec : EqDecision button.
Proof. solve_decision. Defined.

Section Lemmas.

Lemma busy_tag_inj b b' : busy_tag b = busy_tag b' -> b = b'.
Proof. destruct b, b'; cbn; congruence. Qed.

Lemma handle_text_default data : handle_text data = bytes32_hex (default ZERO_HANDLE data).
Proof. destruct data; [reflexivity | vm_compute; reflexivity]. Qed.

Lemma buttons_of_render pm am rm z env u :
  buttons_of (render pm am rm z env u) =
  map (fun b => (b, disabled env u b,
                 if bool_decide (busy u = Some (busy_tag b)) then running_label b else idle_label b))
    all_buttons.
Proof. unfold render. destruct z, (error u); reflexivity. Qed.

(** [isConfigured] is hard-coded to [true]: the warning card of the JSX
    never renders, whatever the state. *)
Lemma render_no_warning pm am rm z env u :
  render pm am rm z env u =
  Elem "div" "staking-app" [
    Header;
    Elem "main" "staking-main" [
      Elem "div" "staking-container" (
        (match z with Some m => [card "card error" "Encryption service error" [Text m]] | None => [] end) ++
        (match error u with Some e => [card "card error" "Error" [Text (error_text pm am rm e)]] | None => [] end) ++
        [Elem "div" "grid" [stake_card env u; balances_card env u; withdraw_card env u]])]].
Proof. reflexivity. Qed.

Lemma disabled_running env tag u b : disabled env (setBusy (Some tag) u) b = true.
Proof. destruct b; cbn; rewrite !orb_true_r; reflexivity. Qed.

Lemma run_busy {S} tag fb body (u : ui) (w : world S) : busy (run tag fb body u w).1 = None.
Proof. unfold run. by destruct (body _ _) as [[??]|]. Qed.

Lemma onClick_run {S} `{!Fhe.FheBackend S} parseEther env b u (w : world S) :
  exists fb body, onClick parseEther env b u w = run (busy_tag b) fb body u w.
Proof. destruct b; do 2 eexists; reflexivity. Qed.

Lemma run_error {S} tag fb body (u : ui) (w : world S) c :
  (forall u1 w1, body (setBusy (Some tag) (setError None u)) w = Ok (u1, w1) -> error u1 = None) ->
  error (run tag fb body u w).1 = Some c -> exists e, c = Caught e fb.
Proof.
  unfold run. intros Hb. destruct (body _ _) as [[u1 w1]|e]; cbn.
  - by rewrite (Hb _ _ eq_refl).
  - intros [= <-]. by exists e.
Qed.

Lemma error_text_fallback pm am rm e fb : fb <> EmptyString -> error_text pm am rm (Caught e fb) <> EmptyString.
Proof. cbn. by destruct (error_message pm am rm e). Qed.

End Lemmas.

(** A handler body that succeeds leaves the page without error: every
    value it stores is set on the state [run] cleared. *)
Ltac body_no_error :=
  let Hb := fresh "Hb" in
  intros ?? Hb; unfold userDecrypt, getStakingContract, send_ui in Hb;
  repeat (case_match || (progress cbn [rbind] in Hb)); simplify_eq; reflexivity.

Section Theorems.
Context {S : Type} `{Fhe.FheLaws S}.
Context (parseEtherMessage argumentMessage : string) (revertMessage : tx_error -> string).
Implicit Types (w : world S) (u : ui) (env : app_env).

Abbreviation render := (render parseEtherMessage argumentMessage revertMessage).

(** C25: while a handler runs (from its [setBusy(tag)] on) the page shows
    all six buttons disabled, the clicked one with its progress label and
    the others with their idle labels; once the handler has ended, every
    button shows its idle label again. *)
Theorem render_click_cycle parseEther zamaError env b u w :
  buttons_of (render zamaError env (setBusy (Some (busy_tag b)) (setError None u))) =
    map (fun b' => (b', true, if decide (b' = b) then running_label b' else idle_label b')) all_buttons /\
  buttons_of (render zamaError env (onClick parseEther env b u w).1) =
    map (fun b' => (b', disabled env (onClick parseEther env b u w).1 b', idle_label b')) all_buttons.
Proof.
  rewrite !buttons_of_render. split; apply list_fmap_ext; intros _ b' _.
  - rewrite disabled_running. cbn [busy setBusy]. f_equal.
    destruct (decide (b' = b)) as [->|Hne]; [by rewrite bool_decide_eq_true_2|].
    rewrite bool_decide_eq_false_2; [done|]. intros [= Ht]. by apply Hne, busy_tag_inj.
  - destruct (onClick_run parseEther env b u w) as (fb & body & ->). by rewrite run_busy.
Qed.

(** C26: after the cCoin Decrypt button, on a connected wallet with the
    encryption service loaded, the cCoin section shows the hex of the
    handle it decrypted, its idle Decrypt button, and a [Clear:] line
    whose amount reads back with [parseCcoinUnits] to the plaintext of
    that handle, an [euint64] value. *)
Theorem ccoin_section_after_decrypt env a u w :
  env_ready env a ->
  let u1 := (onDecryptCcoin env u w).1 in
  let h := default ZERO_HANDLE (ccoinBalanceCipher u) in
  exists s,
    ccoin_section env u1 =
      Elem "div" "section" [
        Elem "div" "section-title" [Text "cCoin balance (encrypted)"];
        Elem "div" "mono" [Text (bytes32_hex h)];
        Elem "div" "actions" [Btn "button" (disabled env u1 DecryptCcoinButton) DecryptCcoinButton "Decrypt"];
        Elem "div" "value" [Text ("Clear: " ++ s ++ " cCoin")]] /\
    parseCcoinUnits s = Some (Fhe.fhe_decrypt (w_fhe w) h) /\
    0 <= Fhe.fhe_decrypt (w_fhe w) h < UINT64_MODULUS.
Proof.
  intros Hr. cbv zeta. rewrite (onDecryptCcoin_result env a u w Hr).
  eexists. split; [|split; [apply parse_formatCcoinUnits | apply Fhe.fhe_decrypt_range]].
  unfold ccoin_section. rewrite handle_text_default. reflexivity.
Qed.

(** C27: after the stake's Decrypt button, on a connected wallet with the
    encryption service loaded, the stake section shows the hex of the
    handle it decrypted, its idle Decrypt button, and a [Clear:] line
    whose amount, printed through JavaScript's [Number], reads back with
    [parseCcoinUnits] to the staked microETH when they are below
    [2^33 * 10^6] (8.59 billion ETH). *)
Theorem stake_section_after_decrypt env a u w :
  env_ready env a ->
  let u1 := (onDecryptStake env u w).1 in
  let h := default ZERO_HANDLE (stakeCipher u) in
  Fhe.fhe_decrypt (w_fhe w) h < 2 ^ 33 * 10 ^ 6 ->
  exists s,
    stake_section env u1 =
      Elem "div" "section" [
        Elem "div" "section-title" [Text "Staked ETH (encrypted)"];
        Elem "div" "mono" [Text (bytes32_hex h)];
        Elem "div" "actions" [Btn "button" (disabled env u1 DecryptStakeButton) DecryptStakeButton "Decrypt"];
        Elem "div" "value" [Text ("Clear: " ++ s ++ " ETH")]] /\
    parseCcoinUnits s = Some (Fhe.fhe_decrypt (w_fhe w) h).
Proof.
  intros Hr. cbv zeta. rewrite (onDecryptStake_result env a u w Hr). intros Hb.
  exists (formatCcoinUnits (Fhe.fhe_decrypt (w_fhe w) (default ZERO_HANDLE (stakeCipher u)))).
  split; [|apply parse_formatCcoinUnits].
  unfold stake_section, stake_clear_text. rewrite handle_text_default. cbn.
  rewrite JsNumber.microEthToEthString_format; [reflexivity|].
  pose proof (Fhe.fhe_decrypt_range (w_fhe w) (default ZERO_HANDLE (stakeCipher u))). lia.
Qed.

(** C28: whenever a click leaves the page with an error, the Error card
    shows a non-empty text: the error's message, or the handler's
    ["Failed to ..."] text when that message is empty, whatever the
    messages of ethers' errors are. *)
Theorem click_error_nonempty parseEther env b u w c :
  error (onClick parseEther env b u w).1 = Some c ->
  error_text parseEtherMessage argumentMessage revertMessage c <> EmptyString.
Proof.
  intros He.
  destruct b; apply run_error in He as [e ->];
    try (apply error_text_fallback; discriminate);
    [unfold onStake_body | unfold onClaim_body | unfold onDecryptStake_body
    | unfold onDecryptCcoin_body | unfold onRequestWithdraw_body | unfold onFinalizeWithdraw_body];
    body_no_error.
Qed.

End Theorems.

(** ** Examples *)

(** alice's page after staking one ether and claiming one day later. *)
Definition claimed_page_ex : ui * world Fhe.Store :=
  onClaim env_ex staked_page_ex.1 (Invariants.advance staked_page_ex.2 SECONDS_PER_DAY).

Lemma ccoin_section_after_decrypt_witness :
  env_ready env_ex Deploy.alice_ex /\
  Fhe.fhe_decrypt (w_fhe claimed_page_ex.2) (default ZERO_HANDLE (ccoinBalanceCipher claimed_page_ex.1)) = 10000000 /\
  let u1 := (onDecryptCcoin env_ex claimed_page_ex.1 claimed_page_ex.2).1 in
  let h := default ZERO_HANDLE (ccoinBalanceCipher claimed_page_ex.1) in
  exists s,
    ccoin_section env_ex u1 =
      Elem "div" "section" [
        Elem "div" "section-title" [Text "cCoin balance (encrypted)"];
        Elem "div" "mono" [Text (bytes32_hex h)];
        Elem "div" "actions" [Btn "button" (disabled env_ex u1 DecryptCcoinButton) DecryptCcoinButton "Decrypt"];
        Elem "div" "value" [Text ("Clear: " ++ s ++ " cCoin")]] /\
    parseCcoinUnits s = Some (Fhe.fhe_decrypt (w_fhe claimed_page_ex.2) h) /\
    0 <= Fhe.fhe_decrypt (w_fhe claimed_page_ex.2) h < UINT64_MODULUS.
Proof.
  split; [exact env_ex_ready|]. split; [vm_compute; reflexivity|].
  apply (ccoin_section_after_decrypt env_ex Deploy.alice_ex). exact env_ex_ready.
Defined.

Lemma stake_section_after_decrypt_witness :
  env_ready env_ex Deploy.alice_ex /\
  Fhe.fhe_decrypt (w_fhe staked_page_ex.2) (default ZERO_HANDLE (stakeCipher staked_page_ex.1)) = 1000000 /\
  let u1 := (onDecryptStake env_ex staked_page_ex.1 staked_page_ex.2).1 in
  let h := default ZERO_HANDLE (stakeCipher staked_page_ex.1) in
  exists s,
    stake_section env_ex u1 =
      Elem "div" "section" [
        Elem "div" "section-title" [Text "Staked ETH (encrypted)"];
        Elem "div" "mono" [Text (bytes32_hex h)];
        Elem "div" "actions" [Btn "button" (disabled env_ex u1 DecryptStakeButton) DecryptStakeButton "Decrypt"];
        Elem "div" "value" [Text ("Clear: " ++ s ++ " ETH")]] /\
    parseCcoinUnits s = Some (Fhe.fhe_decrypt (w_fhe staked_page_ex.2) h).
Proof.
  assert (Hv : Fhe.fhe_decrypt (w_fhe staked_page_ex.2) (default ZERO_HANDLE (stakeCipher staked_page_ex.1)) = 1000000)
    by (vm_compute; reflexivity).
  split; [exact env_ex_ready|]. split; [exact Hv|].
  apply (stake_section_after_decrypt env_ex Deploy.alice_ex); [exact env_ex_ready|]. rewrite Hv. lia.
Defined.

(** An input ethers cannot parse, with an empty message for the error. *)
Definition u_bad_ex : ui := setStakeEth "abc" ui_init.

Lemma click_error_nonempty_witness :
  error (onClick parseEther_ex env_ex StakeButton u_bad_ex Deploy.w0_ex).1 =
    Some (Caught ParseEtherFailed "Failed to stake") /\
  error_text EmptyString EmptyString (fun _ => EmptyString) (Caught ParseEtherFailed "Failed to stake") = "Failed to stake"%string /\
  error_text EmptyString EmptyString (fun _ => EmptyString) (Caught ParseEtherFailed "Failed to stake") <> EmptyString.
Proof.
  assert (He : error (onClick parseEther_ex env_ex StakeButton u_bad_ex Deploy.w0_ex).1 =
    Some (Caught ParseEtherFailed "Failed to stake")) by (vm_compute; reflexivity).
  split; [exact He|]. split; [reflexivity|].
  exact (click_error_nonempty EmptyString EmptyString (fun _ => EmptyString) parseEther_ex env_ex StakeButton u_bad_ex Deploy.w0_ex _ He).
Defined.

End View.
