(* ===== verification/System.v ===== *)
(** * The page's clicks as transactions of the system

    The page of [StakingApp.tsx] runs in a browser while other accounts
    keep sending transactions ([Invariants.step]).  Its clicks reach the
    chain through [Client.onClick]; this file shows that a click is, on
    the chain, either nothing or exactly one transaction, sent by the
    page's signer, that the system model admits: for a finalize, the
    proof it carries is the decryption oracle's, so the coordinator's
    trust assumption [Invariants.trusted] holds.  So a browser session
    interleaved with the rest of the system is a run of the system model,
    one transaction per click, and the results about reachable worlds
    (Invariants.v, Client.v) hold with the page in use. *)

From Stdlib Require Import ZArith String Lia.
From stdpp Require Import base list.
From S2P Require Import Prelude Fhe Verifier Coin Staking Deploy Invariants Client.

Open Scope Z_scope.

Module System.
Import Staking Client.

(** The analysis of a handler's body: its guards and calls, one case
    per way it can end. *)
Ltac body_cases Hb :=
  unfold onStake_body, onClaim_body, onDecryptStake_body, onDecryptCcoin_body,
    onRequestWithdraw_body, onFinalizeWithdraw_body, userDecrypt, getStakingContract, send_ui in Hb;
  repeat (case_match || (progress cbn [rbind] in Hb)); simplify_eq.

Section Clicks.
Context {S : Type} `{Fhe.FheLaws S}.
Implicit Types (w : world S) (u : ui) (env : app_env).

(** C9: a click on any button of the page, under any wallet state,
    changes the chain by at most one transaction: either the chain is as
    it was, or the world after the click is the result of one transaction
    [m] sent by the page's signer, which the coordinator's trust
    assumption admits (a finalize carries the oracle's proof).  Every
    click is therefore a stutter or one step of the system model. *)
Theorem onClick_one_transaction parseEther env b u w :
  (onClick parseEther env b u w).2 = w \/
  exists a m, signer env = Some a /\ Invariants.trusted w m /\
              receive a m w = Ok (onClick parseEther env b u w).2.
Proof.
  destruct b; unfold onClick, onStake, onClaim, onDecryptStake, onDecryptCcoin,
    onRequestWithdraw, onFinalizeWithdraw, run;
  match goal with |- context [match ?r with _ => _ end] => destruct r as [[u1 w1]|e] eqn:Hb end;
  cbn; auto; body_cases Hb; auto.
  all: right; match goal with Hr : receive ?s ?m ?w0 = Ok ?w1 |- _ => exists s, m end;
    split_and!; [done | cbn; try done | done].
  match goal with Hp : Verifier.publicDecrypt ?k ?s ?hs = (_, ?p) |- Verifier.proof_sound _ _ ?p =>
    pose proof (Verifier.publicDecrypt_sound k s hs) as Hps; rewrite Hp in Hps; exact Hps end.
Qed.

End Clicks.

End System.
