(* ===== verification/Protocol.v ===== *)
(** * The two-phase withdrawal as an abstract state machine

    The specification (§9) describes each account's withdrawal as a
    two-state machine [{Idle, PendingWithdrawal}]: [requestWithdrawAll]
    goes from Idle to Pending, [finalizeWithdrawAll] from Pending to Idle,
    and nothing else changes the state.  [abs_step] is that machine, with
    [stake] and [claimInterest] as self-loops; [phase_of] reads an
    account's state off the contract ([pendingWithdraw] is the zero handle
    or not).  The theorems show that every successful transaction of the
    contract, and every successful run of a hardhat task, is a step of the
    abstract machine for its sender and a stutter for every other account. *)

From Stdlib Require Import ZArith String Lia.
From stdpp Require Import base gmap list.
From S2P Require Import Prelude Fhe Verifier Coin Staking Deploy Invariants Client.

Open Scope Z_scope.

Module Protocol.
Import Staking.

Inductive phase := Idle | PendingWithdrawal.

#[global] Instance phase_eq_dec : EqDecision phase.
Proof. solve_decision. Defined.

Inductive abs_op := AStake | AClaim | ARequest | AFinalize.

(** The specification's machine; [None] is a rejected call. *)
Definition abs_step (op : abs_op) (p : phase) : option phase :=
  match op, p with
  | AStake, _ => Some p
  | AClaim, _ => Some p
  | ARequest, Idle => Some PendingWithdrawal
  | AFinalize, PendingWithdrawal => Some Idle
  | _, _ => None
  end.

Definition op_of_msg (m : msg) : abs_op :=
  match m with
  | Stake _ => AStake
  | ClaimInterest => AClaim
  | RequestWithdrawAll => ARequest
  | FinalizeWithdrawAll _ _ _ => AFinalize
  end.

(** The hardhat tasks that send a transaction, by name. *)
Inductive task_cmd :=
| TaskStake (eth : string)
| TaskClaim
| TaskRequestWithdraw
| TaskFinalizeWithdraw.

Definition op_of_task (t : task_cmd) : abs_op :=
  match t with
  | TaskStake _ => AStake
  | TaskClaim => AClaim
  | TaskRequestWithdraw => ARequest
  | TaskFinalizeWithdraw => AFinalize
  end.

(** The finalize task checks the pending handle and stops when there is
    none, so on Idle it is a no-op rather than a rejected call. *)
Definition abs_task_step (t : task_cmd) (p : phase) : option phase :=
  match t, p with
  | TaskFinalizeWithdraw, Idle => Some Idle
  | _, _ => abs_step (op_of_task t) p
  end.

Section Concrete.
Context {S : Type} `{!Fhe.FheBackend S}.

Definition phase_of (w : world S) (a : address) : phase :=
  if (getPendingWithdrawCipher w a =? ZERO_HANDLE)%N then Idle else PendingWithdrawal.

Definition run_task (parseEther : string -> option Z) (signer : address) (t : task_cmd)
    (w : world S) : result (world S * list Client.log) Client.task_error :=
  match t with
  | TaskStake eth => Client.task_stake parseEther signer eth w
  | TaskClaim => Client.task_claim signer w
  | TaskRequestWithdraw => Client.task_request_withdraw signer w
  | TaskFinalizeWithdraw => Client.task_finalize_withdraw signer w
  end.

End Concrete.

Section Refinement.
Context {S : Type} `{Fhe.FheLaws S}.
Implicit Types (w : world S).

Lemma phase_of_account w w' a :
  account_of w' a = account_of w a -> phase_of w' a = phase_of w a.
Proof. intros Ha. unfold phase_of, getPendingWithdrawCipher. by rewrite Ha. Qed.

Lemma phase_of_pending w w' a :
  getPendingWithdrawCipher w' a = getPendingWithdrawCipher w a -> phase_of w' a = phase_of w a.
Proof. unfold phase_of. by intros ->. Qed.

Lemma phase_of_idle w a : getPendingWithdrawCipher w a = ZERO_HANDLE -> phase_of w a = Idle.
Proof. unfold phase_of. intros ->. reflexivity. Qed.

Lemma phase_of_pending_ne w a : getPendingWithdrawCipher w a <> ZERO_HANDLE -> phase_of w a = PendingWithdrawal.
Proof. unfold phase_of. intros Hp. apply N.eqb_neq in Hp. by rewrite Hp. Qed.

(** Every transaction of the contract is a step of the abstract machine
    for its sender. *)
Lemma receive_refines sender m w w' :
  world_wf w -> receive sender m w = Ok w' ->
  abs_step (op_of_msg m) (phase_of w sender) = Some (phase_of w' sender) /\
  forall b, b <> sender -> phase_of w' b = phase_of w b.
Proof.
  intros Hwf Hr. split; [|intros b Hb; apply phase_of_account; exact (receive_isolation sender m w w' Hwf Hr b Hb)].
  apply receive_inv in Hr. destruct m as [value| | |h clear pf]; cbn [op_of_msg].
  - destruct Hr as (w0 & Hm & Hs). destruct (move_eth_spec _ _ _ _ _ Hm) as [[e ->] _].
    destruct (stake_spec sender value _ w' (world_wf_set_eth w e Hwf) Hs) as (_&_&_&_&_&Hp&_).
    cbn. f_equal. symmetry. by apply phase_of_pending.
  - destruct (accrue_accessors sender w w' Hwf Hr) as (_&_&_&_&_&_&_&Hp&_).
    cbn. f_equal. symmetry. by apply phase_of_pending.
  - destruct (requestWithdrawAll_spec sender w w' Hwf Hr) as (Hp & Hs & _ & Hp' & _).
    rewrite (phase_of_idle w sender Hp), (phase_of_pending_ne w' sender) by congruence. done.
  - destruct (finalizeWithdrawAll_spec _ _ _ _ _ _ Hr) as (Hp & Hh & _ & _ & Hp' & _).
    rewrite (phase_of_idle w' sender Hp'), (phase_of_pending_ne w sender) by congruence. done.
Qed.

(** C8: the hardhat tasks implement the specification's two-state
    withdrawal machine: every successful run of the stake, claim,
    request-withdraw or finalize-withdraw task is a step of the abstract
    machine [Idle -> PendingWithdrawal -> Idle] for the signer (stake and
    claim keep the state; finalize on Idle stops without a transaction)
    and leaves the state of every other account unchanged. *)
Theorem tasks_refine_withdrawal_fsm parseEther signer t w w' logs :
  world_wf w -> run_task parseEther signer t w = Ok (w', logs) ->
  abs_task_step t (phase_of w signer) = Some (phase_of w' signer) /\
  forall b, b <> signer -> phase_of w' b = phase_of w b.
Proof.
  intros Hwf Hrun.
  assert (Hsend : forall m w1, Client.send_tx signer m w = Ok w1 -> receive signer m w = Ok w1)
    by (intros m w1; apply Client.send_tx_ok).
  destruct t as [eth| | |]; cbn [run_task] in Hrun.
  - unfold Client.task_stake in Hrun. destruct (parseEther eth) as [value|]; [|discriminate].
    destruct (Client.send_tx _ _ _) as [w1|] eqn:Hs; [|discriminate]. injection Hrun as <- _.
    exact (receive_refines signer (Stake value) w w1 Hwf (Hsend _ _ Hs)).
  - unfold Client.task_claim in Hrun.
    destruct (Client.send_tx _ _ _) as [w1|] eqn:Hs; [|discriminate]. injection Hrun as <- _.
    exact (receive_refines signer ClaimInterest w w1 Hwf (Hsend _ _ Hs)).
  - unfold Client.task_request_withdraw in Hrun.
    destruct (Client.send_tx _ _ _) as [w1|] eqn:Hs; [|discriminate]. injection Hrun as <- _.
    exact (receive_refines signer RequestWithdrawAll w w1 Hwf (Hsend _ _ Hs)).
  - unfold Client.task_finalize_withdraw, Client.task_finalize_withdraw_by in Hrun.
    destruct (N.eqb_spec (getPendingWithdrawCipher w signer) ZERO_HANDLE) as [Hp|Hp].
    + injection Hrun as <- _. rewrite (phase_of_idle w signer Hp). auto.
    + destruct (Verifier.publicDecrypt _ _ _) as [clears pf].
      destruct (Verifier.clear_value _ _) as [c|]; [|discriminate].
      destruct (Client.send_tx _ _ _) as [w1|] eqn:Hs; [|discriminate]. injection Hrun as <- _.
      pose proof (receive_refines signer _ w w1 Hwf (Hsend _ _ Hs)) as [Hstep Ho].
      rewrite (phase_of_pending_ne w signer Hp) in Hstep |- *. auto.
Qed.

End Refinement.

Lemma tasks_refine_withdrawal_fsm_witness :
  abs_task_step TaskRequestWithdraw (phase_of Invariants.w1_ex Deploy.alice_ex) =
    Some (phase_of Client.w2_ex Deploy.alice_ex) /\
  phase_of Client.w2_ex Deploy.alice_ex = PendingWithdrawal.
Proof.
  split; [|vm_compute; reflexivity].
  exact (proj1 (tasks_refine_withdrawal_fsm Client.parseEther_ex Deploy.alice_ex TaskRequestWithdraw
                  Invariants.w1_ex Client.w2_ex _ Client.w1_ex_wf Client.w2_ex_requested)).
Defined.

End Protocol.
