(* ===== verification/Tests.v ===== *)
(** * The test suite of the contracts

    [src/test/SecureAPRStaking.ts] deploys the two contracts with
    [deployFixture] and runs three scenarios with the signer [alice].  Each
    [it] block is a function of the chain it starts from, giving its
    verdict and the chain it leaves: a transaction that reverts makes the
    test fail, and each [expect] is a comparison.  [suite] is the
    [describe] block: the signers of [before], the skip of [beforeEach]
    off the mock, and the three tests run in order on one chain.  [ethers.parseEther("1.0")] is the literal [10^18].  The
    two [evm_*] calls of the accrual test move the next block's time
    forward; [d] is the time between the stake's block and the claim's
    block.  Gas is not modelled: the withdrawal test's comparison
    [balAfter > balBefore] is checked on the native balance without fees. *)

From Stdlib Require Import ZArith String Lia.
From stdpp Require Import base gmap list.
From S2P Require Import Prelude Fhe Verifier Coin Staking Format Deploy Invariants Client.

Open Scope Z_scope.

Module Tests.
Import Staking Deploy.

Definition ONE_ETHER : Z := 1000000000000000000.

Section Suite.
Context {S : Type} `{!Fhe.FheBackend S}.

(** The hardhat network as the next test finds it: the [it] blocks of
    the suite run one after the other on one chain, each deploying its
    own contracts with [deployFixture]. *)
Definition chain_of (w : world S) : Deploy.chain S :=
  Deploy.mkChain S (w_fhe w) (w_eth w) (w_now w) (w_kms w) (w_rejects w).

(** [it("stakes 1 ETH and tracks encrypted stake")]: the verdict and the
    chain the next test starts from. *)
Definition test_stake (alice staking_addr deployer : address) (ch : Deploy.chain S) : bool * Deploy.chain S :=
  match Deploy.deployFixture deployer staking_addr ch with
  | Err _ => (false, ch)
  | Ok w =>
      match receive alice (Stake ONE_ETHER) w with
      | Err _ => (false, chain_of w)
      | Ok w1 =>
          let encryptedStake := getEncryptedStakedMicroEth w1 alice in
          (negb (encryptedStake =? ZERO_HANDLE)%N &&
           (Client.userDecryptEuint (w_fhe w1) encryptedStake =? 1000000), chain_of w1)
      end
  end.

(** [it("mints 10 cCoin per 1 ETH per day (pro-rata)")]. *)
Definition test_accrual (alice staking_addr deployer : address) (ch : Deploy.chain S) (d : Z)
    : bool * Deploy.chain S :=
  match Deploy.deployFixture deployer staking_addr ch with
  | Err _ => (false, ch)
  | Ok w =>
      match receive alice (Stake ONE_ETHER) w with
      | Err _ => (false, chain_of w)
      | Ok w1 =>
          let lastAccrual := getLastAccrual w1 alice in
          match receive alice ClaimInterest (Invariants.advance w1 d) with
          | Err _ => (false, chain_of (Invariants.advance w1 d))
          | Ok w2 =>
              let lastAccrualAfter := getLastAccrual w2 alice in
              let elapsed := lastAccrualAfter - lastAccrual in
              let expected := (1000000 * 10 * elapsed) / 86400 in
              let encryptedBal := Coin.confidentialBalanceOf (w_coin w2) alice in
              let clearBal := Client.userDecryptEuint (w_fhe w2) encryptedBal in
              (clearBal =? expected, chain_of w2)
          end
      end
  end.

(** [it("withdraws all staked ETH using public decryption proof")]. *)
Definition test_withdraw (alice staking_addr deployer : address) (ch : Deploy.chain S) : bool * Deploy.chain S :=
  match Deploy.deployFixture deployer staking_addr ch with
  | Err _ => (false, ch)
  | Ok w =>
      match receive alice (Stake ONE_ETHER) w with
      | Err _ => (false, chain_of w)
      | Ok w1 =>
          let balBefore := eth_of w1 alice in
          match receive alice RequestWithdrawAll w1 with
          | Err _ => (false, chain_of w1)
          | Ok w2 =>
              let pending := getPendingWithdrawCipher w2 alice in
              if (pending =? ZERO_HANDLE)%N then (false, chain_of w2) else
              let '(clearValues, decryptionProof) :=
                Verifier.publicDecrypt (w_kms w2) (w_fhe w2) [pending] in
              match Verifier.clear_value clearValues pending with
              | None => (false, chain_of w2)
              | Some clearStakeMicroEth =>
                  match receive alice (FinalizeWithdrawAll pending clearStakeMicroEth decryptionProof) w2 with
                  | Err _ => (false, chain_of w2)
                  | Ok w3 =>
                      ((balBefore <? eth_of w3 alice) &&
                       (getEncryptedStakedMicroEth w3 alice =? ZERO_HANDLE)%N &&
                       (eth_of w3 staking_addr =? 0), chain_of w3)
                  end
              end
          end
      end
  end.

(** What mocha reports of an [it] block; a skipped test is pending. *)
Inductive outcome := Passed | Failed | Pending.

(** One [it] block with the suite's [beforeEach]: off the mock the test
    is skipped; without a second signer [signers.alice] is undefined and
    the test throws. *)
Definition it_block (isMock : bool) (signers : option (address * address))
    (body : address -> address -> Deploy.chain S -> bool * Deploy.chain S) (ch : Deploy.chain S)
    : outcome * Deploy.chain S :=
  if negb isMock then (Pending, ch) else
  match signers with
  | None => (Failed, ch)
  | Some (deployer, alice) =>
      let '(ok, ch') := body deployer alice ch in (if ok then Passed else Failed, ch')
  end.

(** [describe("SecureAPRStaking")]: [before] takes the first two signers
    as [deployer] and [alice], then the three tests run in order on one
    chain; [a1], [a2], [a3] are the addresses their deployments get and
    [d] the time the accrual test's [evm_increaseTime] and [evm_mine]
    put between its stake and its claim. *)
Definition suite (isMock : bool) (ethSigners : list address) (a1 a2 a3 : address) (d : Z)
    (ch : Deploy.chain S) : list outcome :=
  let signers := match ethSigners with deployer :: alice :: _ => Some (deployer, alice) | _ => None end in
  let '(o1, ch1) := it_block isMock signers (fun deployer alice => test_stake alice a1 deployer) ch in
  let '(o2, ch2) := it_block isMock signers (fun deployer alice c => test_accrual alice a2 deployer c d) ch1 in
  let '(o3, _) := it_block isMock signers (fun deployer alice => test_withdraw alice a3 deployer) ch2 in
  [o1; o2; o3].

(** A test run that leaves [ch'] after [ch]: [dt] seconds later, [alice]
    [v] wei poorer, every account but [alice] and [c] untouched. *)
Definition chain_paid (alice c : address) (v dt : Z) (ch ch' : Deploy.chain S) : Prop :=
  Deploy.ch_now ch' = Deploy.ch_now ch + dt /\ Deploy.ch_rejects ch' = Deploy.ch_rejects ch /\
  find_or 0 (Deploy.ch_eth ch') alice = find_or 0 (Deploy.ch_eth ch) alice - v /\
  forall a, a <> alice -> a <> c -> find_or 0 (Deploy.ch_eth ch') a = find_or 0 (Deploy.ch_eth ch) a.

End Suite.

Section Passing.
Context {S : Type} `{Fhe.FheLaws S}.
Implicit Types (ch : Deploy.chain S).

(** The fixture followed by alice's stake of one ether. *)
Lemma fixture_stake alice staking_addr deployer ch :
  alice <> staking_addr -> ONE_ETHER <= find_or 0 (Deploy.ch_eth ch) alice ->
  exists w w1, Deploy.deployFixture deployer staking_addr ch = Ok w /\
    receive alice (Stake ONE_ETHER) w = Ok w1 /\
    w_staking w = staking_addr /\ w_rejects w = Deploy.ch_rejects ch /\ Coin.coin_minter (w_coin w) = Some staking_addr /\
    stake_of w1 alice = 1000000 /\ getLastAccrual w1 alice = Deploy.ch_now ch /\
    w_now w1 = Deploy.ch_now ch /\ getPendingWithdrawCipher w1 alice = ZERO_HANDLE /\
    balance_of w1 alice = 0 /\
    eth_of w1 alice = find_or 0 (Deploy.ch_eth ch) alice - ONE_ETHER /\
    eth_of w1 staking_addr = find_or 0 (Deploy.ch_eth ch) staking_addr + ONE_ETHER /\
    world_wf w1 /\ env_kept w w1.
Proof.
  intros Hns Hle.
  destruct (Deploy.deployed_world_spec deployer staking_addr ch) as (Hwf & Hm & Hst & _ & Ha & Hf & He & Hn).
  set (w := set_ledger _ _ _) in *.
  assert (Hl0 : getLastAccrual w alice = 0)
    by (unfold getLastAccrual, account_of, find_or; by rewrite Ha, lookup_empty).
  destruct (Client.receive_stake_ok alice ONE_ETHER w Hwf ltac:(congruence) ltac:(done) ltac:(done)
              ltac:(unfold eth_of; rewrite He; exact Hle) (or_introl Hl0))
    as (w1 & Hr & Hs & Hl & Hp & He1 & He2 & Hwf1 & Hk).
  exists w, w1. split; [apply Deploy.setMinter_tx_fresh|]. split; [done|]. split; [done|].
  split; [reflexivity|].
  assert (Hs0 : stake_of w alice = 0).
  { unfold stake_of, account_of, find_or. rewrite Ha, lookup_empty. apply Fhe.decrypt_zero. }
  assert (Hb : balance_of w1 alice = 0).
  { pose proof Hr as Hr'. apply receive_inv in Hr' as (w0 & Hmv & Hstk).
    destruct (move_eth_spec _ _ _ _ _ Hmv) as [[e ->] _].
    rewrite (stake_interest_on_prior_stake alice ONE_ETHER _ w1 (world_wf_set_eth w e Hwf) Hstk).
    change (getLastAccrual (set_eth w e) alice) with (getLastAccrual w alice). rewrite Hl0.
    cbn. unfold balance_of, Coin.confidentialBalanceOf, find_or. cbn. apply Fhe.decrypt_zero. }
  rewrite Hst in He2, Hm. rewrite Hs, Hs0, Hl, He1, He2, Hn. rewrite <- He. fold (eth_of w alice) (eth_of w staking_addr).
  split; [done|]. split; [done|]. split; [done|].
  split; [destruct Hk as [-> _]; done|].
  split; [rewrite Hp; unfold getPendingWithdrawCipher, account_of, find_or; by rewrite Ha, lookup_empty|].
  split; [done|]. split; [done|]. split; [done|]. split; [done|]. exact Hk.
Qed.

(** The fixture deploys on the chain as it is. *)
Lemma fixture_world deployer staking_addr ch w :
  Deploy.deployFixture deployer staking_addr ch = Ok w ->
  world_wf w /\ w_eth w = Deploy.ch_eth ch /\ w_staking w = staking_addr.
Proof.
  unfold Deploy.deployFixture. rewrite Deploy.setMinter_tx_fresh. intros [= <-].
  destruct (Deploy.deployed_world_spec deployer staking_addr ch) as (Hwf & _ & Hst & _ & _ & _ & He & _).
  done.
Qed.

Lemma test_stake_run alice staking_addr deployer ch :
  alice <> staking_addr -> ONE_ETHER <= find_or 0 (Deploy.ch_eth ch) alice ->
  exists ch', test_stake alice staking_addr deployer ch = (true, ch') /\
    chain_paid alice staking_addr ONE_ETHER 0 ch ch'.
Proof.
  intros Hns Hle.
  destruct (fixture_stake alice staking_addr deployer ch Hns Hle)
    as (w & w1 & Hd & Hr & _ & Hrj & _ & Hs & _ & Hn & _ & _ & He1 & _ & _ & Hk).
  destruct (fixture_world _ _ _ _ Hd) as (Hwf & Hew & Hst).
  destruct (receive_eth_isolation _ _ _ _ Hwf Hr) as (_ & _ & Hrj1 & Hiso).
  exists (chain_of w1). split.
  - unfold test_stake. rewrite Hd, Hr. f_equal. unfold Client.userDecryptEuint.
    change (Fhe.fhe_decrypt (w_fhe w1) (getEncryptedStakedMicroEth w1 alice)) with (stake_of w1 alice).
    rewrite Hs, Z.eqb_refl, andb_true_r.
    apply negb_true_iff, N.eqb_neq. intros Hz. unfold stake_of, getEncryptedStakedMicroEth in *.
    rewrite Hz, Fhe.decrypt_zero in Hs. discriminate.
  - unfold chain_paid, chain_of; cbn. split_and!; [lia | congruence | exact He1 |].
    intros a Ha Hb. rewrite <- Hew. apply Hiso; congruence.
Qed.

(** The accrual test's verdict for every time [d]: the minted amount,
    computed on [euint64], against the test's exact floor. *)
Lemma test_accrual_outcome alice staking_addr deployer ch d :
  alice <> staking_addr -> ONE_ETHER <= find_or 0 (Deploy.ch_eth ch) alice -> 0 <= d ->
  exists ch', test_accrual alice staking_addr deployer ch d =
      (accrual_u64 1000000 d =? accrual 1000000 d, ch') /\
    chain_paid alice staking_addr ONE_ETHER d ch ch'.
Proof.
  intros Hns Hle Hd.
  destruct (fixture_stake alice staking_addr deployer ch Hns Hle)
    as (w & w1 & Hf & Hr & Hst & Hrj0 & Hm & Hs & Hl & Hn & _ & Hb & He1 & _ & Hwf & Hk).
  destruct Hk as (_ & Hst1 & _ & Hrj1 & _ & Hm1 & _).
  destruct (fixture_world _ _ _ _ Hf) as (Hwf0 & Hew & _).
  destruct (receive_eth_isolation _ _ _ _ Hwf0 Hr) as (_ & _ & _ & Hiso).
  set (w1' := Invariants.advance w1 d).
  assert (Hwf' : world_wf w1') by exact Hwf.
  destruct (accrue_ok alice w1' ltac:(cbn; congruence)) as [w2 Hc].
  destruct (accrue_accessors alice w1' w2 Hwf' Hc) as (_ & (Hn2 & _ & _ & Hrj2 & _) & Hw2 & Hb2 & Hl2 & _).
  exists (chain_of w2). split.
  - unfold test_accrual. rewrite Hf, Hr. fold w1'. unfold receive, revert_on, claimInterest. rewrite Hc. f_equal.
    change ((balance_of w2 alice =? 1000000 * 10 * (getLastAccrual w2 alice - getLastAccrual w1 alice) / 86400) =
            (accrual_u64 1000000 d =? accrual 1000000 d)).
    rewrite Hb2, Hl2. change ((wrap64 (balance_of w1 alice + accrual_u64 (stake_of w1 alice)
      (w_now w1 + d - getLastAccrual w1 alice)) =? 1000000 * 10 * (w_now w1 + d - getLastAccrual w1 alice) / 86400) =
      (accrual_u64 1000000 d =? accrual 1000000 d)).
    rewrite Hb, Hs, Hl, Hn. replace (Deploy.ch_now ch + d - Deploy.ch_now ch) with d by lia.
    rewrite Z.add_0_l, wrap64_small by apply accrual_u64_range. reflexivity.
  - unfold chain_paid, chain_of; cbn. rewrite Hn2, Hrj2, Hw2. unfold w1'; cbn.
    split_and!; [lia | congruence | exact He1 |].
    intros a Ha Ha'. rewrite <- Hew. apply Hiso; congruence.
Qed.

Lemma test_accrual_run alice staking_addr deployer ch d :
  alice <> staking_addr -> ONE_ETHER <= find_or 0 (Deploy.ch_eth ch) alice ->
  0 <= d -> 1000000 * 10 * d < UINT64_MODULUS ->
  exists ch', test_accrual alice staking_addr deployer ch d = (true, ch') /\
    chain_paid alice staking_addr ONE_ETHER d ch ch'.
Proof.
  intros Hns Hle Hd Hw.
  destruct (test_accrual_outcome alice staking_addr deployer ch d Hns Hle Hd) as (ch' & -> & Hp).
  exists ch'. rewrite accrual_u64_exact, Z.eqb_refl by (unfold RATE_PER_ETH_PER_DAY; lia). done.
Qed.

Lemma test_withdraw_run alice staking_addr deployer ch :
  alice <> staking_addr -> ONE_ETHER <= find_or 0 (Deploy.ch_eth ch) alice ->
  alice ∉ Deploy.ch_rejects ch -> find_or 0 (Deploy.ch_eth ch) staking_addr = 0 ->
  exists ch', test_withdraw alice staking_addr deployer ch = (true, ch').
Proof.
  intros Hns Hle Hrej H0.
  destruct (fixture_stake alice staking_addr deployer ch Hns Hle)
    as (w & w1 & Hf & Hr & Hst & Hrj & Hm & Hs & _ & _ & Hp0 & _ & _ & He1 & Hwf & Hk).
  destruct Hk as (_ & Hst1 & _ & Hrj1 & _ & Hm1 & _).
  assert (Hm' : Coin.coin_minter (w_coin w1) = Some (w_staking w1)) by congruence.
  assert (Hreq : exists w2, requestWithdrawAll alice w1 = Ok w2).
  { apply requestWithdrawAll_ok; [done..|]. intros Hz. unfold stake_of in Hs.
    unfold getEncryptedStakedMicroEth in Hz. rewrite Hz, Fhe.decrypt_zero in Hs. discriminate. }
  destruct Hreq as [w2 Hreq].
  pose proof (withdraw_roundtrip alice w1 w2 Hwf Hreq ltac:(congruence) ltac:(congruence)
    ltac:(rewrite Hs, Hst1, Hst, He1, H0; unfold ONE_ETHER, MICRO_UNIT; lia)) as Hw.
  destruct (requestWithdrawAll_spec alice w1 w2 Hwf Hreq) as (_ & Hs1 & _ & Hp2 & _).
  cbv zeta in Hw. unfold test_withdraw. rewrite Hf, Hr. unfold receive at 1, revert_on at 1. rewrite Hreq.
  replace (getPendingWithdrawCipher w2 alice =? ZERO_HANDLE)%N with false
    by (symmetry; apply N.eqb_neq; congruence).
  destruct (Verifier.publicDecrypt _ _ _) as [clears pf].
  destruct Hw as (w3 & Hc & Hfin & Ha3 & Hst3 & _ & Hs3). rewrite Hc. unfold receive, revert_on. rewrite Hfin.
  exists (chain_of w3). f_equal.
  rewrite Hst1, Hst in Hst3. rewrite Hs3, N.eqb_refl, Ha3, Hst3, Hs, He1, H0.
  unfold MICRO_UNIT. apply andb_true_iff. split; [apply andb_true_iff; split; [apply Z.ltb_lt; lia|]|];
  reflexivity.
Qed.

(** C10: the test "stakes 1 ETH and tracks encrypted stake" passes for
    every backend, from every chain where alice holds one ether and is
    not the staking contract's address: the stake handle is not the zero
    handle and decrypts to 1,000,000 microETH. *)
Theorem test_stake_passes alice staking_addr deployer ch :
  alice <> staking_addr -> ONE_ETHER <= find_or 0 (Deploy.ch_eth ch) alice ->
  (test_stake alice staking_addr deployer ch).1 = true.
Proof. intros Hns Hle. by destruct (test_stake_run alice staking_addr deployer ch Hns Hle) as (ch' & -> & _). Qed.


(** C29: the accrual test passes exactly when the [euint64] product
    [stake * (10 * elapsed)] stays below [2^64], for every backend and
    every time [d >= 0] between the stake's block and the claim's block:
    from [2^64 / 10^7] seconds on (about 58,500 years) the product wraps,
    the minted amount falls below [floor(1,000,000 * 10 * elapsed / 86400)]
    and the test fails. *)
Theorem test_accrual_passes_iff alice staking_addr deployer ch d :
  alice <> staking_addr -> ONE_ETHER <= find_or 0 (Deploy.ch_eth ch) alice -> 0 <= d ->
  (test_accrual alice staking_addr deployer ch d).1 = true <-> 1000000 * 10 * d < UINT64_MODULUS.
Proof.
  intros Hns Hle Hd.
  destruct (test_accrual_outcome alice staking_addr deployer ch d Hns Hle Hd) as (ch' & -> & _). cbn.
  rewrite Z.eqb_eq. split.
  - intros Heq. destruct (Z.lt_ge_cases (1000000 * 10 * d) UINT64_MODULUS) as [|Hw]; [done|].
    pose proof (accrual_u64_wraps 1000000 d ltac:(unfold RATE_PER_ETH_PER_DAY; lia)). lia.
  - intros Hw. apply accrual_u64_exact. unfold RATE_PER_ETH_PER_DAY. lia.
Qed.

(** C12: the test "withdraws all staked ETH using public decryption proof"
    passes for every backend, from every chain where alice holds one
    ether, accepts native currency and is not the staking contract, and
    the staking contract's address starts with no balance: the pending
    handle is not the zero handle, the oracle's proof is accepted, alice
    gets her ether back, her stake is the zero handle and the staking
    contract holds nothing. *)
Theorem test_withdraw_passes alice staking_addr deployer ch :
  alice <> staking_addr -> ONE_ETHER <= find_or 0 (Deploy.ch_eth ch) alice ->
  alice ∉ Deploy.ch_rejects ch -> find_or 0 (Deploy.ch_eth ch) staking_addr = 0 ->
  (test_withdraw alice staking_addr deployer ch).1 = true.
Proof.
  intros Hns Hle Hrej H0.
  by destruct (test_withdraw_run alice staking_addr deployer ch Hns Hle Hrej H0) as (ch' & ->).
Qed.

(** C13: the whole suite run as mocha runs it: on the hardhat mock the
    three tests pass one after the other on one chain, each finding the
    chain the previous one left, for every backend, when alice (the
    second signer) starts with three ether and accepts native currency,
    the three deployments get addresses other than alice's and the last
    one's holds no ether; off the mock every test is skipped. *)
Theorem suite_passes isMock deployer alice rest a1 a2 a3 d ch :
  alice <> a1 -> alice <> a2 -> alice <> a3 -> a3 <> a1 -> a3 <> a2 ->
  3 * ONE_ETHER <= find_or 0 (Deploy.ch_eth ch) alice ->
  alice ∉ Deploy.ch_rejects ch -> find_or 0 (Deploy.ch_eth ch) a3 = 0 ->
  0 <= d <= 1000000000000 ->
  suite isMock (deployer :: alice :: rest) a1 a2 a3 d ch =
    if isMock then [Passed; Passed; Passed] else [Pending; Pending; Pending].
Proof.
  intros H1 H2 H3 H31 H32 Hle Hrej H0 Hd. destruct isMock; [|reflexivity].
  unfold suite, it_block. cbn -[test_stake test_accrual test_withdraw].
  destruct (test_stake_run alice a1 deployer ch H1 ltac:(unfold ONE_ETHER in *; lia))
    as (ch1 & -> & Hn1 & Hr1 & He1 & Ho1).
  destruct (test_accrual_run alice a2 deployer ch1 d H2 ltac:(unfold ONE_ETHER in *; lia) ltac:(lia) ltac:(simpl_u64; lia))
    as (ch2 & -> & Hn2 & Hr2 & He2 & Ho2).
  destruct (test_withdraw_run alice a3 deployer ch2 H3 ltac:(unfold ONE_ETHER in *; lia)
              ltac:(congruence) ltac:(rewrite Ho2, Ho1; congruence)) as (ch3 & ->).
  reflexivity.
Qed.

End Passing.

(** ** A concrete run

    The scenario of the specification (§8) on the concrete backend
    [Fhe.Store], through the page: alice types "1.0" and stakes, one day
    passes, she claims and decrypts her cCoin balance. *)

Definition scenario_ex : Client.ui * world Fhe.Store :=
  let w0 := ok_or (Deploy.deployFixture deployer_ex staking_ex chain_ex)
              (Deploy.deploy_contracts deployer_ex staking_ex chain_ex) in
  let '(u1, w1) := Client.onStake Client.parseEther_ex Client.env_ex (Client.setStakeEth "1.0" Client.ui_init) w0 in
  let '(u2, w2) := Client.onClaim Client.env_ex u1 (Invariants.advance w1 SECONDS_PER_DAY) in
  Client.onDecryptCcoin Client.env_ex u2 w2.

(** A computation behind the finding on spec §8: in the specification's concrete scenario (stake one ether, claim
    after one day), the page shows the minted 10,000,000 reward units as
    "10 cCoin": [formatCcoinUnits] strips the trailing zeros of the
    fraction and the dot, where the specification displays 10.000000. *)
Example scenario_ccoin_display :
  Client.decryptedCcoinUnits scenario_ex.1 = Some 10000000 /\
  Client.ccoinClearText scenario_ex.1 = "10 cCoin"%string.
Proof. vm_compute. split; reflexivity. Qed.


(** The three tests pass on the concrete chain. *)
Lemma test_stake_passes_witness :
  alice_ex <> staking_ex /\ ONE_ETHER <= find_or 0 (Deploy.ch_eth chain_ex) alice_ex /\
  (test_stake alice_ex staking_ex deployer_ex chain_ex).1 = true.
Proof.
  assert (Hb : ONE_ETHER <= find_or 0 (Deploy.ch_eth chain_ex) alice_ex) by (vm_compute; congruence).
  split; [discriminate|]. split; [exact Hb|].
  apply test_stake_passes; [discriminate | exact Hb].
Defined.


Lemma test_accrual_passes_iff_witness :
  alice_ex <> staking_ex /\ ONE_ETHER <= find_or 0 (Deploy.ch_eth chain_ex) alice_ex /\ 0 <= 1844674407371 /\
  ((test_accrual alice_ex staking_ex deployer_ex chain_ex 1844674407371).1 = true <->
     1000000 * 10 * 1844674407371 < UINT64_MODULUS) /\
  (test_accrual alice_ex staking_ex deployer_ex chain_ex 1844674407371).1 = false.
Proof.
  assert (Hb : ONE_ETHER <= find_or 0 (Deploy.ch_eth chain_ex) alice_ex) by (vm_compute; congruence).
  assert (Hi := test_accrual_passes_iff alice_ex staking_ex deployer_ex chain_ex 1844674407371
                  ltac:(discriminate) Hb ltac:(lia)).
  split; [discriminate|]. split; [exact Hb|]. split; [lia|]. split; [exact Hi|].
  apply not_true_is_false. intros Ht. apply Hi in Ht. revert Ht. simpl_u64. lia.
Defined.

Lemma test_withdraw_passes_witness :
  alice_ex <> staking_ex /\ ONE_ETHER <= find_or 0 (Deploy.ch_eth chain_ex) alice_ex /\
  (alice_ex ∉ Deploy.ch_rejects chain_ex) /\ find_or 0 (Deploy.ch_eth chain_ex) staking_ex = 0 /\
  (test_withdraw alice_ex staking_ex deployer_ex chain_ex).1 = true.
Proof.
  assert (Hb : ONE_ETHER <= find_or 0 (Deploy.ch_eth chain_ex) alice_ex) by (vm_compute; congruence).
  assert (Hr : alice_ex ∉ Deploy.ch_rejects chain_ex) by (apply not_elem_of_nil).
  split; [discriminate|]. split; [exact Hb|]. split; [exact Hr|]. split; [reflexivity|].
  apply test_withdraw_passes; [discriminate | exact Hb | exact Hr | reflexivity].
Defined.

Lemma suite_passes_witness :
  suite true [deployer_ex; alice_ex] 3 4 5 86401 chain_ex = [Passed; Passed; Passed] /\
  suite false [deployer_ex; alice_ex] 3 4 5 86401 chain_ex = [Pending; Pending; Pending].
Proof.
  assert (Hb : 3 * ONE_ETHER <= find_or 0 (Deploy.ch_eth chain_ex) alice_ex) by (vm_compute; congruence).
  assert (Hr : alice_ex ∉ Deploy.ch_rejects chain_ex) by (apply not_elem_of_nil).
  split; [apply (suite_passes true) | apply (suite_passes false)];
    first [discriminate | exact Hb | exact Hr | reflexivity | lia].
Defined.

End Tests.
